(** * PickaThon night-shift scheduler: a shallow embedding of PickaThon2.py

    The scheduling engine of the repository (holiday table, demand builder,
    conflict detector, schedule finaliser, weekend/holiday annotator) is
    embedded as Rocq functions, and the properties listed in the
    specification are stated and settled against them.

    Conventions.
    - Python [int] is [Z]; doctor identifiers and date strings are [string].
    - A Python [dict] keeps insertion order and has unique keys: it is an
      association list ([dict K V]); [dict_set] overwrites in place or
      appends, and subscripting a missing key raises [KeyError].
    - A call that can raise returns a [result].
    - [random.choice] draws its index from an explicit source [rng], a
      stream of naturals; every run of the program is the run for some
      source.
    - Mutable objects shared with the caller live in a store ([Module
      Heap]); the value-level functions of the first part are related to the
      store-level ones by refinement lemmas. *)

From stdpp Require Import base list list_numbers strings pretty.
From Stdlib Require Import ZArith Lia Ascii.

Local Open Scope Z_scope.

(** ** Exceptions and results *)

Inductive exn : Type :=
| KeyError
| ValueError
| IndexError
| TypeError.

Inductive result (A : Type) : Type :=
| Ok (a : A)
| Raise (e : exn).

Arguments Ok {A} a.
Arguments Raise {A} e.

Definition rbind {A B : Type} (m : result A) (k : A -> result B) : result B :=
  match m with
  | Ok a => k a
  | Raise e => Raise e
  end.

Declare Scope result_scope.
Delimit Scope result_scope with result.
Notation "x <- m ;; k" := (rbind m (fun x => k))
  (at level 100, m at next level, right associativity) : result_scope.
Local Open Scope result_scope.

(** A [for] loop whose body can raise: the state is threaded from left to
    right and the first exception leaves the loop. *)
Fixpoint for_each {S X : Type} (body : S -> X -> result S) (xs : list X) (s : S)
  : result S :=
  match xs with
  | [] => Ok s
  | x :: xs' => s' <- body s x ;; for_each body xs' s'
  end.

(** A list comprehension [[x for x in xs if cond(x)]] whose condition can
    raise. *)
Fixpoint filter_raising {X : Type} (cond : X -> result bool) (xs : list X)
  : result (list X) :=
  match xs with
  | [] => Ok []
  | x :: xs' =>
      b <- cond x ;;
      rest <- filter_raising cond xs' ;;
      Ok (if b : bool then x :: rest else rest)
  end.

(** ** Insertion-ordered dictionaries *)

Abbreviation dict K V := (list (K * V)) (only parsing).

Section Dict.
Context {K V : Type} `{EqDecision K}.

Fixpoint dict_get (d : dict K V) (k : K) : option V :=
  match d with
  | [] => None
  | (k', v) :: d' => if decide (k = k') then Some v else dict_get d' k
  end.

(** [k in d] *)
Definition dict_mem (d : dict K V) (k : K) : bool :=
  match dict_get d k with Some _ => true | None => false end.

(** [d[k]] *)
Definition dict_item (d : dict K V) (k : K) : result V :=
  match dict_get d k with
  | Some v => Ok v
  | None => Raise KeyError
  end.

(** [d[k] = v]: an existing key keeps its position, a new one goes last. *)
Fixpoint dict_set (d : dict K V) (k : K) (v : V) : dict K V :=
  match d with
  | [] => [(k, v)]
  | (k', v') :: d' =>
      if decide (k = k') then (k', v) :: d' else (k', v') :: dict_set d' k v
  end.

Definition dict_keys (d : dict K V) : list K := d.*1.

(** What a Python dict object always satisfies. *)
Definition dict_wf (d : dict K V) : Prop := NoDup (dict_keys d).
End Dict.

(** [{key(x): val(x) for x in xs}] *)
Definition dict_comprehension {X K V : Type} `{EqDecision K}
    (key : X -> K) (val : X -> V) (xs : list X) : dict K V :=
  fold_left (fun d x => dict_set d (key x) (val x)) xs [].

(** [range(a, b)] *)
Definition py_range (a b : Z) : list Z := seqZ a (b - a).

(** [len(x)] as a Python int *)
Definition len {A : Type} (l : list A) : Z := Z.of_nat (length l).

(** ** Holiday calculator *)

(** The module-level table [public_holidays]. *)
Definition public_holidays : dict Z (list string) :=
  [ (1,  ["01-01"; "01-06"]);
    (4,  ["04-01"]);
    (5,  ["05-01"; "05-08"]);
    (7,  ["07-05"]);
    (8,  ["08-29"]);
    (9,  ["09-01"; "09-15"]);
    (11, ["11-01"; "11-17"]);
    (12, ["12-24"; "12-25"; "12-26"]) ]%string.

(** [f"{n}"] for an int. *)
Definition fmt_d (n : Z) : string := pretty n.

(** [f"{n:02d}"]: zero-padded to width two (the sign counts in the width,
    so a negative number is never padded). *)
Definition fmt_02d (n : Z) : string :=
  let s := pretty n in
  if (String.length s <? 2)%nat then ("0" +:+ s)%string else s.

Definition get_public_holidays (year : Z) : list string :=
  mjoin ((fun '(month, days) =>
            (fun day => fmt_d year +:+ "-" +:+ fmt_02d month +:+ "-" +:+ day)
              <$> days)
           <$> public_holidays).

(** ** Calendar arithmetic of [datetime] *)

Definition is_leap (y : Z) : bool :=
  (y mod 4 =? 0) && (negb (y mod 100 =? 0) || (y mod 400 =? 0)).

Definition days_in_month (y m : Z) : Z :=
  if m =? 2 then (if is_leap y then 29 else 28)
  else if (m =? 4) || (m =? 6) || (m =? 9) || (m =? 11) then 30
  else 31.

Definition days_before_year (y : Z) : Z :=
  let p := y - 1 in p * 365 + p / 4 - p / 100 + p / 400.

Definition days_before_month (y m : Z) : Z :=
  fold_left Z.add ((days_in_month y) <$> py_range 1 m) 0.

(** [date(y, m, d).toordinal()] *)
Definition toordinal (y m d : Z) : Z :=
  days_before_year y + days_before_month y m + d.

(** [date(y, m, d).weekday()]: Monday is 0, Sunday is 6. *)
Definition weekday (y m d : Z) : Z := (toordinal y m d + 6) mod 7.

(** ** [datetime.strptime(s, "%Y-%m-%d")] *)

(** A string of this development is a sequence of characters with codes
    below 256. Among these the decimal digits are the ten ASCII digits;
    a Python string with a decimal digit of another script, which
    [strptime] also reads as a digit, is not a string of this development.
    The statements about arbitrary date strings are made for ASCII
    strings. *)

Definition digit_val (c : ascii) : option Z :=
  let n := Z.of_nat (nat_of_ascii c) in
  if (48 <=? n) && (n <=? 57) then Some (n - 48) else None.

Fixpoint digits_val (acc : Z) (cs : list ascii) : option Z :=
  match cs with
  | [] => Some acc
  | c :: cs' =>
      match digit_val c with
      | Some v => digits_val (acc * 10 + v) cs'
      | None => None
      end
  end.

Definition hyphen : ascii := "-"%char.
Definition space : ascii := " "%char.

(** A [%m] field: [1[0-2]|0[1-9]|[1-9]]. *)
Definition parse_month (cs : list ascii) : option Z :=
  match cs with
  | [_] | [_; _] =>
      match digits_val 0 cs with
      | Some m => if (1 <=? m) && (m <=? 12) then Some m else None
      | None => None
      end
  | _ => None
  end.

(** A [%d] field: [3[01]|[12]\d|0[1-9]|[1-9]| [1-9]]. *)
Definition parse_day (cs : list ascii) : option Z :=
  match cs with
  | [_] | [_; _] =>
      let cs' := match cs with
                 | [s; c] => if decide (s = space) then [c] else cs
                 | _ => cs
                 end in
      match digits_val 0 cs' with
      | Some d => if (1 <=? d) && (d <=? 31) then Some d else None
      | None => None
      end
  | _ => None
  end.

(** Splits at the first hyphen. *)
Fixpoint split_hyphen (cs : list ascii) : list ascii * option (list ascii) :=
  match cs with
  | [] => ([], None)
  | c :: cs' =>
      if decide (c = hyphen) then ([], Some cs')
      else let '(a, b) := split_hyphen cs' in (c :: a, b)
  end.

Definition chars (s : string) : list ascii := String.list_ascii_of_string s.

(** The date a string denotes, or [ValueError]: the year is four digits, and
    the date must exist ([datetime] has no year 0 and no 30th of February). *)
Definition strptime (s : string) : result (Z * Z * Z) :=
  match chars s with
  | y1 :: y2 :: y3 :: y4 :: h :: rest =>
      match digits_val 0 [y1; y2; y3; y4], decide (h = hyphen),
            split_hyphen rest with
      | Some y, left _, (mcs, Some dcs) =>
          match parse_month mcs, parse_day dcs with
          | Some m, Some d =>
              if (1 <=? y) && (d <=? days_in_month y m)
              then Ok (y, m, d) else Raise ValueError
          | _, _ => Raise ValueError
          end
      | _, _, _ => Raise ValueError
      end
  | _ => Raise ValueError
  end.

(** ** Weekend/holiday annotator *)

Definition is_weekend_or_holiday (date_str : string) (holidays : list string)
  : result bool :=
  date_obj <- strptime date_str ;;
  let '(y, m, d) := date_obj in
  let is_weekend := 5 <=? weekday y m d in
  let is_holiday := bool_decide (date_str ∈ holidays) in
  Ok (is_weekend || is_holiday).

(** ** Roster *)

(** One doctor's preference record. [num_shifts] is [None] when the record
    has no bound: the key is absent or holds [float('inf')], which
    [finalize_schedule] cannot tell apart. *)
Record details : Type := {
  excluded_days : list Z;
  wanted_days : list Z;
  num_shifts : option Z
}.

(** ** Demand builder *)

Definition validate_days (days : list Z) (num_days : Z) : list Z :=
  filter (fun day => day <= num_days) days.

(** [(pd.Timestamp(year=year, month=month, day=1) + pd.offsets.MonthEnd(0)).day]:
    the length of the month. The timestamp is built from the fields of a
    date, and pandas (2.0 and later) keeps it when it lies outside the range
    of its nanosecond timestamps; it rejects a month outside 1..12 and a
    year outside 1..9999, the years of [datetime], with a [ValueError]. *)
Definition month_end_day (year month : Z) : result Z :=
  if negb ((1 <=? month) && (month <=? 12)) then Raise ValueError
  else if negb ((1 <=? year) && (year <=? 9999)) then Raise ValueError
  else Ok (days_in_month year month).

(** [schedule[day].append(doctor)] *)
Definition append_doctor (schedule : dict Z (list string)) (day : Z)
    (doctor : string) : result (dict Z (list string)) :=
  l <- dict_item schedule day ;;
  Ok (dict_set schedule day (l ++ [doctor])).

(** The body of the outer loop, for one roster entry. *)
Definition add_wanted_days (num_days : Z) (schedule : dict Z (list string))
    (entry : string * details) : result (dict Z (list string)) :=
  let '(doctor, det) := entry in
  let validated_wanted_days := validate_days (wanted_days det) num_days in
  for_each
    (fun schedule day =>
       if bool_decide (day ∈ excluded_days det) then Ok schedule
       else append_doctor schedule day doctor)
    validated_wanted_days schedule.

(** Everything after the computation of [num_days], for a month length
    [num_days] of any value. *)
Definition build_schedule (doctors : dict string details) (num_days : Z)
  : result (dict Z (list string)) :=
  let schedule :=
    dict_comprehension (fun day => day) (fun _ => @nil string)
      (py_range 1 (num_days + 1)) in
  for_each (add_wanted_days num_days) doctors schedule.

Definition generate_initial_schedule (doctors : dict string details)
    (month year : Z) : result (dict Z (list string)) :=
  num_days <- month_end_day year month ;;
  build_schedule doctors num_days.

(** ** Conflict detector *)

Definition identify_conflicts (schedule : dict Z (list string))
  : dict Z (list string) :=
  dict_comprehension fst snd
    (filter (fun item => 1 < len item.2) schedule).

(** ** Schedule finaliser *)

(** The source of [random.choice]'s indices. *)
Definition rng : Type := nat -> nat.

Definition rng_tail (g : rng) : rng := fun n => g (S n).

(** [random.choice(xs)] for a non-empty [xs]: an index below [len(xs)]. *)
Definition random_choice {A : Type} (g : rng) (xs : list A) : result (A * rng) :=
  match xs !! (g 0%nat mod length xs)%nat with
  | Some x => Ok (x, rng_tail g)
  | None => Raise IndexError
  end.

(** The two dictionaries the function builds, and the random source. *)
Record fstate : Type := {
  final_schedule : dict Z (option string);
  doctor_shift_count : dict string Z;
  rnd : rng
}.

(** [count[doctor] += 1] *)
Definition incr (count : dict string Z) (doctor : string)
  : result (dict string Z) :=
  c <- dict_item count doctor ;;
  Ok (dict_set count doctor (c + 1)).

(** First loop: resolved conflicts and single-candidate days. *)
Definition seed_step (resolved_schedule : dict Z string) (st : fstate)
    (item : Z * list string) : result fstate :=
  let '(day, assigned_doctors) := item in
  if dict_mem resolved_schedule day then
    r <- dict_item resolved_schedule day ;;
    let fs := dict_set (final_schedule st) day (Some r) in
    count <- incr (doctor_shift_count st) r ;;
    Ok {| final_schedule := fs; doctor_shift_count := count; rnd := rnd st |}
  else
    match assigned_doctors with
    | [a] =>
        let fs := dict_set (final_schedule st) day (Some a) in
        count <- incr (doctor_shift_count st) a ;;
        Ok {| final_schedule := fs; doctor_shift_count := count; rnd := rnd st |}
    | _ =>
        Ok {| final_schedule := dict_set (final_schedule st) day None;
              doctor_shift_count := doctor_shift_count st; rnd := rnd st |}
    end.

(** [num_shifts > count], with [float('inf')] for a missing bound. *)
Definition shifts_left (bound : option Z) (count : Z) : bool :=
  match bound with
  | Some n => count <? n
  | None => true
  end.

(** [v != doctor] for a slot of the final schedule. *)
Definition slot_differs (v : option string) (doctor : string) : bool :=
  negb (bool_decide (v = Some doctor)).

(** The condition of the comprehension that builds [available_doctors];
    [and] and [or] evaluate from left to right and stop early. *)
Definition is_available (doctors : dict string details)
    (fs : dict Z (option string)) (day : Z) (entry : string * Z) : result bool :=
  let '(doctor, count) := entry in
  det <- dict_item doctors doctor ;;
  if negb (shifts_left (num_shifts det) count) then Ok false
  else if bool_decide (day ∈ excluded_days det) then Ok false
  else
    before <- (if day =? 1 then Ok true
               else v <- dict_item fs (day - 1) ;; Ok (slot_differs v doctor)) ;;
    if negb before then Ok false
    else if day =? len fs then Ok true
    else v <- dict_item fs (day + 1) ;; Ok (slot_differs v doctor).

(** Second loop: one still unassigned day. *)
Definition fill_step (doctors : dict string details) (st : fstate) (day : Z)
  : result fstate :=
  v <- dict_item (final_schedule st) day ;;
  match v with
  | Some _ => Ok st
  | None =>
      available <- filter_raising (is_available doctors (final_schedule st) day)
                     (doctor_shift_count st) ;;
      match available with
      | [] => Ok st
      | _ =>
          pick <- random_choice (rnd st) available.*1 ;;
          let '(selected_doctor, g) := pick in
          let fs := dict_set (final_schedule st) day (Some selected_doctor) in
          count <- incr (doctor_shift_count st) selected_doctor ;;
          Ok {| final_schedule := fs; doctor_shift_count := count; rnd := g |}
      end
  end.

(** Third loop: a day equal to the day before it is unassigned. *)
Definition cleanup_step (fs : dict Z (option string)) (day : Z)
  : result (dict Z (option string)) :=
  a <- dict_item fs day ;;
  b <- dict_item fs (day - 1) ;;
  if bool_decide (a = b) then Ok (dict_set fs day None) else Ok fs.

Definition seed_pass (schedule : dict Z (list string))
    (resolved_schedule : dict Z string) (doctors : dict string details)
    (g : rng) : result fstate :=
  for_each (seed_step resolved_schedule) schedule
    {| final_schedule := [];
       doctor_shift_count := dict_comprehension fst (fun _ => 0) doctors;
       rnd := g |}.

Definition fill_pass (doctors : dict string details) (st : fstate)
  : result fstate :=
  for_each (fill_step doctors) (py_range 1 (len (final_schedule st) + 1)) st.

Definition cleanup_pass (fs : dict Z (option string))
  : result (dict Z (option string)) :=
  for_each cleanup_step (py_range 2 (len fs)) fs.

Definition finalize_schedule (schedule : dict Z (list string))
    (resolved_schedule : dict Z string) (doctors : dict string details)
    (g : rng) : result (dict Z (option string)) :=
  st <- seed_pass schedule resolved_schedule doctors g ;;
  st <- fill_pass doctors st ;;
  cleanup_pass (final_schedule st).


(** ** The callers in [main] *)

(** [f"{selected_year}-{selected_month:02d}-{day:02d}"], the date string of
    a row of the final table. *)
Definition date_str (year month day : Z) : string :=
  (fmt_d year +:+ "-" +:+ fmt_02d month +:+ "-" +:+ fmt_02d day)%string.

(** ** The session state *)

(** The values that [main] keeps in [st.session_state]: the selected year
    and month, the chosen doctor of a conflict, the roster, the demand map
    and the conflict map, and the final schedule. *)
Inductive session_value : Type :=
| VInt (n : Z)
| VStr (s : string)
| VRoster (doctors : dict string details)
| VDemand (schedule : dict Z (list string))
| VFinal (schedule : dict Z (option string)).

Section DictDelete.
Context {K V : Type} `{EqDecision K}.

Fixpoint dict_remove (d : dict K V) (k : K) : dict K V :=
  match d with
  | [] => []
  | (k', v) :: d' => if decide (k = k') then d' else (k', v) :: dict_remove d' k
  end.

(** [del d[k]] *)
Definition dict_delitem (d : dict K V) (k : K) : result (dict K V) :=
  if dict_mem d k then Ok (dict_remove d k) else Raise KeyError.
End DictDelete.

(** [s.startswith(p)] *)
Definition startswith (s p : string) : bool := String.prefix p s.

(** The keys that [reset_scheduling_process] deletes. *)
Definition is_scheduling_key (key : string) : bool :=
  startswith key "conflict_"
  || bool_decide (key ∈ ["initial_schedule"; "conflicts"; "final_schedule"]%string).

(** [st.session_state] is the widget library's mapping: it lists its keys
    in an order of its own, not in the order of insertion. The loop runs
    over a copy [keys] of the keys, in whatever order the library lists
    them, and deletes from the session state itself. The order of the list
    that represents a session state stands for nothing: a session state is
    observed through its lookups only. *)
Definition reset_keys (keys : list string)
    (session_state : dict string session_value)
  : result (dict string session_value) :=
  for_each
    (fun st key => if is_scheduling_key key then dict_delitem st key else Ok st)
    keys session_state.

(** The loop for one listing of the keys, that of the representation. *)
Definition reset_scheduling_process (session_state : dict string session_value)
  : result (dict string session_value) :=
  reset_keys (dict_keys session_state) session_state.

(** ** Conflict resolution *)

(** [f"conflict_{day}"] *)
Definition conflict_key (day : Z) : string := ("conflict_" +:+ fmt_d day)%string.

(** [xs.index(x)]: the first position of [x], or [ValueError]. *)
Fixpoint list_index {A : Type} `{EqDecision A} (xs : list A) (x : A) : result Z :=
  match xs with
  | [] => Raise ValueError
  | y :: xs' =>
      if decide (x = y) then Ok 0
      else i <- list_index xs' x ;; Ok (i + 1)
  end.

(** [xs[0]] *)
Definition first_item {A : Type} (xs : list A) : result A :=
  match xs with
  | [] => Raise IndexError
  | x :: _ => Ok x
  end.

(** [doctors_list.index(v)] for a value of the session state: only a
    string can be equal to an element of the list. *)
Definition index_of_value (doctors_list : list string) (v : session_value)
  : result Z :=
  match v with
  | VStr s => list_index doctors_list s
  | _ => Raise ValueError
  end.

Section Resolve.
(** [st.selectbox(label, options, key=key, index=index)] is the widget
    library's: what it returns is a parameter, given the key, the options
    and the index of the preselected option. The library keeps a widget's
    value in the session state under the widget's key. *)
Variable selectbox : string -> list string -> Z -> string.

(** The body of the loop, on the session state and the resolution map. *)
Definition resolve_step
    (st : dict string session_value * dict Z string)
    (item : Z * list string)
  : result (dict string session_value * dict Z string) :=
  let '(session_state, resolved_schedule) := st in
  let '(day, doctors_list) := item in
  session_state <-
    (if negb (dict_mem session_state (conflict_key day)) then
       first <- first_item doctors_list ;;
       Ok (dict_set session_state (conflict_key day) (VStr first))
     else Ok session_state) ;;
  stored <- dict_item session_state (conflict_key day) ;;
  index <- index_of_value doctors_list stored ;;
  let selected_doctor := selectbox (conflict_key day) doctors_list index in
  Ok (dict_set session_state (conflict_key day) (VStr selected_doctor),
      dict_set resolved_schedule day selected_doctor).

Definition resolve_conflicts (session_state : dict string session_value)
    (conflicts : dict Z (list string))
  : result (dict string session_value * dict Z string) :=
  for_each resolve_step conflicts (session_state, []).
End Resolve.

(** ** The form and the buttons of [main] *)

(** [session_state[key]] read as a value of one kind; a value of another
    kind does not occur in a session that [main] has built, and raises
    [TypeError] here. *)
Definition session_roster (session_state : dict string session_value)
    (key : string) : result (dict string details) :=
  v <- dict_item session_state key ;;
  match v with VRoster d => Ok d | _ => Raise TypeError end.

Definition session_demand (session_state : dict string session_value)
    (key : string) : result (dict Z (list string)) :=
  v <- dict_item session_state key ;;
  match v with VDemand d => Ok d | _ => Raise TypeError end.

(** [set(wanted_days).intersection(set(excluded_days))], as a truth
    value. *)
Definition days_overlap (wanted excluded : list Z) : bool :=
  bool_decide (Exists (fun day => day ∈ excluded) wanted).

(** What the form shows after a submission. *)
Inductive feedback : Type :=
| NoFeedback
| OverlapError
| DoctorAdded.

(** [if "doctors" not in st.session_state: st.session_state["doctors"] = {}] *)
Definition init_doctors (session_state : dict string session_value)
  : dict string session_value :=
  if dict_mem session_state "doctors"%string then session_state
  else dict_set session_state "doctors"%string (VRoster []).

(** The body of the form, once its widgets have their values. *)
Definition submit_doctor (session_state : dict string session_value)
    (add_doctor : bool) (name : string) (excluded_days wanted_days : list Z)
    (num_shifts : Z) : result (dict string session_value * feedback) :=
  if add_doctor && negb (bool_decide (name = ""%string)) then
    if days_overlap wanted_days excluded_days then
      Ok (session_state, OverlapError)
    else
      doctors <- session_roster session_state "doctors" ;;
      let entry := {| excluded_days := excluded_days;
                      wanted_days := wanted_days;
                      num_shifts := if 0 <? num_shifts then Some num_shifts
                                    else None |} in
      Ok (dict_set session_state "doctors"%string
            (VRoster (dict_set doctors name entry)),
          DoctorAdded)
  else Ok (session_state, NoFeedback).

(** The block under [st.button("Generate Schedule")]. *)
Definition generate_clicked (session_state : dict string session_value)
    (selected_month selected_year : Z) (g : rng)
  : result (dict string session_value) :=
  doctors <- session_roster session_state "doctors" ;;
  initial <- generate_initial_schedule doctors selected_month selected_year ;;
  let session_state :=
    dict_set session_state "initial_schedule"%string (VDemand initial) in
  initial <- session_demand session_state "initial_schedule" ;;
  let session_state :=
    dict_set session_state "conflicts"%string
      (VDemand (identify_conflicts initial)) in
  conflicts <- session_demand session_state "conflicts" ;;
  match conflicts with
  | [] =>
      initial <- session_demand session_state "initial_schedule" ;;
      doctors <- session_roster session_state "doctors" ;;
      final <- finalize_schedule initial [] doctors g ;;
      Ok (dict_set session_state "final_schedule"%string (VFinal final))
  | _ => Ok session_state
  end.

Section ConflictSection.
Variable selectbox : string -> list string -> Z -> string.

(** The block under ["conflicts" in st.session_state and
    st.session_state["conflicts"]], with the state of the button
    "Finalize Schedule". *)
Definition conflict_section (session_state : dict string session_value)
    (finalize_clicked : bool) (g : rng)
  : result (dict string session_value) :=
  if dict_mem session_state "conflicts"%string then
    conflicts <- session_demand session_state "conflicts" ;;
    match conflicts with
    | [] => Ok session_state
    | _ =>
        resolved <- resolve_conflicts selectbox session_state conflicts ;;
        let '(session_state, resolved_schedule) := resolved in
        if finalize_clicked then
          initial <- session_demand session_state "initial_schedule" ;;
          doctors <- session_roster session_state "doctors" ;;
          final <- finalize_schedule initial resolved_schedule doctors g ;;
          Ok (dict_set session_state "final_schedule"%string (VFinal final))
        else Ok session_state
    end
  else Ok session_state.
End ConflictSection.

(** ** The table of the final schedule *)

Definition session_final (session_state : dict string session_value)
    (key : string) : result (dict Z (option string)) :=
  v <- dict_item session_state key ;;
  match v with VFinal d => Ok d | _ => Raise TypeError end.

(** One row of [schedule_data]. *)
Record row : Type := {
  Date : string;
  Doctor : string
}.

(** [f"**{day}**" if marked else str(day)] *)
Definition day_cell (marked : bool) (day : Z) : string :=
  if marked then ("**" +:+ fmt_d day +:+ "**")%string else fmt_d day.

(** [slot if slot else "None"]: [None] and the empty string are false. *)
Definition doctor_cell (slot : option string) : string :=
  match slot with
  | Some name => if bool_decide (name = ""%string) then "None"%string else name
  | None => "None"%string
  end.

(** The body of the loop over the days; the two reads of
    [final_schedule[day]] see the same dictionary. *)
Definition table_row (holidays : list string) (selected_year selected_month : Z)
    (final_schedule : dict Z (option string)) (schedule_data : list row)
    (day : Z) : result (list row) :=
  marked <- is_weekend_or_holiday
              (date_str selected_year selected_month day) holidays ;;
  slot <- dict_item final_schedule day ;;
  Ok (schedule_data
        ++ [{| Date := day_cell marked day; Doctor := doctor_cell slot |}]).

(** The block under ["final_schedule" in st.session_state], with the
    holidays of the selected year; without the key there is no table. *)
Definition schedule_table (session_state : dict string session_value)
    (selected_year selected_month : Z) : result (list row) :=
  let holidays := get_public_holidays selected_year in
  if dict_mem session_state "final_schedule"%string then
    final_schedule <- session_final session_state "final_schedule" ;;
    for_each (table_row holidays selected_year selected_month final_schedule)
      (py_range 1 (len final_schedule + 1)) []
  else Ok [].

(** * The engine over a store of shared objects

    The functions above take and return values. The Python functions take
    references to objects the caller keeps using: whether a call changes
    them, and which objects a result shares with its arguments, is only
    visible in a store. This module embeds [identify_conflicts] and
    [finalize_schedule] once more, statement by statement, over a store of
    objects addressed by location. *)

Module Heap.

Abbreviation loc := nat (only parsing).

Inductive obj : Type :=
| ONames (names : list string)
    (** a list of doctor identifiers: one day of the demand map *)
| ODays (days : list Z)
    (** a list of day numbers: [wanted_days] or [excluded_days] *)
| ODetails (excluded wanted : loc) (bound : option Z)
    (** a doctor's record, with references to its two lists *)
| ORoster (entries : dict string loc)
| ODemand (entries : dict Z loc)
    (** a dictionary from days to lists of doctors *)
| OResolved (entries : dict Z string)
| OFinal (entries : dict Z (option string))
| OCount (entries : dict string Z).

(** The store: location [l] is the [l]-th object; a new object goes last. *)
Abbreviation store := (list obj) (only parsing).

(** A computation reads and writes the store; the store after a raised
    exception is the store at the point of the [raise]. *)
Definition M (A : Type) : Type := store -> result A * store.

Definition ret {A : Type} (a : A) : M A := fun h => (Ok a, h).

Definition raise {A : Type} (e : exn) : M A := fun h => (Raise e, h).

Definition lift {A : Type} (r : result A) : M A := fun h => (r, h).

Definition bind {A B : Type} (m : M A) (k : A -> M B) : M B :=
  fun h =>
    match m h with
    | (Ok a, h') => k a h'
    | (Raise e, h') => (Raise e, h')
    end.

Declare Scope store_scope.
Delimit Scope store_scope with store.
Notation "x <- m ;; k" := (bind m (fun x => k))
  (at level 100, m at next level, right associativity) : store_scope.
Notation "m ;;; k" := (bind m (fun _ => k))
  (at level 100, right associativity) : store_scope.
Local Open Scope store_scope.

Definition alloc (o : obj) : M loc := fun h => (Ok (length h), h ++ [o]).

(** A location without an object, or with an object of another kind than
    the statement expects, does not occur in a run of the program; the
    embedding raises [TypeError] there. *)
Definition load (l : loc) : M obj :=
  fun h =>
    match h !! l with
    | Some o => (Ok o, h)
    | None => (Raise TypeError, h)
    end.

Definition store_at (l : loc) (o : obj) : M unit :=
  fun h => (Ok tt, <[l := o]> h).

Definition load_names (l : loc) : M (list string) :=
  o <- load l ;;
  match o with ONames names => ret names | _ => raise TypeError end.

Definition load_days (l : loc) : M (list Z) :=
  o <- load l ;;
  match o with ODays days => ret days | _ => raise TypeError end.

Definition load_details (l : loc) : M (loc * loc * option Z) :=
  o <- load l ;;
  match o with
  | ODetails excluded wanted bound => ret (excluded, wanted, bound)
  | _ => raise TypeError
  end.

Definition load_roster (l : loc) : M (dict string loc) :=
  o <- load l ;;
  match o with ORoster entries => ret entries | _ => raise TypeError end.

Definition load_demand (l : loc) : M (dict Z loc) :=
  o <- load l ;;
  match o with ODemand entries => ret entries | _ => raise TypeError end.

Definition load_resolved (l : loc) : M (dict Z string) :=
  o <- load l ;;
  match o with OResolved entries => ret entries | _ => raise TypeError end.

Definition load_final (l : loc) : M (dict Z (option string)) :=
  o <- load l ;;
  match o with OFinal entries => ret entries | _ => raise TypeError end.

Definition load_count (l : loc) : M (dict string Z) :=
  o <- load l ;;
  match o with OCount entries => ret entries | _ => raise TypeError end.

Fixpoint for_each_m {S X : Type} (body : S -> X -> M S) (xs : list X) (s : S)
  : M S :=
  match xs with
  | [] => ret s
  | x :: xs' => s' <- body s x ;; for_each_m body xs' s'
  end.

Fixpoint filter_m {X : Type} (cond : X -> M bool) (xs : list X) : M (list X) :=
  match xs with
  | [] => ret []
  | x :: xs' =>
      b <- cond x ;;
      rest <- filter_m cond xs' ;;
      ret (if b : bool then x :: rest else rest)
  end.

(** ** Conflict detector *)

(** The comprehension builds a new dictionary; its values are the list
    objects of [schedule] themselves, not copies. *)
Definition identify_conflicts (schedule : loc) : M loc :=
  items <- load_demand schedule ;;
  kept <- filter_m
            (fun item : Z * loc =>
               doctors <- load_names item.2 ;; ret (1 <? len doctors))
            items ;;
  alloc (ODemand (dict_comprehension fst snd kept)).

(** ** Schedule finaliser *)

(** [final_schedule[day] = v] *)
Definition final_set (final_schedule : loc) (day : Z) (v : option string)
  : M unit :=
  entries <- load_final final_schedule ;;
  store_at final_schedule (OFinal (dict_set entries day v)).

(** [final_schedule[day]] *)
Definition final_item (final_schedule : loc) (day : Z) : M (option string) :=
  entries <- load_final final_schedule ;;
  lift (dict_item entries day).

(** [len(final_schedule)] *)
Definition final_len (final_schedule : loc) : M Z :=
  entries <- load_final final_schedule ;; ret (len entries).

(** [doctor_shift_count[doctor] += 1] *)
Definition count_incr (doctor_shift_count : loc) (doctor : string) : M unit :=
  entries <- load_count doctor_shift_count ;;
  entries' <- lift (incr entries doctor) ;;
  store_at doctor_shift_count (OCount entries').

Section Finalize.
Variables (schedule resolved_schedule doctors : loc).
Variables (final_schedule doctor_shift_count : loc).

Definition seed_step (_ : unit) (item : Z * loc) : M unit :=
  let '(day, assigned_doctors) := item in
  resolved <- load_resolved resolved_schedule ;;
  if dict_mem resolved day then
    r <- lift (dict_item resolved day) ;;
    final_set final_schedule day (Some r) ;;;
    count_incr doctor_shift_count r
  else
    names <- load_names assigned_doctors ;;
    match names with
    | [a] =>
        final_set final_schedule day (Some a) ;;;
        count_incr doctor_shift_count a
    | _ => final_set final_schedule day None
    end.

Definition is_available (day : Z) (entry : string * Z) : M bool :=
  let '(doctor, count) := entry in
  roster <- load_roster doctors ;;
  record <- lift (dict_item roster doctor) ;;
  fields <- load_details record ;;
  let '(excluded, _, bound) := fields in
  if negb (shifts_left bound count) then ret false
  else
    excluded_days <- load_days excluded ;;
    if bool_decide (day ∈ excluded_days) then ret false
    else
      before <- (if day =? 1 then ret true
                 else v <- final_item final_schedule (day - 1) ;;
                      ret (slot_differs v doctor)) ;;
      if negb before then ret false
      else
        n <- final_len final_schedule ;;
        if day =? n then ret true
        else v <- final_item final_schedule (day + 1) ;;
             ret (slot_differs v doctor).

Definition fill_step (g : rng) (day : Z) : M rng :=
  v <- final_item final_schedule day ;;
  match v with
  | Some _ => ret g
  | None =>
      counts <- load_count doctor_shift_count ;;
      available <- filter_m (is_available day) counts ;;
      match available with
      | [] => ret g
      | _ =>
          pick <- lift (random_choice g available.*1) ;;
          let '(selected_doctor, g') := pick in
          final_set final_schedule day (Some selected_doctor) ;;;
          count_incr doctor_shift_count selected_doctor ;;;
          ret g'
      end
  end.

Definition cleanup_step (_ : unit) (day : Z) : M unit :=
  a <- final_item final_schedule day ;;
  b <- final_item final_schedule (day - 1) ;;
  if bool_decide (a = b) then final_set final_schedule day None else ret tt.

(** The three loops, once the two dictionaries exist. *)
Definition run_passes (g : rng) : M unit :=
  items <- load_demand schedule ;;
  for_each_m seed_step items tt ;;;
  n <- final_len final_schedule ;;
  for_each_m fill_step (py_range 1 (n + 1)) g ;;;
  n <- final_len final_schedule ;;
  for_each_m cleanup_step (py_range 2 n) tt.
End Finalize.

Definition finalize_schedule (schedule resolved_schedule doctors : loc)
    (g : rng) : M loc :=
  final_schedule <- alloc (OFinal []) ;;
  roster <- load_roster doctors ;;
  doctor_shift_count <-
    alloc (OCount (dict_comprehension fst (fun _ => 0) roster)) ;;
  run_passes schedule resolved_schedule doctors
    final_schedule doctor_shift_count g ;;;
  ret final_schedule.

(** ** Reading values off the store *)

Definition names_at (h : store) (l : loc) : option (list string) :=
  match h !! l with Some (ONames names) => Some names | _ => None end.

Definition days_at (h : store) (l : loc) : option (list Z) :=
  match h !! l with Some (ODays days) => Some days | _ => None end.

Definition details_at (h : store) (l : loc) : option details :=
  match h !! l with
  | Some (ODetails excluded wanted bound) =>
      ex ← days_at h excluded ;
      wa ← days_at h wanted ;
      Some {| excluded_days := ex; wanted_days := wa; num_shifts := bound |}
  | _ => None
  end.

(** The values behind the entries of a dictionary of references. *)
Definition entries_at {K V : Type} (read : loc -> option V) (entries : dict K loc)
  : option (dict K V) :=
  mapM (fun '(k, l) => v ← read l ; Some (k, v)) entries.

Definition demand_at (h : store) (l : loc) : option (dict Z (list string)) :=
  match h !! l with
  | Some (ODemand entries) => entries_at (names_at h) entries
  | _ => None
  end.

Definition roster_at (h : store) (l : loc) : option (dict string details) :=
  match h !! l with
  | Some (ORoster entries) => entries_at (details_at h) entries
  | _ => None
  end.

Definition resolved_at (h : store) (l : loc) : option (dict Z string) :=
  match h !! l with Some (OResolved entries) => Some entries | _ => None end.

Definition final_at (h : store) (l : loc) : option (dict Z (option string)) :=
  match h !! l with Some (OFinal entries) => Some entries | _ => None end.

(** ** Specifications of computations *)

(** From a store satisfying [P], the computation ends in a store and value
    satisfying [Q], or raises [e] in a store satisfying [E e]. *)
Definition triple {A : Type} (P : store -> Prop) (m : M A)
    (Q : A -> store -> Prop) (E : exn -> store -> Prop) : Prop :=
  forall h, P h ->
    match m h with
    | (Ok a, h') => Q a h'
    | (Raise e, h') => E e h'
    end.

(** A computation that keeps [P], whether it returns or raises. *)
Definition preserves {A : Type} (P : store -> Prop) (m : M A) : Prop :=
  triple P m (fun _ h => P h) (fun _ h => P h).

(** The store [h0] of the caller, followed by the two dictionaries that
    [finalize_schedule] creates. *)
Definition extended (h0 : store) (h : store) : Prop :=
  exists fs count, h = h0 ++ [OFinal fs; OCount count].

(** The store in which the two dictionaries of a value-level state follow
    the caller's objects. *)
Definition store_of (h0 : store) (st : fstate) : store :=
  h0 ++ [OFinal (final_schedule st); OCount (doctor_shift_count st)].

(** The store holds the state, and the random source is the state's. *)
Definition holds_state (h0 : store) (g : rng) (h : store) (st : fstate)
  : Prop :=
  h = store_of h0 st /\ rnd st = g.

(** A store-level outcome [out] simulates a value-level result [r]: both
    return, with values and store related by [rel], or both raise the same
    exception. *)
Definition sim {A B : Type} (rel : A -> store -> B -> Prop)
    (out : result A * store) (r : result B) : Prop :=
  match r with
  | Ok b => exists a h, out = (Ok a, h) /\ rel a h b
  | Raise e => out.1 = Raise e
  end.

End Heap.

(** * Vocabulary of the specification *)

(** The shape the specification gives to a holiday string: four digits, a
    hyphen, two digits, a hyphen, two digits. *)
Definition is_digit (c : ascii) : bool :=
  match digit_val c with Some _ => true | None => false end.

Definition is_iso_date (s : string) : bool :=
  match chars s with
  | [y1; y2; y3; y4; h1; m1; m2; h2; d1; d2] =>
      forallb is_digit [y1; y2; y3; y4; m1; m2; d1; d2]
      && bool_decide (h1 = hyphen) && bool_decide (h2 = hyphen)
  | _ => false
  end.

(** Doctor identifiers of the examples. *)
Definition doctor_A : string := "A".
Definition doctor_B : string := "B".

(** The roster of the first example of the specification. *)
Definition roster_one_shift : dict string details :=
  [(doctor_A, {| excluded_days := []; wanted_days := [1; 2];
                 num_shifts := Some 1 |})].

(** A roster in which doctor A both wants and excludes day 3, and its
    demand map for February 2024. *)
Definition roster_overlap : dict string details :=
  [(doctor_A, {| excluded_days := [3]; wanted_days := [5; 3; 40];
                 num_shifts := None |});
   (doctor_B, {| excluded_days := []; wanted_days := [5; 3];
                 num_shifts := Some 4 |})].

Definition demand_feb_2024 : dict Z (list string) :=
  Eval vm_compute in
    match generate_initial_schedule roster_overlap 2 2024 with
    | Ok schedule => schedule
    | Raise _ => []
    end.

(** The second example of the specification: two doctors without a bound
    who both want day 5, in a month of [n] days. *)
Definition roster_day_5 : dict string details :=
  [(doctor_A, {| excluded_days := []; wanted_days := [5]; num_shifts := None |});
   (doctor_B, {| excluded_days := []; wanted_days := [5]; num_shifts := None |})].

Definition demand_day_5 (n : Z) : dict Z (list string) :=
  (fun day => (day, if day =? 5 then [doctor_A; doctor_B] else []))
    <$> py_range 1 (n + 1).

(** The number of days a schedule gives to a doctor. *)
Definition count_days (fs : dict Z (option string)) (x : string) : Z :=
  len (filter (fun e => e.2 = Some x) fs).

(** What the seed pass puts on a day. *)
Definition seed_choice (resolved_schedule : dict Z string)
    (item : Z * list string) : option string :=
  if dict_mem resolved_schedule item.1 then dict_get resolved_schedule item.1
  else match item.2 with
       | [a] => Some a
       | _ => None
       end.

(** The number of days the seed pass gives to a doctor. *)
Definition seed_days (schedule : dict Z (list string))
    (resolved_schedule : dict Z string) (x : string) : Z :=
  len (filter (fun item => seed_choice resolved_schedule item = Some x) schedule).


(** Every doctor listed on a day has a roster entry that does not
    exclude the day. *)
Definition respects_exclusions (doctors : dict string details)
    (schedule : dict Z (list string)) : Prop :=
  forall day l doctor,
    (day, l) ∈ schedule -> doctor ∈ l ->
    exists det, (doctor, det) ∈ doctors /\ day ∉ excluded_days det.

(** Well-formed input of the finaliser: the days of the demand map are
    1..n in order, and the seed pass only meets doctors of the roster. *)
Definition days_1_to (schedule : dict Z (list string)) (n : Z) : Prop :=
  dict_keys schedule = py_range 1 (n + 1).

Definition seeds_in_roster (schedule : dict Z (list string))
    (resolved_schedule : dict Z string) (doctors : dict string details) : Prop :=
  forall item x,
    item ∈ schedule -> seed_choice resolved_schedule item = Some x ->
    x ∈ dict_keys doctors.

(** What the second and third loops keep: the days stay 1..n. *)
Definition has_days (n : Z) (fs : dict Z (option string)) : Prop :=
  dict_keys fs = py_range 1 (n + 1).

(** Day [day] holds [x] and the day before it does not. *)
Definition holds_alone (day : Z) (x : string) (fs : dict Z (option string))
  : Prop :=
  dict_get fs day = Some (Some x)
  /\ (day = 1 \/ exists v, dict_get fs (day - 1) = Some v /\ v <> Some x).

(** Day [day] does not repeat the doctor of the day before. *)
Definition differs_from_previous (day : Z) (fs : dict Z (option string))
  : Prop :=
  forall x, dict_get fs day = Some (Some x) ->
            dict_get fs (day - 1) <> Some (Some x).

(** The value-level functions, under names that the store-level ones of
    the same name do not hide. *)
Abbreviation value_seed_step := seed_step.
Abbreviation value_is_available := is_available.
Abbreviation value_fill_step := fill_step.
Abbreviation value_cleanup_step := cleanup_step.
Abbreviation value_finalize_schedule := finalize_schedule.

(** The schedule the seed pass builds on a demand map. *)
Definition seeded (schedule : dict Z (list string))
    (resolved_schedule : dict Z string) : dict Z (option string) :=
  dict_comprehension fst (seed_choice resolved_schedule) schedule.

(** Where the slot [v] of day [day] can come from, after the fill pass:
    it is the seed pass's slot [v0], or the seed pass left the day
    unassigned and the fill pass gave it to a doctor of the roster who does
    not exclude it. *)
Definition filled_from (doctors : dict string details) (day : Z)
    (v0 v : option string) : Prop :=
  v = v0
  \/ (v0 = None
      /\ exists x det, v = Some x /\ dict_get doctors x = Some det
                       /\ day ∉ excluded_days det).

(** Two consecutive days hold the same doctor only where the schedule
    [fs0] already does. *)
Definition repeats_only_as (fs0 fs : dict Z (option string)) : Prop :=
  forall day x,
    dict_get fs day = Some (Some x) -> dict_get fs (day + 1) = Some (Some x) ->
    dict_get fs0 day = Some (Some x) /\ dict_get fs0 (day + 1) = Some (Some x).

(** Every doctor in the schedule has an entry in the shift counter. *)
Definition all_counted (st : fstate) : Prop :=
  forall day x, (day, Some x) ∈ final_schedule st ->
                x ∈ dict_keys (doctor_shift_count st).

(** Demand maps of the examples below: doctor A alone on days 1 and 3; on
    days 1 and 2; and a map whose day 2 is missing. *)
Definition demand_1_3 : dict Z (list string) :=
  [(1, [doctor_A]); (2, []); (3, [doctor_A])].

Definition demand_1_2 : dict Z (list string) :=
  [(1, [doctor_A]); (2, [doctor_A])].

Definition demand_gap : dict Z (list string) :=
  [(1, [doctor_A]); (3, [doctor_A])].

(** The random source that always draws index 0. *)
Definition first_choice : rng := fun _ => 0%nat.

(** The doctors who want [day] and do not exclude it, in roster order; a
    doctor is listed once for each time [day] occurs among the wanted days
    that pass [validate_days]. *)
Definition wants_day (num_days day : Z) (det : details) : list Z :=
  filter (fun d => d = day /\ d ∉ excluded_days det)
    (validate_days (wanted_days det) num_days).

Definition wanting (doctors : dict string details) (num_days day : Z)
  : list string :=
  mjoin ((fun entry : string * details =>
            (fun _ => entry.1) <$> wants_day num_days day entry.2)
           <$> doctors).

(** The demand map as a table over the days 1..num_days. *)
Definition demand_table (doctors : dict string details) (num_days : Z)
  : dict Z (list string) :=
  (fun day => (day, wanting doctors num_days day)) <$> py_range 1 (num_days + 1).

(** The list of [day] while the loops run: [base day] followed by one
    [doctor] for each occurrence of [day] among the days [ws] that [det]
    does not exclude. *)
Definition with_days (base : Z -> list string) (doctor : string)
    (det : details) (ws : list Z) (day : Z) : list string :=
  base day ++ ((fun _ => doctor)
                 <$> filter (fun d => d = day /\ d ∉ excluded_days det) ws).

Definition day_table (num_days : Z) (f : Z -> list string)
  : dict Z (list string) :=
  (fun day => (day, f day)) <$> py_range 1 (num_days + 1).

(** A roster whose doctor wants day 0, which no month has. *)
Definition roster_day_0 : dict string details :=
  [(doctor_A, {| excluded_days := []; wanted_days := [2; 0];
                 num_shifts := None |})].

(** A string of ASCII characters. *)
Definition ascii_only (s : string) : Prop :=
  Forall (fun c => (nat_of_ascii c < 128)%nat) (chars s).

(** The number of hyphens of a string. *)
Definition count_hyphens (cs : list ascii) : nat :=
  length (filter (fun c => c = hyphen) cs).

(** The decimal digits of [fmt_d] read back as the number, for a number
    of four digits; and the same for [fmt_02d] as a month or a day. *)
Definition year_round_trip (y : Z) : bool :=
  match chars (fmt_d y) with
  | [a; b; c; d] => bool_decide (digits_val 0 [a; b; c; d] = Some y)
  | _ => false
  end.

Definition field_round_trip (n : Z) : bool :=
  match chars (fmt_02d n) with
  | [p; q] =>
      bool_decide (digits_val 0 [p; q] = Some n)
      && negb (bool_decide (p = space))
  | _ => false
  end.

(** A session state with a stale choice for day 5 and the results of an
    earlier run. *)
Definition session_after_run : dict string session_value :=
  [("selected_year"%string, VInt 2025);
   ("doctors"%string, VRoster roster_day_5);
   ("conflict_5"%string, VStr "C");
   ("initial_schedule"%string, VDemand []);
   ("final_schedule"%string, VFinal [])].

(** The index that [resolve_conflicts] passes to the widget of a day: the
    position of the stored choice among the candidates, or 0 for a day
    without a stored choice. *)
Definition preselected (session_state : dict string session_value)
    (item : Z * list string) : result Z :=
  match dict_get session_state (conflict_key item.1) with
  | None => _ <- first_item item.2 ;; Ok 0
  | Some v => index_of_value item.2 v
  end.

(** The resolution map holds, day by day, what the widget answered when
    it was shown the candidates with the preselected index. *)
Definition answers (selectbox : string -> list string -> Z -> string)
    (session_state : dict string session_value)
    (conflicts : dict Z (list string)) (resolved : dict Z string) : Prop :=
  Forall2
    (fun (item : Z * list string) (r : Z * string) =>
       r.1 = item.1
       /\ exists i, preselected session_state item = Ok i
                    /\ r.2 = selectbox (conflict_key item.1) item.2 i)
    conflicts resolved.

(** A widget that is left as it was preselected. *)
Definition untouched_selectbox (key : string) (options : list string)
    (index : Z) : string :=
  default ""%string (options !! Z.to_nat index).

(** What the widget library guarantees: the answer is one of the
    options. *)
Definition returns_an_option (selectbox : string -> list string -> Z -> string)
  : Prop :=
  forall key options index,
    0 <= index < len options -> selectbox key options index ∈ options.

(** What the form lets into the roster: a doctor with a name, without a
    day that is both wanted and excluded, and with a positive bound or
    none. *)
Definition form_roster (doctors : dict string details) : Prop :=
  forall name det,
    dict_get doctors name = Some det ->
    name <> ""%string
    /\ (forall day, day ∈ wanted_days det -> day ∉ excluded_days det)
    /\ match num_shifts det with Some n => 0 < n | None => True end.

(** The entry the form stores for a doctor. *)
Definition form_entry (excluded wanted : list Z) (shifts : Z) : details :=
  {| excluded_days := excluded; wanted_days := wanted;
     num_shifts := if 0 <? shifts then Some shifts else None |}.

(** The roster has no wanted day below 1. *)
Definition wanted_from_1 (doctors : dict string details) : Prop :=
  forall entry day, entry ∈ doctors -> day ∈ wanted_days entry.2 -> 1 <= day.

(** No day of the conflict map has a stored choice outside its
    candidates. *)
Definition no_stale_choice (session_state : dict string session_value)
    (conflicts : dict Z (list string)) : Prop :=
  forall item, item ∈ conflicts ->
    exists i, preselected session_state item = Ok i.

(** The keys under which the buttons store their results. *)
Definition result_keys : list string :=
  ["initial_schedule"; "conflicts"; "final_schedule"]%string.

(** The rows of the table for a final schedule with the days 1..n. *)
Definition expected_rows (year month n : Z) (fs : dict Z (option string))
  : list row :=
  (fun day => {| Date := day_cell (5 <=? weekday year month day) day;
                 Doctor := doctor_cell (dict_get fs day ≫= id) |})
    <$> py_range 1 (n + 1).

(** A session state before the first run, with the roster of the second
    example. *)
Definition session_with_roster : dict string session_value :=
  [("selected_year"%string, VInt 2024);
   ("selected_month"%string, VInt 2);
   ("doctors"%string, VRoster roster_overlap)].

(** The session state after "Generate Schedule" on that session, for
    February 2024. *)
Definition session_generated : dict string session_value :=
  Eval vm_compute in
    match generate_clicked session_with_roster 2 2024 first_choice with
    | Ok session_state => session_state
    | Raise _ => []
    end.

(** A session state with a final schedule for the first three days. *)
Definition final_3 : dict Z (option string) :=
  [(1, Some doctor_A); (2, None); (3, Some doctor_B)].

Definition session_final_3 : dict string session_value :=
  [("final_schedule"%string, VFinal final_3)].

(** A store for the first example: the demand map at location 3, the
    empty resolution map at 4 and the roster at 8. *)
Definition example_store : list Heap.obj :=
  [Heap.ONames [doctor_A]; Heap.ONames [doctor_A]; Heap.ONames [];
   Heap.ODemand [(1, 0%nat); (2, 1%nat); (3, 2%nat)];
   Heap.OResolved [];
   Heap.ODays []; Heap.ODays [1; 2];
   Heap.ODetails 5%nat 6%nat (Some 1);
   Heap.ORoster [(doctor_A, 7%nat)]].

(** A day of the demand map with more than one candidate. *)
Definition crowded (h : list Heap.obj) (item : Z * nat) : bool :=
  match Heap.names_at h item.2 with
  | Some names => 1 <? len names
  | None => false
  end.

(** A store with a demand map at location 3 whose day 1 has two
    candidates. *)
Definition conflict_store : list Heap.obj :=
  [Heap.ONames [doctor_A; doctor_B]; Heap.ONames [doctor_A]; Heap.ONames [];
   Heap.ODemand [(1, 0%nat); (2, 1%nat); (3, 2%nat)]].
(** * Properties *)

(** ** Loops and comprehensions *)

Lemma rbind_ok {A B : Type} (m : result A) (k : A -> result B) (b : B) :
  rbind m k = Ok b -> exists a, m = Ok a /\ k a = Ok b.
Proof. destruct m as [a|e]; simpl; [eauto | discriminate]. Qed.

Lemma for_each_cons {S X : Type} (body : S -> X -> result S) x xs s :
  for_each body (x :: xs) s = (s' <- body s x ;; for_each body xs s').
Proof. reflexivity. Qed.

(** A loop invariant is kept by a loop that does not raise. *)
Lemma for_each_inv {S X : Type} (P : S -> Prop) (body : S -> X -> result S)
    (xs : list X) :
  (forall s x s', x ∈ xs -> P s -> body s x = Ok s' -> P s') ->
  forall s s', P s -> for_each body xs s = Ok s' -> P s'.
Proof.
  induction xs as [|x xs IH]; intros Hbody s s' Hs Hrun; simpl in Hrun.
  - by inversion Hrun; subst.
  - apply rbind_ok in Hrun as (s1 & H1 & H2).
    eapply IH; [ | | exact H2].
    + intros ? ? ? Hin. apply Hbody. by right.
    + eapply Hbody; [by left | exact Hs | exact H1].
Qed.

(** A loop whose body never raises under the invariant returns. *)
Lemma for_each_total {S X : Type} (P : S -> Prop) (body : S -> X -> result S)
    (xs : list X) :
  (forall s x, x ∈ xs -> P s -> exists s', body s x = Ok s' /\ P s') ->
  forall s, P s -> exists s', for_each body xs s = Ok s' /\ P s'.
Proof.
  induction xs as [|x xs IH]; intros Hbody s Hs; simpl.
  - eauto.
  - destruct (Hbody s x) as (s1 & H1 & HP1); [by left | done |].
    rewrite H1. simpl. apply IH; [ | done].
    intros ? ? Hin. apply Hbody. by right.
Qed.

Lemma for_each_app {S X : Type} (body : S -> X -> result S) (xs ys : list X) s :
  for_each body (xs ++ ys) s = (s' <- for_each body xs s ;; for_each body ys s').
Proof.
  revert s. induction xs as [|x xs IH]; intros s; simpl; [done |].
  destruct (body s x); simpl; [apply IH | done].
Qed.

Lemma filter_raising_ok {X : Type} (cond : X -> result bool) (xs ys : list X) :
  filter_raising cond xs = Ok ys ->
  forall y, y ∈ ys -> y ∈ xs /\ cond y = Ok true.
Proof.
  revert ys. induction xs as [|x xs IH]; intros ys H y Hy; simpl in H.
  - inversion H; subst. by apply elem_of_nil in Hy.
  - apply rbind_ok in H as (b & Hb & H).
    apply rbind_ok in H as (rest & Hrest & H).
    inversion H; subst; clear H.
    destruct b.
    + apply elem_of_cons in Hy as [-> | Hy].
      * split; [by left | done].
      * destruct (IH _ Hrest _ Hy). split; [by right | done].
    + destruct (IH _ Hrest _ Hy). split; [by right | done].
Qed.

Lemma filter_raising_total {X : Type} (cond : X -> result bool) (xs : list X) :
  (forall x, x ∈ xs -> exists b, cond x = Ok b) ->
  exists ys, filter_raising cond xs = Ok ys.
Proof.
  induction xs as [|x xs IH]; intros H; simpl; [eauto |].
  destruct (H x) as [b ->]; [by left |]. simpl.
  destruct IH as [ys ->]; [intros; apply H; by right |]. simpl. eauto.
Qed.

Lemma random_choice_elem {A : Type} (g g' : rng) (xs : list A) (x : A) :
  random_choice g xs = Ok (x, g') -> x ∈ xs /\ g' = rng_tail g.
Proof.
  unfold random_choice. destruct (xs !! _) as [y|] eqn:E; [ | discriminate].
  intros H; inversion H; subst. split; [ | done].
  eapply list_elem_of_lookup_2, E.
Qed.

Lemma random_choice_total {A : Type} (g : rng) (xs : list A) :
  xs <> [] -> exists x, random_choice g xs = Ok (x, rng_tail g).
Proof.
  intros Hne. unfold random_choice.
  destruct (xs !! _) as [y|] eqn:E; [eauto |].
  apply lookup_ge_None in E. destruct xs as [|x xs]; [done |].
  pose proof (Nat.mod_upper_bound (g 0%nat) (length (x :: xs))) as Hlt.
  simpl in *. lia.
Qed.

(** ** Dictionaries *)

Section DictFacts.
Context {K V : Type} `{EqDecision K}.
Implicit Types (d : dict K V) (k : K) (v : V).

Lemma dict_get_set_eq d k v : dict_get (dict_set d k v) k = Some v.
Proof.
  induction d as [|[k' v'] d IH]; simpl.
  - by rewrite decide_True.
  - destruct (decide (k = k')) as [->|Hne]; simpl.
    + by rewrite decide_True.
    + by rewrite decide_False.
Qed.

Lemma dict_get_set_ne d k k' v :
  k <> k' -> dict_get (dict_set d k v) k' = dict_get d k'.
Proof.
  intros Hne. induction d as [|[k0 v0] d IH]; simpl.
  - by rewrite decide_False.
  - destruct (decide (k = k0)) as [->|Hne0]; simpl.
    + by rewrite !decide_False by done.
    + destruct (decide (k' = k0)); [done | apply IH].
Qed.

Lemma dict_get_set d k k' v :
  dict_get (dict_set d k v) k' = if decide (k = k') then Some v else dict_get d k'.
Proof.
  destruct (decide (k = k')) as [->|Hne];
    [apply dict_get_set_eq | by apply dict_get_set_ne].
Qed.

Lemma dict_get_Some_elem d k v : dict_get d k = Some v -> (k, v) ∈ d.
Proof.
  induction d as [|[k' v'] d IH]; simpl; [done |].
  destruct (decide (k = k')) as [->|Hne].
  - intros H; inversion H; subst. by left.
  - intros H. right. by apply IH.
Qed.

Lemma dict_get_None_keys d k : dict_get d k = None <-> k ∉ dict_keys d.
Proof.
  unfold dict_keys. induction d as [|[k' v'] d IH]; simpl.
  - split; [intros _; apply not_elem_of_nil | done].
  - rewrite not_elem_of_cons. destruct (decide (k = k')) as [->|Hne].
    + split; [done | intros [? _]; done].
    + rewrite IH. tauto.
Qed.

Lemma dict_get_is_Some_keys d k : is_Some (dict_get d k) <-> k ∈ dict_keys d.
Proof.
  destruct (dict_get d k) eqn:E.
  - split; [intros _ | eauto].
    destruct (decide (k ∈ dict_keys d)) as [|Hn]; [done |].
    apply dict_get_None_keys in Hn. congruence.
  - apply dict_get_None_keys in E. split; [intros [? ?]; done | done].
Qed.

(** Assigning to a key that is present changes no key. *)
Lemma dict_keys_set_present d k v :
  k ∈ dict_keys d -> dict_keys (dict_set d k v) = dict_keys d.
Proof.
  unfold dict_keys. induction d as [|[k' v'] d IH]; simpl.
  - intros H. by apply elem_of_nil in H.
  - intros H. destruct (decide (k = k')) as [->|Hne]; simpl; [done |].
    f_equal. apply IH. apply elem_of_cons in H as [? | ?]; done.
Qed.

(** Assigning to a new key appends it. *)
Lemma dict_set_absent d k v : k ∉ dict_keys d -> dict_set d k v = d ++ [(k, v)].
Proof.
  unfold dict_keys. induction d as [|[k' v'] d IH]; simpl; [done |].
  intros H. apply not_elem_of_cons in H as [Hne Hnin].
  rewrite decide_False by done. f_equal. by apply IH.
Qed.

Lemma dict_set_length_present d k v :
  k ∈ dict_keys d -> length (dict_set d k v) = length d.
Proof.
  intros H. apply dict_keys_set_present with (v := v) in H.
  unfold dict_keys in H.
  by rewrite <- (length_fmap fst (dict_set d k v)), H, length_fmap.
Qed.

Lemma dict_elem_get d k v : dict_wf d -> (k, v) ∈ d -> dict_get d k = Some v.
Proof.
  unfold dict_wf, dict_keys. induction d as [|[k' v'] d IH]; simpl.
  - intros _ H. by apply elem_of_nil in H.
  - intros Hnd H. apply NoDup_cons in Hnd as [Hnin Hnd].
    apply elem_of_cons in H as [Heq | Hin].
    + inversion Heq; subst. by rewrite decide_True.
    + destruct (decide (k = k')) as [->|Hne]; [ | by apply IH].
      exfalso. apply Hnin. apply list_elem_of_fmap. by exists (k', v).
Qed.

(** An entry after an assignment is the new one or an old one. *)
Lemma dict_set_elem d k v k' v' :
  (k', v') ∈ dict_set d k v -> (k', v') ∈ d \/ (k' = k /\ v' = v).
Proof.
  induction d as [|[k0 v0] d IH]; simpl.
  - intros H. apply list_elem_of_singleton in H. inversion H; subst. by right.
  - destruct (decide (k = k0)) as [->|Hne]; intros H;
      apply elem_of_cons in H as [Heq | Hin].
    + inversion Heq; subst. by right.
    + left. by right.
    + left. rewrite Heq. by left.
    + destruct (IH Hin) as [? | ?]; [left; by right | by right].
Qed.

Lemma dict_item_ok d k v : dict_item d k = Ok v <-> dict_get d k = Some v.
Proof.
  unfold dict_item. destruct (dict_get d k);
    split; intros H; inversion H; done.
Qed.

Lemma dict_item_raise d k e : dict_item d k = Raise e -> e = KeyError.
Proof.
  unfold dict_item. destruct (dict_get d k); intros H; inversion H; done.
Qed.
End DictFacts.

Lemma dict_comprehension_snoc {X K V : Type} `{EqDecision K}
    (key : X -> K) (val : X -> V) (xs : list X) (x : X) :
  dict_comprehension key val (xs ++ [x])
  = dict_set (dict_comprehension key val xs) (key x) (val x).
Proof. unfold dict_comprehension. by rewrite fold_left_app. Qed.

Lemma dict_comprehension_keys {X K V : Type} `{EqDecision K}
    (key : X -> K) (val : X -> V) (xs : list X) (k : K) :
  k ∈ dict_keys (dict_comprehension key val xs) <-> k ∈ key <$> xs.
Proof.
  induction xs as [|x xs IH] using rev_ind.
  - simpl. split; intros H; by apply elem_of_nil in H.
  - rewrite dict_comprehension_snoc, fmap_app, elem_of_app. simpl.
    rewrite list_elem_of_singleton, <- IH, <- !dict_get_is_Some_keys.
    rewrite dict_get_set. destruct (decide (key x = k)) as [->|Hne].
    + split; [by right | eauto].
    + split; [by left | intros [? | ?]; [done | congruence]].
Qed.

(** Every value of a comprehension is one of the values put in it. *)
Lemma dict_comprehension_get {X K V : Type} `{EqDecision K}
    (key : X -> K) (val : X -> V) (xs : list X) (k : K) (v : V) :
  dict_get (dict_comprehension key val xs) k = Some v ->
  exists x, x ∈ xs /\ key x = k /\ val x = v.
Proof.
  induction xs as [|x xs IH] using rev_ind; [done |].
  rewrite dict_comprehension_snoc, dict_get_set.
  destruct (decide (key x = k)) as [<-|Hne].
  - intros H; inversion H; subst. exists x. rewrite elem_of_app.
    split; [right; by left | done].
  - intros H. destruct (IH H) as (y & Hy & ? & ?). exists y.
    rewrite elem_of_app. eauto.
Qed.

(** With distinct keys a comprehension is a plain map. *)
Lemma dict_comprehension_NoDup {X K V : Type} `{EqDecision K}
    (key : X -> K) (val : X -> V) (xs : list X) :
  NoDup (key <$> xs) ->
  dict_comprehension key val xs = (fun x => (key x, val x)) <$> xs.
Proof.
  induction xs as [|x xs IH] using rev_ind; [done |].
  rewrite fmap_app, NoDup_app. intros (Hnd & Hdisj & _).
  rewrite dict_comprehension_snoc, fmap_app, IH by done. simpl.
  apply dict_set_absent. unfold dict_keys.
  rewrite <- list_fmap_compose. intros Hin.
  apply (Hdisj (key x)); [exact Hin | by left].
Qed.

(** ** Holiday calculator and annotator *)

(** Every entry of the table already carries its month. *)
Lemma public_holidays_entries :
  Forall (fun '(month, days) =>
            Forall (fun day => exists dd : string,
                                 day = (fmt_02d month +:+ "-" +:+ dd)%string
                                 /\ String.length dd = 2%nat) days)
         public_holidays.
Proof.
  unfold public_holidays.
  repeat first [ apply Forall_nil | apply Forall_cons; split ];
    first
      [ exact I
      | match goal with
        | |- exists dd, ?day = _ /\ _ =>
            exists (String.substring 3 2 day); split; vm_compute; reflexivity
        end ].
Qed.

(** What [get_public_holidays] returns for any year: the year, the
    two-digit month, and then the table entry, which repeats the month. *)
Lemma get_public_holidays_shape (year : Z) (s : string) :
  s ∈ get_public_holidays year ->
  exists (month : Z) (dd : string),
    String.length dd = 2%nat /\
    1 <= month <= 12 /\
    s = (fmt_d year +:+ "-" +:+ fmt_02d month +:+ "-"
         +:+ fmt_02d month +:+ "-" +:+ dd)%string.
Proof.
  unfold get_public_holidays. rewrite list_elem_of_join.
  intros (l & Hs & Hl). apply list_elem_of_fmap in Hl as ([month days] & -> & Hin).
  apply list_elem_of_fmap in Hs as (day & -> & Hday).
  pose proof public_holidays_entries as Hall.
  rewrite Forall_forall in Hall. specialize (Hall _ Hin). simpl in Hall.
  rewrite Forall_forall in Hall. destruct (Hall _ Hday) as (dd & -> & Hlen).
  exists month, dd. split; [done |]. split; [ | done].
  unfold public_holidays in Hin.
  repeat (apply elem_of_cons in Hin as [Heq | Hin];
          [inversion Heq; subst; lia |]).
  by apply elem_of_nil in Hin.
Qed.

(** C3: on the date string "2025-01-01" with the holidays of 2025 the
    annotator returns [False], not [True]: the holiday list holds
    "2025-01-01-01" (the table entry "01-01" is appended after the month),
    so the membership test fails, and 1 January 2025 is a Wednesday. *)
Theorem new_year_2025_not_flagged :
  get_public_holidays 2025 =
    ["2025-01-01-01"; "2025-01-01-06"; "2025-04-04-01"; "2025-05-05-01";
     "2025-05-05-08"; "2025-07-07-05"; "2025-08-08-29"; "2025-09-09-01";
     "2025-09-09-15"; "2025-11-11-01"; "2025-11-11-17"; "2025-12-12-24";
     "2025-12-12-25"; "2025-12-12-26"]%string
  /\ strptime "2025-01-01" = Ok (2025, 1, 1)
  /\ weekday 2025 1 1 = 2
  /\ is_weekend_or_holiday "2025-01-01" (get_public_holidays 2025) = Ok false.
Proof. repeat split; vm_compute; reflexivity. Qed.

(** C7: no element of [get_public_holidays 2025] has the format
    YYYY-MM-DD: each one is the year, the month, and the table entry, which
    is itself month and day, so it reads YYYY-MM-MM-DD and is thirteen
    characters long. *)
Theorem holidays_2025_not_iso_dates :
  Forall (fun s => is_iso_date s = false /\ String.length s = 13%nat)
         (get_public_holidays 2025)
  /\ get_public_holidays 2025 <> [].
Proof.
  split; [ | vm_compute; discriminate].
  apply Forall_forall. intros s Hs.
  vm_compute in Hs.
  repeat (apply elem_of_cons in Hs as [-> | Hs]; [split; reflexivity |]).
  by apply elem_of_nil in Hs.
Qed.

Lemma chars_app (a b : string) : chars (a +:+ b) = chars a ++ chars b.
Proof.
  unfold chars. induction a as [|c a IH]; simpl; [done | by rewrite IH].
Qed.

Lemma is_iso_date_length (s : string) :
  is_iso_date s = true -> length (chars s) = 10%nat.
Proof.
  unfold is_iso_date.
  destruct (chars s) as [|? [|? [|? [|? [|? [|? [|? [|? [|? [|? [|? ?]]]]]]]]]]];
    done.
Qed.

(** For no year at all does the list hold a string of the form
    YYYY-MM-DD: the repeated month makes every element nine characters
    longer than its year. *)
Lemma holidays_never_iso_dates (year : Z) (s : string) :
  s ∈ get_public_holidays year -> is_iso_date s = false.
Proof.
  intros Hs. apply get_public_holidays_shape in Hs
    as (month & dd & Hdd & Hmonth & ->).
  destruct (is_iso_date _) eqn:Hiso; [exfalso | done].
  pose proof (is_iso_date_length _ Hiso) as Hlen.
  unfold is_iso_date in Hiso. rewrite !chars_app in Hiso, Hlen.
  assert (exists m1 m2, chars (fmt_02d month) = [m1; m2]) as (m1 & m2 & Hm).
  { assert (month = 1 \/ month = 2 \/ month = 3 \/ month = 4 \/ month = 5
            \/ month = 6 \/ month = 7 \/ month = 8 \/ month = 9
            \/ month = 10 \/ month = 11 \/ month = 12) as Hcases by lia.
    repeat destruct Hcases as [-> | Hcases]; try subst month;
      vm_compute; eauto. }
  assert (exists d1 d2, chars dd = [d1; d2]) as (d1 & d2 & Hd).
  { destruct dd as [|d1 [|d2 [|]]]; try done. vm_compute. eauto. }
  rewrite Hm, Hd in Hiso, Hlen. rewrite !length_app in Hlen. simpl in Hlen.
  destruct (chars (fmt_d year)) as [|c [|]]; simpl in Hlen; try lia.
  simpl in Hiso. by destruct (is_digit c).
Qed.

(** ** Demand builder *)

Section Demand.
Variable doctors : dict string details.

Lemma empty_schedule_respects (days : list Z) :
  respects_exclusions doctors
    (dict_comprehension (fun day => day) (fun _ => @nil string) days).
Proof.
  intros day l doctor Hin Hdoc. exfalso.
  assert (l = []) as ->; [ | by apply elem_of_nil in Hdoc].
  clear Hdoc. induction days as [|d days IH] using rev_ind.
  - by apply elem_of_nil in Hin.
  - rewrite dict_comprehension_snoc in Hin.
    apply dict_set_elem in Hin as [Hin | [_ ->]]; [by apply IH | done].
Qed.

Lemma append_doctor_respects schedule schedule' day doctor det :
  (doctor, det) ∈ doctors ->
  day ∉ excluded_days det ->
  respects_exclusions doctors schedule ->
  append_doctor schedule day doctor = Ok schedule' ->
  respects_exclusions doctors schedule'.
Proof.
  intros Hdet Hday Hinv Happ day' l' doctor' Hin Hdoc.
  unfold append_doctor in Happ. apply rbind_ok in Happ as (l & Hl & Happ).
  inversion Happ; subst; clear Happ. apply dict_item_ok in Hl.
  apply dict_set_elem in Hin as [Hin | [-> ->]]; [by eapply Hinv |].
  apply elem_of_app in Hdoc as [Hdoc | Hdoc].
  - eapply Hinv; [by apply dict_get_Some_elem | done].
  - apply list_elem_of_singleton in Hdoc as ->. eauto.
Qed.

Lemma add_wanted_days_respects num_days schedule schedule' entry :
  entry ∈ doctors ->
  respects_exclusions doctors schedule ->
  add_wanted_days num_days schedule entry = Ok schedule' ->
  respects_exclusions doctors schedule'.
Proof.
  destruct entry as [doctor det]. intros Hentry Hinv. unfold add_wanted_days.
  apply for_each_inv; [ | done].
  intros s day s' _ Hs. case_bool_decide as Hex.
  - intros H; inversion H; by subst.
  - by apply (append_doctor_respects _ _ _ _ det).
Qed.

Lemma build_schedule_respects num_days schedule :
  build_schedule doctors num_days = Ok schedule ->
  respects_exclusions doctors schedule.
Proof.
  unfold build_schedule.
  apply (for_each_inv (respects_exclusions doctors)); [ | apply empty_schedule_respects].
  intros s entry s' Hentry Hs. by apply add_wanted_days_respects.
Qed.
End Demand.

(** The builder returns whenever no wanted day is below 1: every wanted
    day that passes [validate_days] is then a key of the schedule. *)
Lemma build_schedule_total (doctors : dict string details) (num_days : Z) :
  (forall entry day, entry ∈ doctors -> day ∈ wanted_days entry.2 -> 1 <= day) ->
  exists schedule,
    build_schedule doctors num_days = Ok schedule
    /\ dict_keys schedule = py_range 1 (num_days + 1).
Proof.
  intros Hwanted. unfold build_schedule.
  apply (for_each_total
           (fun s : dict Z (list string) =>
              dict_keys s = py_range 1 (num_days + 1))).
  - intros s [doctor det] Hentry Hkeys. unfold add_wanted_days.
    apply (for_each_total
             (fun s : dict Z (list string) =>
                dict_keys s = py_range 1 (num_days + 1))); [ | done].
    intros s' day Hday Hkeys'. case_bool_decide; [eauto |].
    apply list_elem_of_filter in Hday as [Hle Hin].
    assert (day ∈ dict_keys s') as Hk.
    { rewrite Hkeys'. apply elem_of_seqZ.
      pose proof (Hwanted _ _ Hentry Hin). simpl in *. lia. }
    unfold append_doctor, dict_item.
    destruct (proj2 (dict_get_is_Some_keys s' day) Hk) as [l ->]. simpl.
    eexists. split; [done |]. by rewrite dict_keys_set_present.
  - rewrite dict_comprehension_NoDup by (rewrite list_fmap_id; apply NoDup_seqZ).
    unfold dict_keys. rewrite <- list_fmap_compose. apply list_fmap_id.
Qed.

(** C4: in the demand map that [generate_initial_schedule] builds, no
    doctor is listed on a day of that doctor's [excluded_days], for every
    roster and for every length [num_days] of the month, whatever the
    month and the year it was computed from; a day that is both wanted and
    excluded is left out. *)
Theorem demand_never_on_excluded_day
    (doctors : dict string details) (num_days : Z)
    (schedule : dict Z (list string)) :
  dict_wf doctors ->
  build_schedule doctors num_days = Ok schedule ->
  forall day l doctor det,
    (day, l) ∈ schedule ->
    dict_get doctors doctor = Some det ->
    day ∈ excluded_days det ->
    doctor ∉ l.
Proof.
  intros Hwf Hbuild day l doctor det Hin Hdet Hex Hdoc.
  apply build_schedule_respects in Hbuild.
  destruct (Hbuild _ _ _ Hin Hdoc) as (det' & Hdet' & Hnex).
  apply (dict_elem_get _ _ _ Hwf) in Hdet'. congruence.
Qed.

Lemma demand_never_on_excluded_day_witness :
  "A"%string ∉ ["B"%string].
Proof.
  apply (demand_never_on_excluded_day roster_overlap 29 demand_feb_2024)
    with (day := 3)
         (det := {| excluded_days := [3]; wanted_days := [5; 3; 40];
                    num_shifts := None |}).
  - apply (bool_decide_unpack _). vm_compute. exact I.
  - vm_compute. reflexivity.
  - apply (bool_decide_unpack _). vm_compute. exact I.
  - reflexivity.
  - left.
Defined.
(** ** Worked examples of the finaliser *)

(** C5: with the roster {A: wanted [1,2], no excluded day, at most one
    shift}, the demand {1:[A], 2:[A], 3:[]} and no resolution, the seed
    pass gives days 1 and 2 to A without looking at the bound, the fill
    pass finds nobody for day 3, the cleanup pass unassigns day 2, and the
    result is {1: A, 2: None, 3: None} whatever the random source. *)
Theorem example_seed_then_cleanup (g : rng) :
  let schedule := [(1, [doctor_A]); (2, [doctor_A]); (3, [])] in
  (exists st,
      seed_pass schedule [] roster_one_shift g = Ok st
      /\ final_schedule st = [(1, Some doctor_A); (2, Some doctor_A); (3, None)]
      /\ doctor_shift_count st = [(doctor_A, 2)]
      /\ fill_pass roster_one_shift st = Ok st)
  /\ finalize_schedule schedule [] roster_one_shift g
     = Ok [(1, Some doctor_A); (2, None); (3, None)].
Proof.
  split; [ | reflexivity].
  eexists. split; [reflexivity |]. repeat split.
Qed.

(** C2: for the demand {1:[A], 2:[A]} the result keeps A on both day 1 and
    day 2. The cleanup loop runs over [range(2, len(final_schedule))],
    which is empty for two days and never reaches the last day. *)
Theorem last_day_keeps_consecutive_doctor (g : rng) :
  py_range 2 (len [(1, Some doctor_A); (2, Some doctor_A)]) = []
  /\ finalize_schedule [(1, [doctor_A]); (2, [doctor_A])] [] roster_one_shift g
     = Ok [(1, Some doctor_A); (2, Some doctor_A)].
Proof. split; reflexivity. Qed.

(** The same on a month of three days: days 2 and 3 both keep A. *)
Lemma three_days_keep_consecutive_doctor (g : rng) :
  finalize_schedule [(1, []); (2, [doctor_A]); (3, [doctor_A])] []
    roster_one_shift g
  = Ok [(1, None); (2, Some doctor_A); (3, Some doctor_A)].
Proof. reflexivity. Qed.


(** ** Unknown doctors in the resolution map *)

Lemma incr_ok (count count' : dict string Z) (doctor : string) :
  incr count doctor = Ok count' ->
  exists c, dict_get count doctor = Some c
            /\ count' = dict_set count doctor (c + 1).
Proof.
  unfold incr. intros H. apply rbind_ok in H as (c & Hc & H).
  apply dict_item_ok in Hc. inversion H; subst. eauto.
Qed.

Lemma incr_raise (count : dict string Z) (doctor : string) (e : exn) :
  incr count doctor = Raise e -> e = KeyError /\ dict_get count doctor = None.
Proof.
  unfold incr, dict_item. destruct (dict_get count doctor); simpl;
    intros H; inversion H; done.
Qed.

Lemma incr_total (count : dict string Z) (doctor : string) :
  doctor ∈ dict_keys count ->
  exists count', incr count doctor = Ok count'.
Proof.
  intros H. apply dict_get_is_Some_keys in H as [c Hc].
  unfold incr, dict_item. rewrite Hc. simpl. eauto.
Qed.

(** Counting never adds or removes a doctor. *)
Lemma incr_keys (count count' : dict string Z) (doctor : string) :
  incr count doctor = Ok count' -> dict_keys count' = dict_keys count.
Proof.
  intros H. apply incr_ok in H as (c & Hc & ->).
  apply dict_keys_set_present, dict_get_is_Some_keys. eauto.
Qed.

(** The seed step raises nothing but [KeyError]. *)
Lemma seed_step_raise resolved_schedule st item e :
  seed_step resolved_schedule st item = Raise e -> e = KeyError.
Proof.
  destruct item as [day assigned]. unfold seed_step.
  destruct (dict_mem resolved_schedule day).
  - destruct (dict_item resolved_schedule day) as [r|e'] eqn:Hr; simpl.
    + destruct (incr _ r) eqn:Hi; simpl; [discriminate |].
      intros H; inversion H; subst. by apply incr_raise in Hi as [? _].
    + intros H; inversion H; subst. by apply dict_item_raise in Hr.
  - destruct assigned as [|a [|]]; try discriminate.
    destruct (incr _ a) eqn:Hi; simpl; [discriminate |].
    intros H; inversion H; subst. by apply incr_raise in Hi as [? _].
Qed.

Lemma seed_step_keys resolved_schedule st st' item :
  seed_step resolved_schedule st item = Ok st' ->
  dict_keys (doctor_shift_count st') = dict_keys (doctor_shift_count st)
  /\ rnd st' = rnd st.
Proof.
  destruct item as [day assigned]. unfold seed_step.
  destruct (dict_mem resolved_schedule day).
  - intros H. apply rbind_ok in H as (r & _ & H).
    apply rbind_ok in H as (c & Hc & H). inversion H; subst; simpl.
    split; [by eapply incr_keys | done].
  - destruct assigned as [|a [|]].
    + intros H; inversion H; subst; done.
    + intros H. apply rbind_ok in H as (c & Hc & H). inversion H; subst; simpl.
      split; [by eapply incr_keys | done].
    + intros H; inversion H; subst; done.
Qed.

(** A resolved day whose doctor is not counted stops the seed loop. *)
Lemma seed_loop_unknown_doctor resolved_schedule day r schedule st :
  day ∈ dict_keys schedule ->
  dict_get resolved_schedule day = Some r ->
  r ∉ dict_keys (doctor_shift_count st) ->
  for_each (seed_step resolved_schedule) schedule st = Raise KeyError.
Proof.
  intros Hday Hr. revert st.
  induction schedule as [|[day' assigned] schedule IH]; intros st Hcount.
  - by apply elem_of_nil in Hday.
  - rewrite for_each_cons.
    destruct (seed_step resolved_schedule st (day', assigned))
      as [st'|e] eqn:Hstep; cbn [rbind].
    + apply seed_step_keys in Hstep as Hkeys. destruct Hkeys as [Hkeys _].
      destruct (decide (day = day')) as [<-|Hne].
      * exfalso. unfold seed_step, dict_mem, dict_item in Hstep.
        rewrite Hr in Hstep. simpl in Hstep.
        apply rbind_ok in Hstep as (c & Hc & _).
        apply incr_keys in Hc as Hk. apply incr_ok in Hc as (n & Hn & _).
        apply Hcount, dict_get_is_Some_keys. eauto.
      * apply IH; [ | by rewrite Hkeys].
        unfold dict_keys in Hday. simpl in Hday.
        by apply elem_of_cons in Hday as [? | ?].
    + by apply seed_step_raise in Hstep as ->.
Qed.

(** C10: when the resolution map gives a day of the demand map to a
    doctor who is not a key of the roster, [finalize_schedule] raises
    [KeyError] (from the increment of the shift counter in the first loop)
    and returns no schedule. *)
Theorem unknown_resolved_doctor_raises
    (schedule : dict Z (list string)) (resolved_schedule : dict Z string)
    (doctors : dict string details) (g : rng) (day : Z) (r : string) :
  day ∈ dict_keys schedule ->
  dict_get resolved_schedule day = Some r ->
  r ∉ dict_keys doctors ->
  finalize_schedule schedule resolved_schedule doctors g = Raise KeyError.
Proof.
  intros Hday Hr Hunknown. unfold finalize_schedule, seed_pass.
  rewrite (seed_loop_unknown_doctor resolved_schedule day r); try done.
  simpl. rewrite dict_comprehension_keys. unfold dict_keys in Hunknown. done.
Qed.

Lemma unknown_resolved_doctor_raises_witness :
  finalize_schedule [(1, [doctor_A]); (2, [doctor_A]); (3, [])]
                    [(2, "Z"%string)] roster_one_shift (fun _ => 0%nat)
  = Raise KeyError.
Proof.
  apply (unknown_resolved_doctor_raises _ _ _ _ 2 "Z"%string).
  - vm_compute. right. left.
  - reflexivity.
  - vm_compute. intros H. apply elem_of_cons in H as [H | H];
      [discriminate | by apply elem_of_nil in H].
Defined.

(** ** The three passes of the finaliser, step by step *)

Lemma elem_of_py_range (a b d : Z) : d ∈ py_range a b <-> a <= d < b.
Proof. unfold py_range. rewrite elem_of_seqZ. lia. Qed.

Lemma py_range_NoDup (a b : Z) : NoDup (py_range a b).
Proof. apply NoDup_seqZ. Qed.

Lemma py_range_length (a b : Z) : a <= b -> len (py_range a b) = b - a.
Proof. intros H. unfold len, py_range. rewrite length_seqZ. lia. Qed.

Lemma len_keys {K V : Type} (d : dict K V) : len (dict_keys d) = len d.
Proof. unfold len, dict_keys. by rewrite length_fmap. Qed.

Lemma dict_set_wf {K V : Type} `{EqDecision K} (d : dict K V) k v :
  dict_wf d -> dict_wf (dict_set d k v).
Proof.
  intros Hwf. destruct (decide (k ∈ dict_keys d)) as [Hin | Hnin].
  - unfold dict_wf. by rewrite dict_keys_set_present.
  - rewrite dict_set_absent by done. unfold dict_wf, dict_keys in *.
    rewrite fmap_app. apply NoDup_app. split; [done |]. split.
    + intros x Hx Hx'. apply list_elem_of_singleton in Hx'. by subst.
    + apply NoDup_singleton.
Qed.

Lemma dict_comprehension_wf {X K V : Type} `{EqDecision K}
    (key : X -> K) (val : X -> V) (xs : list X) :
  dict_wf (dict_comprehension key val xs).
Proof.
  induction xs as [|x xs IH] using rev_ind.
  - apply NoDup_nil_2.
  - rewrite dict_comprehension_snoc. by apply dict_set_wf.
Qed.

Lemma incr_get (count count' : dict string Z) (doctor x : string) :
  incr count doctor = Ok count' ->
  dict_get count' x
  = if decide (doctor = x) then (fun c => c + 1) <$> dict_get count x
    else dict_get count x.
Proof.
  intros H. apply incr_ok in H as (c & Hc & ->). rewrite dict_get_set.
  destruct (decide (doctor = x)) as [<-|]; [by rewrite Hc | done].
Qed.

Lemma incr_wf (count count' : dict string Z) (doctor : string) :
  incr count doctor = Ok count' -> dict_wf count -> dict_wf count'.
Proof. intros H Hwf. unfold dict_wf. by rewrite (incr_keys _ _ _ H). Qed.

(** *** Seed pass *)

Lemma seed_step_ok resolved_schedule st item st' :
  seed_step resolved_schedule st item = Ok st' ->
  final_schedule st'
  = dict_set (final_schedule st) item.1 (seed_choice resolved_schedule item)
  /\ rnd st' = rnd st
  /\ match seed_choice resolved_schedule item with
     | Some x => incr (doctor_shift_count st) x = Ok (doctor_shift_count st')
     | None => doctor_shift_count st' = doctor_shift_count st
     end.
Proof.
  destruct item as [day assigned]. unfold seed_step, seed_choice. simpl.
  unfold dict_mem, dict_item.
  destruct (dict_get resolved_schedule day) as [r|]; simpl.
  - intros H. apply rbind_ok in H as (count & Hcount & H).
    inversion H; subst; simpl. done.
  - destruct assigned as [|a [|]].
    + intros H; inversion H; subst; done.
    + intros H. apply rbind_ok in H as (count & Hcount & H).
      inversion H; subst; simpl. done.
    + intros H; inversion H; subst; done.
Qed.

Lemma seed_step_total resolved_schedule st item :
  (forall x, seed_choice resolved_schedule item = Some x ->
             x ∈ dict_keys (doctor_shift_count st)) ->
  exists st', seed_step resolved_schedule st item = Ok st'.
Proof.
  destruct item as [day assigned]. unfold seed_step, seed_choice. simpl.
  unfold dict_mem, dict_item.
  destruct (dict_get resolved_schedule day) as [r|]; simpl.
  - intros H. destruct (incr_total (doctor_shift_count st) r) as [c ->];
      [by apply H |]. simpl. eauto.
  - destruct assigned as [|a [|]]; [eauto | | eauto].
    intros H. destruct (incr_total (doctor_shift_count st) a) as [c ->];
      [by apply H |]. simpl. eauto.
Qed.

(** The first loop builds the comprehension of [seed_choice]. *)
Lemma seed_loop_final resolved_schedule schedule st st' :
  for_each (seed_step resolved_schedule) schedule st = Ok st' ->
  final_schedule st'
  = fold_left (fun d item => dict_set d item.1 (seed_choice resolved_schedule item))
      schedule (final_schedule st)
  /\ rnd st' = rnd st
  /\ dict_keys (doctor_shift_count st') = dict_keys (doctor_shift_count st).
Proof.
  revert st. induction schedule as [|item schedule IH]; intros st H.
  - inversion H; subst. done.
  - rewrite for_each_cons in H. apply rbind_ok in H as (st1 & Hstep & H).
    destruct (IH _ H) as (-> & -> & ->).
    apply seed_step_keys in Hstep as Hk. destruct Hk as [-> ->].
    apply seed_step_ok in Hstep as (-> & _ & _). done.
Qed.

(** The counter of a doctor after the first loop. *)
Lemma seed_loop_count resolved_schedule schedule st st' x c :
  for_each (seed_step resolved_schedule) schedule st = Ok st' ->
  dict_get (doctor_shift_count st) x = Some c ->
  dict_get (doctor_shift_count st') x
  = Some (c + seed_days schedule resolved_schedule x).
Proof.
  revert st c. induction schedule as [|item schedule IH]; intros st c H Hc.
  - inversion H; subst. rewrite Hc. unfold seed_days, len. simpl.
    f_equal. lia.
  - rewrite for_each_cons in H. apply rbind_ok in H as (st1 & Hstep & H).
    apply seed_step_ok in Hstep as (_ & _ & Hcount).
    unfold seed_days, len. rewrite filter_cons.
    destruct (decide (seed_choice resolved_schedule item = Some x)) as [Hx|Hx].
    + rewrite Hx in Hcount. apply incr_get with (x := x) in Hcount.
      rewrite decide_True, Hc in Hcount by done. simpl in Hcount.
      rewrite (IH _ _ H Hcount). unfold seed_days, len. simpl. f_equal. lia.
    + assert (dict_get (doctor_shift_count st1) x = Some c) as Hc1.
      { destruct (seed_choice resolved_schedule item) as [y|].
        - apply incr_get with (x := x) in Hcount.
          rewrite decide_False in Hcount by congruence. congruence.
        - congruence. }
      by rewrite (IH _ _ H Hc1).
Qed.

(** *** Fill pass *)

Lemma is_available_true doctors fs day x c :
  is_available doctors fs day (x, c) = Ok true ->
  exists det,
    dict_get doctors x = Some det
    /\ shifts_left (num_shifts det) c = true
    /\ (day ∉ excluded_days det)
    /\ (day = 1 \/ exists v, dict_get fs (day - 1) = Some v /\ v <> Some x)
    /\ (day = len fs \/ exists v, dict_get fs (day + 1) = Some v /\ v <> Some x).
Proof.
  unfold is_available. intros H. apply rbind_ok in H as (det & Hdet & H).
  apply dict_item_ok in Hdet. exists det. split; [done |].
  destruct (shifts_left (num_shifts det) c); simpl in H; [ | discriminate].
  split; [done |]. case_bool_decide as Hex; [discriminate |].
  split; [done |]. apply rbind_ok in H as (before & Hbefore & H).
  destruct before; simpl in H; [ | discriminate]. split.
  - destruct (Z.eqb_spec day 1) as [-> | _]; [by left | right].
    apply rbind_ok in Hbefore as (v & Hv & Hneq). apply dict_item_ok in Hv.
    exists v. split; [done |]. inversion Hneq as [Hd]. unfold slot_differs in Hd.
    intros ->. by rewrite bool_decide_eq_true_2 in Hd.
  - destruct (Z.eqb_spec day (len fs)) as [-> | _]; [by left | right].
    apply rbind_ok in H as (v & Hv & Hneq). apply dict_item_ok in Hv.
    exists v. split; [done |]. inversion Hneq as [Hd]. unfold slot_differs in Hd.
    intros ->. by rewrite bool_decide_eq_true_2 in Hd.
Qed.

Lemma is_available_total doctors fs day x c :
  x ∈ dict_keys doctors ->
  (day = 1 \/ day - 1 ∈ dict_keys fs) ->
  (day = len fs \/ day + 1 ∈ dict_keys fs) ->
  exists b, is_available doctors fs day (x, c) = Ok b.
Proof.
  intros Hx Hprev Hnext. unfold is_available, dict_item.
  apply dict_get_is_Some_keys in Hx as [det ->]. simpl.
  destruct (shifts_left (num_shifts det) c); simpl; [ | eauto].
  case_bool_decide; [eauto |].
  assert (exists before,
             (if day =? 1 then Ok true
              else v <- match dict_get fs (day - 1) with
                        | Some v => Ok v | None => Raise KeyError end ;;
                   Ok (slot_differs v x)) = Ok before) as [before ->].
  { destruct (Z.eqb_spec day 1) as [-> | Hne]; [eauto |].
    destruct Hprev as [? | Hprev]; [done |].
    apply dict_get_is_Some_keys in Hprev as [v ->]. simpl. eauto. }
  simpl. destruct before; simpl; [ | eauto].
  destruct (Z.eqb_spec day (len fs)) as [-> | Hne]; [eauto |].
  destruct Hnext as [? | Hnext]; [done |].
  apply dict_get_is_Some_keys in Hnext as [v ->]. simpl. eauto.
Qed.

(** A fill step changes nothing, or gives one unassigned day to a doctor
    who passed every test of the comprehension. *)
Lemma fill_step_ok doctors st day st' :
  dict_wf (doctor_shift_count st) ->
  fill_step doctors st day = Ok st' ->
  st' = st
  \/ exists x c,
       dict_get (final_schedule st) day = Some None
       /\ final_schedule st' = dict_set (final_schedule st) day (Some x)
       /\ dict_get (doctor_shift_count st) x = Some c
       /\ doctor_shift_count st' = dict_set (doctor_shift_count st) x (c + 1)
       /\ rnd st' = rng_tail (rnd st)
       /\ is_available doctors (final_schedule st) day (x, c) = Ok true.
Proof.
  intros Hwf H. unfold fill_step in H. apply rbind_ok in H as (v & Hv & H).
  apply dict_item_ok in Hv. destruct v as [y|].
  - left. by inversion H.
  - apply rbind_ok in H as (available & Hav & H).
    destruct available as [|e available]; [left; by inversion H |].
    right. apply rbind_ok in H as ([x g'] & Hpick & H).
    apply rbind_ok in H as (count & Hcount & H).
    apply random_choice_elem in Hpick as [Hx ->].
    apply list_elem_of_fmap in Hx as ([x' c] & Hx' & Hin). simpl in Hx'. subst x'.
    destruct (filter_raising_ok _ _ _ Hav _ Hin) as [Hcnt Htrue].
    apply (dict_elem_get _ _ _ Hwf) in Hcnt.
    apply incr_ok in Hcount as (c' & Hc' & ->).
    assert (c' = c) as -> by congruence.
    exists x, c. inversion H; subst; simpl. done.
Qed.

(** *** Cleanup pass *)

Lemma cleanup_step_ok fs day fs' :
  cleanup_step fs day = Ok fs' ->
  (fs' = fs \/
   (fs' = dict_set fs day None
    /\ exists a, dict_get fs day = Some a /\ dict_get fs (day - 1) = Some a))
  /\ day ∈ dict_keys fs.
Proof.
  unfold cleanup_step. intros H. apply rbind_ok in H as (a & Ha & H).
  apply rbind_ok in H as (b & Hb & H).
  apply dict_item_ok in Ha. apply dict_item_ok in Hb.
  split; [ | apply dict_get_is_Some_keys; eauto].
  case_bool_decide as Hab; inversion H; subst; [right | by left].
  split; [done |]. eauto.
Qed.

Lemma cleanup_step_total fs day :
  day ∈ dict_keys fs -> day - 1 ∈ dict_keys fs ->
  exists fs', cleanup_step fs day = Ok fs'.
Proof.
  intros Ha Hb. unfold cleanup_step, dict_item.
  apply dict_get_is_Some_keys in Ha as [a ->].
  apply dict_get_is_Some_keys in Hb as [b ->]. simpl.
  case_bool_decide; eauto.
Qed.

(** ** The finaliser returns on well-formed input *)

Section Finalize.
Variables (schedule : dict Z (list string)) (resolved_schedule : dict Z string)
         (doctors : dict string details).

(** The state after the first loop. *)
Lemma seed_pass_ok g st :
  seed_pass schedule resolved_schedule doctors g = Ok st ->
  final_schedule st = dict_comprehension fst (seed_choice resolved_schedule) schedule
  /\ rnd st = g
  /\ dict_wf (doctor_shift_count st)
  /\ (forall x, x ∈ dict_keys (doctor_shift_count st) <-> x ∈ dict_keys doctors).
Proof.
  unfold seed_pass. intros H.
  pose proof (seed_loop_final _ _ _ _ H) as (Hfs & Hg & Hkeys). simpl in *.
  split; [done |]. split; [done |]. split.
  - unfold dict_wf. rewrite Hkeys. apply dict_comprehension_wf.
  - intros x. rewrite Hkeys. apply dict_comprehension_keys.
Qed.

Lemma seed_pass_count g st x :
  seed_pass schedule resolved_schedule doctors g = Ok st ->
  x ∈ dict_keys doctors ->
  dict_get (doctor_shift_count st) x
  = Some (seed_days schedule resolved_schedule x).
Proof.
  unfold seed_pass. intros H Hx.
  rewrite (seed_loop_count _ _ _ _ x 0 H); [f_equal; lia |]. simpl.
  destruct (dict_get (dict_comprehension fst (fun _ => 0) doctors) x)
    as [c|] eqn:E.
  - by apply dict_comprehension_get in E as (? & _ & _ & <-).
  - apply dict_get_None_keys in E. exfalso. apply E.
    by apply dict_comprehension_keys.
Qed.

Lemma seed_pass_total g :
  seeds_in_roster schedule resolved_schedule doctors ->
  exists st, seed_pass schedule resolved_schedule doctors g = Ok st.
Proof.
  intros Hseeds. unfold seed_pass.
  set (st0 := {| final_schedule := []; doctor_shift_count := _; rnd := g |}).
  destruct (for_each_total
              (fun st => dict_keys (doctor_shift_count st)
                         = dict_keys (doctor_shift_count st0))
              (seed_step resolved_schedule) schedule) with (s := st0)
    as (st & Hst & _); [ | done | eauto].
  intros st item Hitem Hkeys.
  destruct (seed_step_total resolved_schedule st item) as [st' Hstep].
  - intros x Hx. rewrite Hkeys. simpl. apply dict_comprehension_keys.
    by apply (Hseeds item).
  - exists st'. split; [done |].
    apply seed_step_keys in Hstep as [-> _]. done.
Qed.

Lemma seed_final_keys n :
  days_1_to schedule n ->
  dict_comprehension fst (seed_choice resolved_schedule) schedule
  = (fun item => (item.1, seed_choice resolved_schedule item)) <$> schedule.
Proof.
  intros Hdays. apply dict_comprehension_NoDup.
  unfold days_1_to, dict_keys in Hdays. rewrite Hdays. apply py_range_NoDup.
Qed.
End Finalize.

Lemma has_days_len n fs : 0 <= n -> has_days n fs -> len fs = n.
Proof.
  intros Hn H. rewrite <- len_keys, H, py_range_length; lia.
Qed.

Lemma has_days_elem n fs day : has_days n fs -> day ∈ dict_keys fs <-> 1 <= day <= n.
Proof. intros ->. rewrite elem_of_py_range. lia. Qed.

Lemma has_days_set n fs day v :
  has_days n fs -> day ∈ dict_keys fs -> has_days n (dict_set fs day v).
Proof. intros H Hin. unfold has_days. by rewrite dict_keys_set_present. Qed.

Lemma fill_step_has_days doctors n st day st' :
  dict_wf (doctor_shift_count st) ->
  fill_step doctors st day = Ok st' ->
  has_days n (final_schedule st) ->
  has_days n (final_schedule st')
  /\ dict_wf (doctor_shift_count st')
  /\ dict_keys (doctor_shift_count st') = dict_keys (doctor_shift_count st).
Proof.
  intros Hwf Hstep Hdays.
  destruct (fill_step_ok _ _ _ _ Hwf Hstep)
    as [-> | (x & c & Hday & -> & Hc & -> & _ & _)]; [done |].
  assert (x ∈ dict_keys (doctor_shift_count st)) as Hx
      by (apply dict_get_is_Some_keys; eauto).
  split; [ | split].
  - apply has_days_set; [done |]. apply dict_get_is_Some_keys. eauto.
  - by apply dict_set_wf.
  - by apply dict_keys_set_present.
Qed.

Lemma fill_step_total doctors n st day :
  0 <= n ->
  has_days n (final_schedule st) ->
  (forall x, x ∈ dict_keys (doctor_shift_count st) -> x ∈ dict_keys doctors) ->
  1 <= day <= n ->
  exists st', fill_step doctors st day = Ok st'.
Proof.
  intros Hn Hdays Hroster Hday. unfold fill_step, dict_item.
  pose proof (has_days_len _ _ Hn Hdays) as Hlen.
  assert (day ∈ dict_keys (final_schedule st)) as Hin
      by (apply (has_days_elem n); done).
  apply dict_get_is_Some_keys in Hin as [v ->]. simpl.
  destruct v as [y|]; [eauto |].
  destruct (filter_raising_total
              (is_available doctors (final_schedule st) day)
              (doctor_shift_count st)) as [available Hav].
  { intros [x c] Hx. apply is_available_total.
    - apply Hroster. apply list_elem_of_fmap. by exists (x, c).
    - destruct (decide (day = 1)); [by left | right].
      apply (has_days_elem n); [done | lia].
    - destruct (decide (day = len (final_schedule st))); [by left | right].
      apply (has_days_elem n); [done | lia]. }
  rewrite Hav. simpl. destruct available as [|e available]; [eauto |].
  destruct (random_choice_total (rnd st) ((e :: available).*1)) as [x Hx];
    [done |].
  rewrite Hx. simpl.
  apply random_choice_elem in Hx as [Hx _].
  assert (x ∈ dict_keys (doctor_shift_count st)) as Hcount.
  { apply list_elem_of_fmap in Hx as (entry & -> & Hentry).
    apply list_elem_of_fmap. exists entry. split; [done |].
    by destruct (filter_raising_ok _ _ _ Hav _ Hentry). }
  destruct (incr_total _ _ Hcount) as [count ->]. simpl. eauto.
Qed.

Lemma finalize_schedule_ok schedule resolved_schedule doctors g fs :
  finalize_schedule schedule resolved_schedule doctors g = Ok fs ->
  exists st1 st2,
    seed_pass schedule resolved_schedule doctors g = Ok st1
    /\ fill_pass doctors st1 = Ok st2
    /\ cleanup_pass (final_schedule st2) = Ok fs.
Proof.
  unfold finalize_schedule. intros H.
  apply rbind_ok in H as (st1 & H1 & H). apply rbind_ok in H as (st2 & H2 & H).
  eauto.
Qed.

(** Invariants of the second loop, on a schedule with days 1..n. *)
Lemma fill_pass_inv doctors n (P : fstate -> Prop) st st' :
  0 <= n ->
  has_days n (final_schedule st) ->
  dict_wf (doctor_shift_count st) ->
  (forall s day s',
      has_days n (final_schedule s) -> dict_wf (doctor_shift_count s) ->
      1 <= day <= n -> P s -> fill_step doctors s day = Ok s' -> P s') ->
  P st ->
  fill_pass doctors st = Ok st' ->
  has_days n (final_schedule st') /\ dict_wf (doctor_shift_count st') /\ P st'.
Proof.
  intros Hn Hdays Hwf Hstep HP. unfold fill_pass.
  rewrite (has_days_len _ _ Hn Hdays).
  apply (for_each_inv
           (fun s => has_days n (final_schedule s)
                     /\ dict_wf (doctor_shift_count s) /\ P s)); [ | done].
  intros s day s' Hday (Hd & Hw & Hp) Hs. apply elem_of_py_range in Hday.
  destruct (fill_step_has_days _ n _ _ _ Hw Hs Hd) as (? & ? & _).
  split; [done |]. split; [done |]. apply (Hstep s day s'); try done. lia.
Qed.

Lemma fill_pass_total doctors n st :
  0 <= n ->
  has_days n (final_schedule st) ->
  dict_wf (doctor_shift_count st) ->
  (forall x, x ∈ dict_keys (doctor_shift_count st) -> x ∈ dict_keys doctors) ->
  exists st', fill_pass doctors st = Ok st'.
Proof.
  intros Hn Hdays Hwf Hroster. unfold fill_pass.
  rewrite (has_days_len _ _ Hn Hdays).
  destruct (for_each_total
              (fun s => has_days n (final_schedule s)
                        /\ dict_wf (doctor_shift_count s)
                        /\ dict_keys (doctor_shift_count s)
                           = dict_keys (doctor_shift_count st))
              (fill_step doctors) (py_range 1 (n + 1))) with (s := st)
    as (st' & Hst' & _); [ | done | eauto].
  intros s day Hday (Hd & Hw & Hk). apply elem_of_py_range in Hday.
  destruct (fill_step_total doctors n s day) as [s' Hs']; [done | done | | lia |].
  - intros x. rewrite Hk. apply Hroster.
  - exists s'. split; [done |].
    destruct (fill_step_has_days _ n _ _ _ Hw Hs' Hd) as (? & ? & ->). done.
Qed.

(** Invariants of the third loop. *)
Lemma cleanup_pass_inv n (P : dict Z (option string) -> Prop) fs fs' :
  0 <= n ->
  has_days n fs ->
  (forall s day s',
      has_days n s -> 2 <= day <= n - 1 -> P s ->
      cleanup_step s day = Ok s' -> P s') ->
  P fs ->
  cleanup_pass fs = Ok fs' ->
  has_days n fs' /\ P fs'.
Proof.
  intros Hn Hdays Hstep HP. unfold cleanup_pass.
  rewrite (has_days_len _ _ Hn Hdays).
  apply (for_each_inv (fun s => has_days n s /\ P s)); [ | done].
  intros s day s' Hday (Hd & Hp) Hs. apply elem_of_py_range in Hday. split.
  - destruct (cleanup_step_ok _ _ _ Hs) as [[-> | [-> _]] Hin]; [done |].
    by apply has_days_set.
  - apply (Hstep s day s'); try done. lia.
Qed.

Lemma cleanup_pass_total n fs :
  0 <= n -> has_days n fs -> exists fs', cleanup_pass fs = Ok fs'.
Proof.
  intros Hn Hdays. unfold cleanup_pass. rewrite (has_days_len _ _ Hn Hdays).
  destruct (for_each_total (has_days n) cleanup_step (py_range 2 n))
    with (s := fs) as (fs' & Hfs' & _); [ | done | eauto].
  intros s day Hday Hd. apply elem_of_py_range in Hday.
  destruct (cleanup_step_total s day) as [s' Hs'].
  - apply (has_days_elem n); [done | lia].
  - apply (has_days_elem n); [done | lia].
  - exists s'. split; [done |].
    destruct (cleanup_step_ok _ _ _ Hs') as [[-> | [-> _]] Hin]; [done |].
    by apply has_days_set.
Qed.

(** On a demand map with days 1..n whose seeded doctors are all in the
    roster, [finalize_schedule] raises nothing and returns a schedule with
    the same days. *)
Lemma finalize_schedule_total schedule resolved_schedule doctors g n :
  0 <= n ->
  days_1_to schedule n ->
  seeds_in_roster schedule resolved_schedule doctors ->
  exists fs,
    finalize_schedule schedule resolved_schedule doctors g = Ok fs
    /\ has_days n fs.
Proof.
  intros Hn Hdays Hseeds.
  destruct (seed_pass_total _ _ _ g Hseeds) as [st1 H1].
  pose proof (seed_pass_ok _ _ _ _ _ H1) as (Hfs1 & _ & Hwf1 & Hk1).
  assert (has_days n (final_schedule st1)) as Hd1.
  { unfold has_days. rewrite Hfs1, (seed_final_keys _ _ n Hdays).
    unfold dict_keys. rewrite <- list_fmap_compose. exact Hdays. }
  destruct (fill_pass_total doctors n st1) as [st2 H2]; try done.
  { intros x. apply Hk1. }
  destruct (fill_pass_inv doctors n (fun _ => True) st1 st2) as (Hd2 & _ & _);
    try done.
  destruct (cleanup_pass_total n (final_schedule st2)) as [fs H3]; try done.
  exists fs. split.
  - unfold finalize_schedule. rewrite H1. simpl. rewrite H2. simpl. done.
  - by destruct (cleanup_pass_inv n (fun _ => True) (final_schedule st2) fs).
Qed.

(** ** Shift bounds *)

Lemma count_days_nonneg fs x : 0 <= count_days fs x.
Proof. unfold count_days, len. lia. Qed.

Lemma count_days_cons fs day v x :
  count_days ((day, v) :: fs) x
  = (if decide (v = Some x) then 1 else 0) + count_days fs x.
Proof.
  unfold count_days, len. rewrite filter_cons. simpl.
  destruct (decide (v = Some x)); simpl; lia.
Qed.

(** An assignment adds at most one day to a doctor, and only when it
    names that doctor. *)
Lemma count_days_set fs day v x :
  count_days (dict_set fs day v) x
  <= count_days fs x + (if decide (v = Some x) then 1 else 0).
Proof.
  induction fs as [|[day' v'] fs IH]; simpl.
  - rewrite count_days_cons. unfold count_days, len. simpl. lia.
  - destruct (decide (day = day')) as [->|Hne]; rewrite !count_days_cons.
    + pose proof (count_days_nonneg fs x).
      destruct (decide (v = Some x)), (decide (v' = Some x)); lia.
    + lia.
Qed.

Lemma count_days_comprehension schedule resolved_schedule x :
  count_days (dict_comprehension fst (seed_choice resolved_schedule) schedule) x
  <= seed_days schedule resolved_schedule x.
Proof.
  induction schedule as [|item schedule IH] using rev_ind.
  - unfold count_days, seed_days, len. simpl. lia.
  - rewrite dict_comprehension_snoc.
    pose proof (count_days_set
                  (dict_comprehension fst (seed_choice resolved_schedule) schedule)
                  item.1 (seed_choice resolved_schedule item) x) as Hset.
    unfold seed_days, len in *. rewrite filter_app, length_app.
    rewrite filter_cons, filter_nil.
    destruct (decide (seed_choice resolved_schedule item = Some x));
      simpl length; lia.
Qed.

(** C1, as stated, fails: a doctor limited to one shift who is the only
    candidate of days 1 and 3 keeps both days. *)
Lemma seed_pass_ignores_max_shifts :
  ~ (forall schedule resolved_schedule doctors g fs x det m,
        finalize_schedule schedule resolved_schedule doctors g = Ok fs ->
        dict_get doctors x = Some det ->
        num_shifts det = Some m ->
        count_days fs x <= m).
Proof.
  intros H.
  specialize (H [(1, [doctor_A]); (2, []); (3, [doctor_A])] []
                roster_one_shift (fun _ => 0%nat)
                [(1, Some doctor_A); (2, None); (3, Some doctor_A)]
                doctor_A _ 1 eq_refl eq_refl eq_refl).
  vm_compute in H. by apply H.
Qed.

(** The second loop never takes a doctor past the bound: the counter
    stays below the larger of the bound and its value after the first
    loop, and it dominates the number of days held. *)
Lemma fill_step_bound doctors x det m bound st day st' :
  dict_get doctors x = Some det ->
  num_shifts det = Some m ->
  m <= bound ->
  dict_wf (doctor_shift_count st) ->
  (exists c, dict_get (doctor_shift_count st) x = Some c
             /\ count_days (final_schedule st) x <= c /\ c <= bound) ->
  fill_step doctors st day = Ok st' ->
  dict_wf (doctor_shift_count st')
  /\ exists c, dict_get (doctor_shift_count st') x = Some c
               /\ count_days (final_schedule st') x <= c /\ c <= bound.
Proof.
  intros Hdet Hm Hbound Hwf (c & Hc & Hdays & Hle) Hstep.
  destruct (fill_step_ok _ _ _ _ Hwf Hstep)
    as [-> | (y & cy & _ & -> & Hcy & -> & _ & Hav)]; [eauto |].
  split; [by apply dict_set_wf |].
  pose proof (count_days_set (final_schedule st) day (Some y) x) as Hset.
  rewrite dict_get_set. destruct (decide (y = x)) as [->|Hne].
  - exists (cy + 1). split; [done |].
    assert (cy = c) as -> by congruence.
    apply is_available_true in Hav as (det' & Hdet' & Hleft & _).
    assert (det' = det) as -> by congruence.
    rewrite Hm in Hleft. simpl in Hleft. apply Z.ltb_lt in Hleft.
    rewrite decide_True in Hset by done. lia.
  - exists c. split; [done |].
    rewrite decide_False in Hset by congruence. lia.
Qed.

Lemma cleanup_step_count fs day fs' x :
  cleanup_step fs day = Ok fs' -> count_days fs' x <= count_days fs x.
Proof.
  intros H. destruct (cleanup_step_ok _ _ _ H) as [[-> | [-> _]] _]; [lia |].
  pose proof (count_days_set fs day None x) as Hset.
  rewrite decide_False in Hset by done. lia.
Qed.

(** The days a doctor holds at the end are bounded by the counter, which
    only the first loop can take past the doctor's bound. *)
Lemma finalize_count_bound
    (schedule : dict Z (list string)) (resolved_schedule : dict Z string)
    (doctors : dict string details) (g : rng) (fs : dict Z (option string))
    (x : string) (det : details) (m : Z) :
  finalize_schedule schedule resolved_schedule doctors g = Ok fs ->
  dict_get doctors x = Some det ->
  num_shifts det = Some m ->
  count_days fs x <= Z.max m (seed_days schedule resolved_schedule x).
Proof.
  intros Hfin Hdet Hm.
  apply finalize_schedule_ok in Hfin as (st1 & st2 & H1 & H2 & H3).
  set (bound := Z.max m (seed_days schedule resolved_schedule x)).
  pose proof (seed_pass_ok _ _ _ _ _ H1) as (Hfs1 & _ & Hwf1 & _).
  assert (x ∈ dict_keys doctors) as Hx by (apply dict_get_is_Some_keys; eauto).
  pose proof (seed_pass_count _ _ _ _ _ x H1 Hx) as Hc1.
  assert (dict_wf (doctor_shift_count st2)
          /\ exists c, dict_get (doctor_shift_count st2) x = Some c
                       /\ count_days (final_schedule st2) x <= c /\ c <= bound)
    as (_ & c & _ & Hdays2 & Hle2).
  { revert H2. unfold fill_pass.
    apply (for_each_inv
             (fun st => dict_wf (doctor_shift_count st)
                        /\ exists c, dict_get (doctor_shift_count st) x = Some c
                                     /\ count_days (final_schedule st) x <= c
                                     /\ c <= bound)).
    - intros s day s' _ [Hwf Hinv] Hstep.
      apply (fill_step_bound doctors x det m bound s day s'); try done.
      unfold bound. lia.
    - split; [done |]. exists (seed_days schedule resolved_schedule x).
      split; [done |]. split; [ | unfold bound; lia].
      rewrite Hfs1. apply count_days_comprehension. }
  assert (count_days fs x <= count_days (final_schedule st2) x); [ | lia].
  revert H3. unfold cleanup_pass.
  apply (for_each_inv
           (fun s => count_days s x <= count_days (final_schedule st2) x));
    [ | lia].
  intros s day s' _ Hs Hstep. pose proof (cleanup_step_count _ _ _ x Hstep). lia.
Qed.

(** C1, amended: in the schedule returned by [finalize_schedule], a doctor
    with a bound [m] holds at most [max m s] days, where [s] is the number
    of days the seed pass gave that doctor (resolved conflicts and
    single-candidate days, assigned without looking at the bound). The
    fill pass never takes a doctor past the bound: a doctor seeded on at
    most [m] days ends with at most [m] days. This holds for every random
    source; a doctor without a bound is never limited. *)
Theorem max_shifts_bound_after_seed
    (schedule : dict Z (list string)) (resolved_schedule : dict Z string)
    (doctors : dict string details) (g : rng) (fs : dict Z (option string))
    (x : string) (det : details) (m : Z) :
  finalize_schedule schedule resolved_schedule doctors g = Ok fs ->
  dict_get doctors x = Some det ->
  num_shifts det = Some m ->
  count_days fs x <= Z.max m (seed_days schedule resolved_schedule x)
  /\ (seed_days schedule resolved_schedule x <= m -> count_days fs x <= m).
Proof.
  intros Hfin Hdet Hm.
  pose proof (finalize_count_bound _ _ _ _ _ _ _ _ Hfin Hdet Hm) as Hbound.
  split; [done | lia].
Qed.

Lemma max_shifts_bound_after_seed_witness :
  let fs := [(1, Some doctor_A); (2, None); (3, Some doctor_A)] in
  let schedule := [(1, [doctor_A]); (2, []); (3, [doctor_A])] in
  count_days fs doctor_A <= Z.max 1 (seed_days schedule [] doctor_A)
  /\ (seed_days schedule [] doctor_A <= 1 -> count_days fs doctor_A <= 1).
Proof.
  apply (max_shifts_bound_after_seed _ [] roster_one_shift (fun _ => 0%nat)
           _ doctor_A
           {| excluded_days := []; wanted_days := [1; 2]; num_shifts := Some 1 |}
           1); reflexivity.
Defined.

(** ** Seeded days that survive *)

(** The look-ahead of the fill pass keeps [x] off the day before. *)
Lemma fill_step_holds_alone doctors n day x st day' st' :
  0 <= n -> 1 <= day <= n ->
  has_days n (final_schedule st) ->
  dict_wf (doctor_shift_count st) ->
  holds_alone day x (final_schedule st) ->
  fill_step doctors st day' = Ok st' ->
  holds_alone day x (final_schedule st').
Proof.
  intros Hn Hday Hdays Hwf [Hx Hprev] Hstep.
  destruct (fill_step_ok _ _ _ _ Hwf Hstep)
    as [-> | (y & c & Hnone & -> & _ & _ & _ & Hav)]; [done |].
  assert (day' <> day) as Hne by congruence.
  split; [by rewrite dict_get_set_ne |].
  destruct Hprev as [? | (v & Hv & Hvx)]; [by left | right].
  rewrite dict_get_set. destruct (decide (day' = day - 1)) as [->|_]; [ | eauto].
  exists (Some y). split; [done |]. intros [= ->].
  apply is_available_true in Hav as (_ & _ & _ & _ & _ & Hnext).
  rewrite (has_days_len _ _ Hn Hdays) in Hnext.
  destruct Hnext as [? | (w & Hw & Hwx)]; [lia |].
  replace (day - 1 + 1) with day in Hw by lia. congruence.
Qed.

Lemma cleanup_step_holds_alone day x fs day' fs' :
  2 <= day' ->
  holds_alone day x fs ->
  cleanup_step fs day' = Ok fs' ->
  holds_alone day x fs'.
Proof.
  intros Hday' [Hx Hprev] Hstep.
  destruct (cleanup_step_ok _ _ _ Hstep) as [[-> | [-> (a & Ha & Hb)]] _];
    [done |].
  assert (day' <> day) as Hne.
  { intros ->. destruct Hprev as [? | (v & Hv & Hvx)]; [lia | congruence]. }
  split; [by rewrite dict_get_set_ne |].
  destruct Hprev as [? | (v & Hv & Hvx)]; [by left | right].
  rewrite dict_get_set. destruct (decide (day' = day - 1)); eauto.
Qed.

(** A day that the seed pass gives to [x], while it does not give the day
    before to [x], still holds [x] in the schedule that is returned. *)
Lemma seeded_day_survives schedule resolved_schedule doctors g n fs day l x :
  days_1_to schedule n ->
  finalize_schedule schedule resolved_schedule doctors g = Ok fs ->
  (day, l) ∈ schedule ->
  seed_choice resolved_schedule (day, l) = Some x ->
  (forall l', (day - 1, l') ∈ schedule ->
              seed_choice resolved_schedule (day - 1, l') <> Some x) ->
  dict_get fs day = Some (Some x).
Proof.
  intros Hdays Hfin Hin Hseed Hbefore.
  assert (1 <= day <= n) as Hday.
  { assert (day ∈ dict_keys schedule) as Hk
        by (apply list_elem_of_fmap; by exists (day, l)).
    rewrite Hdays in Hk. apply elem_of_py_range in Hk. lia. }
  assert (0 <= n) as Hn by lia.
  apply finalize_schedule_ok in Hfin as (st1 & st2 & H1 & H2 & H3).
  pose proof (seed_pass_ok _ _ _ _ _ H1) as (Hfs1 & _ & Hwf1 & _).
  rewrite (seed_final_keys _ _ n Hdays) in Hfs1.
  assert (has_days n (final_schedule st1)) as Hd1.
  { unfold has_days, dict_keys. rewrite Hfs1, <- list_fmap_compose. exact Hdays. }
  assert (dict_wf (final_schedule st1)) as Hwfs.
  { unfold dict_wf. rewrite Hd1. apply py_range_NoDup. }
  assert (holds_alone day x (final_schedule st1)) as Hh1.
  { split.
    - apply dict_elem_get; [done |]. rewrite Hfs1.
      apply list_elem_of_fmap. exists (day, l). by rewrite Hseed.
    - destruct (decide (day = 1)) as [? | Hne]; [by left | right].
      assert (day - 1 ∈ dict_keys (final_schedule st1)) as Hk
          by (apply (has_days_elem n); [done | lia]).
      apply dict_get_is_Some_keys in Hk as [v Hv]. exists v. split; [done |].
      apply dict_get_Some_elem in Hv. rewrite Hfs1 in Hv.
      apply list_elem_of_fmap in Hv as ([d' l'] & Heq & Hin').
      simpl in Heq. inversion Heq; subst. by apply Hbefore. }
  destruct (fill_pass_inv doctors n (fun st => holds_alone day x (final_schedule st))
              st1 st2) as (Hd2 & _ & Hh2); try done.
  { intros s d s' Hds Hws _ Hhs Hstep.
    by apply (fill_step_holds_alone doctors n day x s d s'). }
  destruct (cleanup_pass_inv n (holds_alone day x) (final_schedule st2) fs)
    as (_ & [Hx _]); try done.
  intros s d s' _ Hd Hhs Hstep.
  apply (cleanup_step_holds_alone day x s d s'); [lia | done | done].
Qed.

(** ** The example of a resolved conflict *)

Lemma filter_none {A : Type} (P : A -> Prop) `{forall x, Decision (P x)}
    (l : list A) :
  (forall x, x ∈ l -> ~ P x) -> filter P l = [].
Proof.
  induction l as [|a l IH]; intros Hall; [done |].
  rewrite filter_cons, decide_False by (apply Hall; by left).
  apply IH. intros x Hx. apply Hall. by right.
Qed.

Lemma py_range_split (a b c : Z) :
  a <= b <= c -> py_range a c = py_range a b ++ py_range b c.
Proof.
  intros H. unfold py_range.
  replace (c - a) with ((b - a) + (c - b)) by lia.
  rewrite seqZ_app by lia. do 2 f_equal. lia.
Qed.

Lemma demand_day_5_keys n : days_1_to (demand_day_5 n) n.
Proof.
  unfold days_1_to, dict_keys, demand_day_5.
  rewrite <- list_fmap_compose. apply list_fmap_id.
Qed.

Lemma demand_day_5_elem n day l :
  (day, l) ∈ demand_day_5 n ->
  1 <= day <= n /\ l = if day =? 5 then [doctor_A; doctor_B] else [].
Proof.
  unfold demand_day_5. intros H.
  apply list_elem_of_fmap in H as (d & Heq & Hd). inversion Heq; subst.
  apply elem_of_py_range in Hd. split; [lia | done].
Qed.

Lemma demand_day_5_conflicts n :
  5 <= n -> identify_conflicts (demand_day_5 n) = [(5, [doctor_A; doctor_B])].
Proof.
  intros Hn. unfold identify_conflicts, demand_day_5.
  rewrite (py_range_split 1 5 (n + 1)) by lia.
  rewrite (py_range_split 5 6 (n + 1)) by lia.
  change (py_range 5 6) with [5]. rewrite !fmap_app, !filter_app.
  rewrite (filter_none _ (_ <$> py_range 1 5)).
  - rewrite (filter_none _ (_ <$> py_range 6 (n + 1))); [reflexivity |].
    intros [d l] Hin. apply list_elem_of_fmap in Hin as (d' & Heq & Hd).
    inversion Heq; subst. apply elem_of_py_range in Hd.
    destruct (Z.eqb_spec d' 5); [lia |]. unfold len. simpl. lia.
  - intros [d l] Hin. apply list_elem_of_fmap in Hin as (d' & Heq & Hd).
    inversion Heq; subst. apply elem_of_py_range in Hd.
    destruct (Z.eqb_spec d' 5); [lia |]. unfold len. simpl. lia.
Qed.

(** The demand map of the example is what the builder produces for a
    month of 31 days. *)
Lemma demand_day_5_built :
  generate_initial_schedule roster_day_5 1 2025 = Ok (demand_day_5 31).
Proof. vm_compute. reflexivity. Qed.

(** C6: for the roster of A and B, both without a bound and both wanting
    day 5, and the demand map of a month of [n >= 5] days with
    [demand[5] = [A, B]], [identify_conflicts] reports day 5 with the
    candidates [A, B], and [finalize_schedule] with the resolution
    [{5: B}] returns a schedule whose day 5 is B, for every random
    source. *)
Theorem resolved_conflict_day_5 (n : Z) (g : rng) :
  5 <= n ->
  identify_conflicts (demand_day_5 n) = [(5, [doctor_A; doctor_B])]
  /\ exists fs,
       finalize_schedule (demand_day_5 n) [(5, doctor_B)] roster_day_5 g = Ok fs
       /\ dict_get fs 5 = Some (Some doctor_B).
Proof.
  intros Hn. split; [by apply demand_day_5_conflicts |].
  pose proof (demand_day_5_keys n) as Hdays.
  destruct (finalize_schedule_total (demand_day_5 n) [(5, doctor_B)]
              roster_day_5 g n) as (fs & Hfs & _); [lia | done | |].
  { intros [d l] x Hin Hx. apply demand_day_5_elem in Hin as [_ ->].
    unfold seed_choice, dict_mem in Hx. simpl in Hx.
    destruct (decide (d = 5)) as [->|Hne].
    - inversion Hx; subst. right. left.
    - destruct (Z.eqb_spec d 5); [done | discriminate]. }
  exists fs. split; [done |].
  apply (seeded_day_survives (demand_day_5 n) [(5, doctor_B)] roster_day_5 g n
           fs 5 [doctor_A; doctor_B] doctor_B); try done.
  - unfold demand_day_5. apply list_elem_of_fmap. exists 5.
    split; [done |]. apply elem_of_py_range. lia.
  - intros l' Hin. apply demand_day_5_elem in Hin as [_ ->]. discriminate.
Qed.

Lemma resolved_conflict_day_5_witness :
  identify_conflicts (demand_day_5 31) = [(5, [doctor_A; doctor_B])]
  /\ exists fs,
       finalize_schedule (demand_day_5 31) [(5, doctor_B)] roster_day_5
         (fun k => k) = Ok fs
       /\ dict_get fs 5 = Some (Some doctor_B).
Proof. apply (resolved_conflict_day_5 31 (fun k => k)). lia. Defined.

(** ** What the cleanup pass does guarantee *)

Lemma cleanup_step_at fs day fs' :
  cleanup_step fs day = Ok fs' -> differs_from_previous day fs'.
Proof.
  intros H x. destruct (cleanup_step_ok _ _ _ H) as [Hcases _].
  unfold cleanup_step in H. apply rbind_ok in H as (a & Ha & H).
  apply rbind_ok in H as (b & Hb & H).
  apply dict_item_ok in Ha. apply dict_item_ok in Hb.
  case_bool_decide as Hab; inversion H; subst.
  - by rewrite dict_get_set_eq.
  - rewrite Ha, Hb. congruence.
Qed.

Lemma cleanup_step_later fs day day' fs' :
  day < day' ->
  cleanup_step fs day' = Ok fs' ->
  differs_from_previous day fs ->
  differs_from_previous day fs'.
Proof.
  intros Hlt H Hd x.
  destruct (cleanup_step_ok _ _ _ H) as [[-> | [-> _]] _]; [apply Hd |].
  rewrite !dict_get_set_ne by lia. apply Hd.
Qed.

(** After the third loop every day from 2 to n-1 differs from the day
    before it; the loop never visits day n. *)
Lemma cleanup_pass_interior n fs fs' day :
  0 <= n ->
  has_days n fs ->
  cleanup_pass fs = Ok fs' ->
  2 <= day <= n - 1 ->
  differs_from_previous day fs'.
Proof.
  intros Hn Hdays Hrun Hday. unfold cleanup_pass in Hrun.
  rewrite (has_days_len _ _ Hn Hdays) in Hrun.
  rewrite (py_range_split 2 day n) in Hrun by lia.
  rewrite (py_range_split day (day + 1) n) in Hrun by lia.
  rewrite for_each_app in Hrun.
  apply rbind_ok in Hrun as (fs1 & _ & Hrun).
  rewrite for_each_app in Hrun.
  apply rbind_ok in Hrun as (fs2 & Hat & Hrun).
  assert (differs_from_previous day fs2) as H2.
  { unfold py_range in Hat. replace (day + 1 - day) with 1 in Hat by lia.
    change (seqZ day 1) with [day] in Hat. simpl in Hat.
    apply rbind_ok in Hat as (fs2' & Hstep & [= <-]).
    by apply cleanup_step_at in Hstep. }
  revert Hrun. apply (for_each_inv (differs_from_previous day)); [ | done].
  intros s day' s' Hin Hs Hstep. apply elem_of_py_range in Hin.
  apply (cleanup_step_later s day day' s'); [lia | done | done].
Qed.

(** In the schedule that [finalize_schedule] returns for days 1..n, two
    consecutive days that both lie before the last day never hold the same
    doctor. Only the pair (n-1, n) is left unchecked. *)
Lemma no_consecutive_before_last_day
    schedule resolved_schedule doctors g n fs day x :
  days_1_to schedule n ->
  finalize_schedule schedule resolved_schedule doctors g = Ok fs ->
  1 <= day -> day + 1 <= n - 1 ->
  dict_get fs day = Some (Some x) ->
  dict_get fs (day + 1) <> Some (Some x).
Proof.
  intros Hdays Hfin Hlo Hhi Hx Hnext.
  assert (0 <= n) as Hn by lia.
  apply finalize_schedule_ok in Hfin as (st1 & st2 & H1 & H2 & H3).
  pose proof (seed_pass_ok _ _ _ _ _ H1) as (Hfs1 & _ & Hwf1 & _).
  assert (has_days n (final_schedule st1)) as Hd1.
  { unfold has_days. rewrite Hfs1, (seed_final_keys _ _ n Hdays).
    unfold dict_keys. rewrite <- list_fmap_compose. exact Hdays. }
  destruct (fill_pass_inv doctors n (fun _ => True) st1 st2) as (Hd2 & _ & _);
    try done.
  pose proof (cleanup_pass_interior n _ _ (day + 1) Hn Hd2 H3) as Hdiff.
  apply (Hdiff ltac:(lia) x Hnext).
  by replace (day + 1 - 1) with day by lia.
Qed.

(** * The store-level engine *)

Module HeapFacts.
Import Heap.
Local Open Scope store_scope.

(** ** Running a computation *)

Lemma bind_ok {A B : Type} (m : M A) (k : A -> M B) h a h' :
  m h = (Ok a, h') -> bind m k h = k a h'.
Proof. unfold bind. by intros ->. Qed.

Lemma bind_raise {A B : Type} (m : M A) (k : A -> M B) h e h' :
  m h = (Raise e, h') -> bind m k h = (Raise e, h').
Proof. unfold bind. by intros ->. Qed.

Lemma load_names_run h l names :
  names_at h l = Some names -> load_names l h = (Ok names, h).
Proof.
  unfold names_at, load_names, bind, load.
  destruct (h !! l) as [[]|]; intros [=]; by subst.
Qed.

Lemma load_days_run h l days :
  days_at h l = Some days -> load_days l h = (Ok days, h).
Proof.
  unfold days_at, load_days, bind, load.
  destruct (h !! l) as [[]|]; intros [=]; by subst.
Qed.

Lemma load_demand_run h l entries :
  h !! l = Some (ODemand entries) -> load_demand l h = (Ok entries, h).
Proof. unfold load_demand, bind, load. by intros ->. Qed.

Lemma load_roster_run h l entries :
  h !! l = Some (ORoster entries) -> load_roster l h = (Ok entries, h).
Proof. unfold load_roster, bind, load. by intros ->. Qed.

Lemma load_resolved_run h l entries :
  h !! l = Some (OResolved entries) -> load_resolved l h = (Ok entries, h).
Proof. unfold load_resolved, bind, load. by intros ->. Qed.

Lemma load_details_run h l excluded wanted bound :
  h !! l = Some (ODetails excluded wanted bound) ->
  load_details l h = (Ok (excluded, wanted, bound), h).
Proof. unfold load_details, bind, load. by intros ->. Qed.

Lemma load_final_run h l entries :
  h !! l = Some (OFinal entries) -> load_final l h = (Ok entries, h).
Proof. unfold load_final, bind, load. by intros ->. Qed.

Lemma load_count_run h l entries :
  h !! l = Some (OCount entries) -> load_count l h = (Ok entries, h).
Proof. unfold load_count, bind, load. by intros ->. Qed.

(** ** Rules *)

Lemma triple_consequence {A : Type} (P P' : store -> Prop) (m : M A)
    (Q Q' : A -> store -> Prop) (E E' : exn -> store -> Prop) :
  triple P' m Q' E' ->
  (forall h, P h -> P' h) ->
  (forall a h, Q' a h -> Q a h) ->
  (forall e h, E' e h -> E e h) ->
  triple P m Q E.
Proof.
  intros Hm HP HQ HE h Hh. specialize (Hm h (HP h Hh)).
  destruct (m h) as [[a|e] h']; auto.
Qed.

Lemma triple_ret {A : Type} (P : store -> Prop) (a : A) E :
  triple P (ret a) (fun a' h => a' = a /\ P h) E.
Proof. intros h Hh. simpl. done. Qed.

Lemma triple_raise {A : Type} (P : store -> Prop) (e : exn) (Q : A -> _) :
  triple P (raise e) Q (fun e' h => e' = e /\ P h).
Proof. intros h Hh. simpl. done. Qed.

Lemma triple_lift {A : Type} (P : store -> Prop) (r : result A) :
  triple P (lift r) (fun a h => r = Ok a /\ P h) (fun e h => r = Raise e /\ P h).
Proof. intros h Hh. unfold lift. destruct r; done. Qed.

Lemma triple_bind {A B : Type} (P : store -> Prop) (m : M A) (k : A -> M B)
    (R : A -> store -> Prop) (Q : B -> store -> Prop) E :
  triple P m R E ->
  (forall a, triple (R a) (k a) Q E) ->
  triple P (bind m k) Q E.
Proof.
  intros Hm Hk h Hh. unfold bind. specialize (Hm h Hh).
  destruct (m h) as [[a|e] h']; [ | done]. by apply Hk.
Qed.

Lemma triple_load (P : store -> Prop) (l : loc) :
  triple P (load l) (fun o h => h !! l = Some o /\ P h)
    (fun e h => e = TypeError /\ h !! l = None /\ P h).
Proof. intros h Hh. unfold load. destruct (h !! l) eqn:E; done. Qed.

Lemma triple_alloc (P : store -> Prop) (o : obj) E :
  triple P (alloc o)
    (fun l h' => exists h, P h /\ l = length h /\ h' = h ++ [o]) E.
Proof. intros h Hh. simpl. eauto. Qed.

Lemma triple_store_at (P : store -> Prop) (l : loc) (o : obj) E :
  triple P (store_at l o) (fun _ h' => exists h, P h /\ h' = <[l := o]> h) E.
Proof. intros h Hh. simpl. eauto. Qed.

(** A loop invariant, indexed by the loop state. *)
Lemma triple_for_each {S X : Type} (I : S -> store -> Prop) E
    (body : S -> X -> M S) (xs : list X) :
  (forall s x, x ∈ xs -> triple (I s) (body s x) I E) ->
  forall s, triple (I s) (for_each_m body xs s) I E.
Proof.
  induction xs as [|x xs IH]; intros Hbody s.
  - intros h Hh. simpl. done.
  - simpl. eapply triple_bind.
    + apply Hbody. by left.
    + intros s'. apply IH. intros ? ? Hin. apply Hbody. by right.
Qed.

(** A comprehension whose condition keeps [P]. *)
Lemma triple_filter {X : Type} (P : store -> Prop) E
    (cond : X -> M bool) (xs : list X) :
  (forall x, x ∈ xs -> triple P (cond x) (fun _ h => P h) E) ->
  triple P (filter_m cond xs) (fun _ h => P h) E.
Proof.
  induction xs as [|x xs IH]; intros Hcond.
  - intros h Hh. simpl. done.
  - simpl. eapply triple_bind; [apply Hcond; by left |].
    intros b. simpl. eapply triple_bind.
    + apply IH. intros ? Hin. apply Hcond. by right.
    + intros rest h Hh. simpl. done.
Qed.

(** A comprehension that computes what a value-level one computes. *)
Lemma triple_filter_sim {X : Type} (P : store -> Prop)
    (E : store -> Prop) (cond : X -> M bool) (cond' : X -> result bool)
    (xs : list X) :
  (forall x, x ∈ xs ->
     triple P (cond x) (fun b h => cond' x = Ok b /\ P h)
       (fun e h => cond' x = Raise e /\ E h)) ->
  triple P (filter_m cond xs)
    (fun ys h => filter_raising cond' xs = Ok ys /\ P h)
    (fun e h => filter_raising cond' xs = Raise e /\ E h).
Proof.
  induction xs as [|x xs IH]; intros Hcond.
  - intros h Hh. simpl. done.
  - intros h Hh. simpl. unfold bind at 1.
    pose proof (Hcond x (list_elem_of_here _ _) h Hh) as Hx.
    destruct (cond x h) as [[b|e] h1]; [ | by destruct Hx as [-> ?]].
    destruct Hx as [-> Hh1]. simpl. unfold bind at 1.
    assert (forall y, y ∈ xs ->
              triple P (cond y) (fun b h => cond' y = Ok b /\ P h)
                (fun e h => cond' y = Raise e /\ E h)) as Hrest
        by (intros ? Hin; apply Hcond; by right).
    pose proof (IH Hrest h1 Hh1) as Hxs.
    destruct (filter_m cond xs h1) as [[rest|e] h2];
      destruct Hxs as [-> ?]; simpl; done.
Qed.

(** ** Computations that keep a property of the store *)

Lemma preserves_ret {A : Type} P (a : A) : preserves P (ret a).
Proof. intros h Hh. done. Qed.

Lemma preserves_raise {A : Type} P e : preserves P (@raise A e).
Proof. intros h Hh. done. Qed.

Lemma preserves_lift {A : Type} P (r : result A) : preserves P (lift r).
Proof. intros h Hh. unfold lift. by destruct r. Qed.

Lemma preserves_load P l : preserves P (load l).
Proof. intros h Hh. unfold load. by destruct (h !! l). Qed.

Lemma preserves_bind {A B : Type} P (m : M A) (k : A -> M B) :
  preserves P m -> (forall a, preserves P (k a)) -> preserves P (bind m k).
Proof. intros Hm Hk. eapply triple_bind; [exact Hm | exact Hk]. Qed.

Lemma preserves_for_each {S X : Type} P (body : S -> X -> M S) xs s :
  (forall s x, preserves P (body s x)) -> preserves P (for_each_m body xs s).
Proof.
  intros Hbody. apply (triple_for_each (fun _ h => P h)). intros; apply Hbody.
Qed.

Lemma preserves_filter {X : Type} P (cond : X -> M bool) xs :
  (forall x, preserves P (cond x)) -> preserves P (filter_m cond xs).
Proof. intros Hcond. apply triple_filter. intros; apply Hcond. Qed.

(** Applies the rules above along the structure of a computation. *)
Ltac preserve :=
  repeat first
    [ apply preserves_ret
    | apply preserves_raise
    | apply preserves_lift
    | apply preserves_load
    | apply preserves_for_each; intros
    | apply preserves_filter; intros
    | apply preserves_bind; [ | intros ]
    | assumption
    | match goal with
      | |- preserves _ (match ?x with _ => _ end) => destruct x
      | |- preserves _ (let '(_, _) := ?x in _) => destruct x
      end ].

Lemma preserves_load_names P l : preserves P (load_names l).
Proof. unfold load_names. preserve. Qed.

Lemma preserves_load_days P l : preserves P (load_days l).
Proof. unfold load_days. preserve. Qed.

Lemma preserves_load_details P l : preserves P (load_details l).
Proof. unfold load_details. preserve. Qed.

Lemma preserves_load_roster P l : preserves P (load_roster l).
Proof. unfold load_roster. preserve. Qed.

Lemma preserves_load_demand P l : preserves P (load_demand l).
Proof. unfold load_demand. preserve. Qed.

Lemma preserves_load_resolved P l : preserves P (load_resolved l).
Proof. unfold load_resolved. preserve. Qed.

Lemma preserves_load_final P l : preserves P (load_final l).
Proof. unfold load_final. preserve. Qed.

Lemma preserves_load_count P l : preserves P (load_count l).
Proof. unfold load_count. preserve. Qed.

Lemma preserves_final_item P l day : preserves P (final_item l day).
Proof. unfold final_item. preserve. Qed.

Lemma preserves_final_len P l : preserves P (final_len l).
Proof. unfold final_len. preserve. Qed.

(** ** Writes of the finaliser go to its own two dictionaries *)

Section Frame.
Variable h0 : store.
Variables schedule resolved_schedule doctors : loc.

Lemma extended_final h :
  extended h0 h -> exists fs, h !! (length h0) = Some (OFinal fs).
Proof.
  intros (fs & count & ->). exists fs.
  by rewrite lookup_app_r, Nat.sub_diag by lia.
Qed.

Lemma extended_count h :
  extended h0 h -> exists count, h !! (S (length h0)) = Some (OCount count).
Proof.
  intros (fs & count & ->). exists count.
  rewrite lookup_app_r by lia. by replace (S (length h0) - length h0)%nat with 1%nat by lia.
Qed.

Lemma preserves_final_set day v :
  preserves (extended h0) (final_set (length h0) day v).
Proof.
  intros h (fs & count & ->). unfold final_set, load_final, load, bind.
  rewrite lookup_app_r, Nat.sub_diag by lia. simpl.
  exists (dict_set fs day v), count.
  replace (length h0) with (length h0 + 0)%nat at 1 by lia.
  by rewrite insert_app_r.
Qed.

Lemma preserves_count_incr doctor :
  preserves (extended h0) (count_incr (S (length h0)) doctor).
Proof.
  intros h (fs & count & ->). unfold count_incr, load_count, load, bind.
  rewrite lookup_app_r by lia.
  replace (S (length h0) - length h0)%nat with 1%nat by lia. simpl.
  unfold lift. destruct (incr count doctor) as [count'|e]; [ | by exists fs, count].
  simpl. exists fs, count'.
  replace (S (length h0)) with (length h0 + 1)%nat by lia.
  by rewrite insert_app_r.
Qed.

Lemma preserves_seed_step u item :
  preserves (extended h0)
    (seed_step resolved_schedule (length h0) (S (length h0)) u item).
Proof.
  unfold seed_step. destruct item as [day assigned].
  apply preserves_bind; [apply preserves_load_resolved |]. intros resolved.
  destruct (dict_mem resolved day).
  - apply preserves_bind; [apply preserves_lift |]. intros r.
    apply preserves_bind; [apply preserves_final_set |]. intros _.
    apply preserves_count_incr.
  - apply preserves_bind; [apply preserves_load_names |]. intros names.
    destruct names as [|a [|]]; try apply preserves_final_set.
    apply preserves_bind; [apply preserves_final_set |]. intros _.
    apply preserves_count_incr.
Qed.

Lemma preserves_is_available day entry :
  preserves (extended h0) (is_available doctors (length h0) day entry).
Proof.
  unfold is_available. destruct entry as [doctor count].
  apply preserves_bind; [apply preserves_load_roster |]. intros roster.
  apply preserves_bind; [apply preserves_lift |]. intros record.
  apply preserves_bind; [apply preserves_load_details |].
  intros [[excluded wanted] bound].
  destruct (negb (shifts_left bound count)); [apply preserves_ret |].
  apply preserves_bind; [apply preserves_load_days |]. intros excluded_days.
  case_bool_decide; [apply preserves_ret |].
  apply preserves_bind.
  { destruct (day =? 1); [apply preserves_ret |].
    apply preserves_bind; [apply preserves_final_item |]. intros. apply preserves_ret. }
  intros before. destruct (negb before); [apply preserves_ret |].
  apply preserves_bind; [apply preserves_final_len |]. intros n.
  destruct (day =? n); [apply preserves_ret |].
  apply preserves_bind; [apply preserves_final_item |]. intros. apply preserves_ret.
Qed.

Lemma preserves_fill_step g day :
  preserves (extended h0)
    (fill_step doctors (length h0) (S (length h0)) g day).
Proof.
  unfold fill_step.
  apply preserves_bind; [apply preserves_final_item |]. intros [y|];
    [apply preserves_ret |].
  apply preserves_bind; [apply preserves_load_count |]. intros counts.
  apply preserves_bind;
    [apply preserves_filter; intros; apply preserves_is_available |].
  intros [|e available]; [apply preserves_ret |].
  apply preserves_bind; [apply preserves_lift |]. intros [selected g'].
  apply preserves_bind; [apply preserves_final_set |]. intros _.
  apply preserves_bind; [apply preserves_count_incr |]. intros _.
  apply preserves_ret.
Qed.

Lemma preserves_cleanup_step u day :
  preserves (extended h0) (cleanup_step (length h0) u day).
Proof.
  unfold cleanup_step.
  apply preserves_bind; [apply preserves_final_item |]. intros a.
  apply preserves_bind; [apply preserves_final_item |]. intros b.
  case_bool_decide; [apply preserves_final_set | apply preserves_ret].
Qed.

Lemma preserves_run_passes g :
  preserves (extended h0)
    (run_passes schedule resolved_schedule doctors
       (length h0) (S (length h0)) g).
Proof.
  unfold run_passes.
  apply preserves_bind; [apply preserves_load_demand |]. intros items.
  apply preserves_bind;
    [apply preserves_for_each; intros; apply preserves_seed_step |]. intros _.
  apply preserves_bind; [apply preserves_final_len |]. intros n.
  apply preserves_bind;
    [apply preserves_for_each; intros; apply preserves_fill_step |]. intros _.
  apply preserves_bind; [apply preserves_final_len |]. intros n'.
  apply preserves_for_each; intros; apply preserves_cleanup_step.
Qed.

(** The whole function: the caller's store is a prefix of the store after
    the call, and a returned reference is the first new location. *)
Lemma finalize_schedule_frame g :
  triple (fun h => h = h0)
    (finalize_schedule schedule resolved_schedule doctors g)
    (fun l h => l = length h0 /\ extended h0 h)
    (fun _ h => exists fresh, h = h0 ++ fresh).
Proof.
  intros h ->. unfold finalize_schedule, alloc, bind at 1.
  unfold bind at 1.
  pose proof (preserves_load_roster (fun h => h = h0 ++ [OFinal []]) doctors
                (h0 ++ [OFinal []]) eq_refl) as Hroster.
  destruct (load_roster doctors (h0 ++ [OFinal []])) as [[roster|e] h1];
    subst h1; [ | eauto].
  unfold bind at 1.
  rewrite length_app. simpl length.
  replace (length h0 + 1)%nat with (S (length h0)) by lia.
  rewrite <- app_assoc. simpl app. unfold bind at 1.
  pose proof (preserves_run_passes g
                (h0 ++ [OFinal []; OCount (dict_comprehension fst (fun _ => 0) roster)]))
    as Hrun.
  destruct (run_passes _ _ _ _ _ g _) as [[u|e] h2].
  - simpl. split; [done |]. apply Hrun. by eexists _, _.
  - destruct Hrun as (fs & count & ->); [by eexists _, _ | eauto].
Qed.
End Frame.

(** ** Reading the caller's values after the store has grown *)

Lemma names_at_app h fresh l names :
  names_at h l = Some names -> names_at (h ++ fresh) l = Some names.
Proof.
  unfold names_at. destruct (h !! l) as [o|] eqn:E; [ | done].
  by rewrite (lookup_app_l_Some _ _ _ _ E).
Qed.

Lemma days_at_app h fresh l days :
  days_at h l = Some days -> days_at (h ++ fresh) l = Some days.
Proof.
  unfold days_at. destruct (h !! l) as [o|] eqn:E; [ | done].
  by rewrite (lookup_app_l_Some _ _ _ _ E).
Qed.

Lemma details_at_app h fresh l det :
  details_at h l = Some det -> details_at (h ++ fresh) l = Some det.
Proof.
  unfold details_at. destruct (h !! l) as [o|] eqn:E; [ | done].
  rewrite (lookup_app_l_Some _ _ _ _ E).
  destruct o as [| |excluded wanted bound| | | | |]; try done.
  destruct (days_at h excluded) as [ex|] eqn:Eex; [ | done].
  destruct (days_at h wanted) as [wa|] eqn:Ewa; [ | done].
  by rewrite (days_at_app _ fresh _ _ Eex), (days_at_app _ fresh _ _ Ewa).
Qed.

Lemma entries_at_cons {K V : Type} (read : loc -> option V) (k : K) (l : loc)
    (entries : dict K loc) :
  entries_at read ((k, l) :: entries)
  = match read l, entries_at read entries with
    | Some v, Some d => Some ((k, v) :: d)
    | _, _ => None
    end.
Proof.
  unfold entries_at. simpl. destruct (read l); simpl; [ | done].
  by destruct (mapM _ entries).
Qed.

Lemma entries_at_mono {K V : Type} (read read' : loc -> option V)
    (entries : dict K loc) (d : dict K V) :
  (forall l v, read l = Some v -> read' l = Some v) ->
  entries_at read entries = Some d -> entries_at read' entries = Some d.
Proof.
  intros Hmono. revert d.
  induction entries as [|[k l] entries IH]; intros d; [done |].
  rewrite !entries_at_cons.
  destruct (read l) as [v|] eqn:Ev; [ | done].
  destruct (entries_at read entries) as [d'|]; [ | done].
  by rewrite (Hmono _ _ Ev), (IH d' eq_refl).
Qed.

Lemma demand_at_app h fresh l d :
  demand_at h l = Some d -> demand_at (h ++ fresh) l = Some d.
Proof.
  unfold demand_at. destruct (h !! l) as [o|] eqn:E; [ | done].
  rewrite (lookup_app_l_Some _ _ _ _ E). destruct o; try done.
  apply entries_at_mono. intros ? ?. apply names_at_app.
Qed.

Lemma roster_at_app h fresh l d :
  roster_at h l = Some d -> roster_at (h ++ fresh) l = Some d.
Proof.
  unfold roster_at. destruct (h !! l) as [o|] eqn:E; [ | done].
  rewrite (lookup_app_l_Some _ _ _ _ E). destruct o; try done.
  apply entries_at_mono. intros ? ?. apply details_at_app.
Qed.

Lemma resolved_at_app h fresh l d :
  resolved_at h l = Some d -> resolved_at (h ++ fresh) l = Some d.
Proof.
  unfold resolved_at. destruct (h !! l) as [o|] eqn:E; [ | done].
  by rewrite (lookup_app_l_Some _ _ _ _ E).
Qed.

(** ** Conflict detector *)

Lemma crowded_app h fresh item :
  is_Some (names_at h item.2) -> crowded (h ++ fresh) item = crowded h item.
Proof.
  intros [names Hn]. unfold crowded.
  by rewrite (names_at_app _ fresh _ _ Hn), Hn.
Qed.

(** The comprehension's filter reads the store and leaves it as it is. *)
Lemma filter_m_crowded h (items : dict Z loc) :
  (forall item, item ∈ items -> is_Some (names_at h item.2)) ->
  filter_m (fun item : Z * loc =>
              doctors <- load_names item.2 ;; ret (1 <? len doctors)) items h
  = (Ok (filter (fun item => crowded h item = true) items), h).
Proof.
  induction items as [|item items IH]; intros Hall; [done |].
  destruct (Hall item) as [names Hn]; [by left |].
  cbn [filter_m].
  rewrite (bind_ok _ _ h (1 <? len names) h)
    by (by rewrite (bind_ok _ _ h names h) by (by apply load_names_run)).
  rewrite (bind_ok _ _ h _ h (IH (fun i Hi => Hall i (list_elem_of_further _ _ _ Hi)))).
  assert (crowded h item = (1 <? len names)) as Hc
      by (unfold crowded; by rewrite Hn).
  rewrite filter_cons, Hc. unfold ret.
  by destruct (1 <? len names);
    [rewrite decide_True | rewrite decide_False].
Qed.

Lemma filter_wf {K V : Type} `{EqDecision K} (P : K * V -> Prop)
    `{forall x, Decision (P x)} (d : dict K V) :
  dict_wf d -> dict_wf (filter P d).
Proof.
  unfold dict_wf, dict_keys. intros Hwf.
  eapply sublist_NoDup; [exact Hwf |].
  apply fmap_sublist, sublist_filter.
Qed.

Lemma filter_ext_in {A : Type} (P Q : A -> Prop)
    `{forall x, Decision (P x)} `{forall x, Decision (Q x)} (l : list A) :
  (forall x, x ∈ l -> P x <-> Q x) -> filter P l = filter Q l.
Proof.
  induction l as [|a l IH]; intros Hext; [done |].
  rewrite !filter_cons, IH by (intros; apply Hext; by right).
  destruct (decide (P a)) as [Hp|Hp], (decide (Q a)) as [Hq|Hq]; try done.
  - exfalso. apply Hq, (Hext a); [by left | done].
  - exfalso. apply Hp, (Hext a); [by left | done].
Qed.

(** On a dictionary the comprehension [{k: v for k, v in d.items() if
    cond}] is the filter of its entries. *)
Lemma filter_comprehension {K V : Type} `{EqDecision K} (P : K * V -> Prop)
    `{forall x, Decision (P x)} (d : dict K V) :
  dict_wf d -> dict_comprehension fst snd (filter P d) = filter P d.
Proof.
  intros Hwf. rewrite dict_comprehension_NoDup by (by apply filter_wf).
  rewrite <- (list_fmap_id (filter P d)) at 2.
  apply list_fmap_ext. by intros _ [k v] _.
Qed.

Lemma identify_conflicts_run h schedule entries :
  h !! schedule = Some (ODemand entries) ->
  (forall item, item ∈ entries -> is_Some (names_at h item.2)) ->
  Heap.identify_conflicts schedule h
  = (Ok (length h),
     h ++ [ODemand (dict_comprehension fst snd
                      (filter (fun item => crowded h item = true) entries))]).
Proof.
  intros Hs Hall. unfold Heap.identify_conflicts.
  rewrite (bind_ok _ _ h entries h) by (by apply load_demand_run).
  by rewrite (bind_ok _ _ h _ h (filter_m_crowded h entries Hall)).
Qed.

(** Days with more than one candidate, at the value level. *)
Lemma entries_at_crowded h (entries : dict Z loc) (d : dict Z (list string)) :
  entries_at (names_at h) entries = Some d ->
  entries_at (names_at h) (filter (fun item => crowded h item = true) entries)
  = Some (filter (fun item => 1 < len item.2) d)
  /\ dict_keys entries = dict_keys d.
Proof.
  revert d. induction entries as [|[k l] entries IH]; intros d.
  - intros [= <-]. done.
  - rewrite entries_at_cons.
    destruct (names_at h l) as [names|] eqn:En; [ | done].
    destruct (entries_at (names_at h) entries) as [d'|]; [ | done].
    intros [= <-]. destruct (IH d' eq_refl) as [IH1 IH2].
    assert (crowded h (k, l) = (1 <? len names)) as Hc
        by (unfold crowded; simpl; by rewrite En).
    rewrite !filter_cons, Hc.
    split; [ | unfold dict_keys in *; rewrite !fmap_cons; by f_equal].
    simpl. destruct (Z.ltb_spec 1 (len names)).
    + rewrite decide_True, decide_True by done.
      by rewrite entries_at_cons, En, IH1.
    + rewrite decide_False, decide_False by (done || lia). done.
Qed.

End HeapFacts.

(** C9: [finalize_schedule] changes none of its inputs. Whatever the
    store, the references and the random source, the store after the call
    (returned or raised) is the store before it followed by new objects,
    so every object that existed is unchanged: the demand map and its
    lists, the resolution map, the roster and each doctor's record with
    its wanted and excluded days and its bound are read back as before.
    A returned reference is the first new location, and what was created
    are exactly the final schedule and the shift counter. *)
Theorem finalize_schedule_leaves_inputs
    (schedule resolved_schedule doctors : nat) (g : rng) (h : list Heap.obj) :
  exists fresh,
    (Heap.finalize_schedule schedule resolved_schedule doctors g h).2
    = h ++ fresh
    /\ (forall l o, h !! l = Some o -> (h ++ fresh) !! l = Some o)
    /\ (forall d, Heap.demand_at h schedule = Some d ->
                  Heap.demand_at (h ++ fresh) schedule = Some d)
    /\ (forall d, Heap.resolved_at h resolved_schedule = Some d ->
                  Heap.resolved_at (h ++ fresh) resolved_schedule = Some d)
    /\ (forall d, Heap.roster_at h doctors = Some d ->
                  Heap.roster_at (h ++ fresh) doctors = Some d)
    /\ (forall l,
          (Heap.finalize_schedule schedule resolved_schedule doctors g h).1
          = Ok l ->
          l = length h /\ h !! l = None
          /\ exists fs count, fresh = [Heap.OFinal fs; Heap.OCount count]).
Proof.
  pose proof (HeapFacts.finalize_schedule_frame h schedule resolved_schedule
                doctors g h eq_refl) as Hframe.
  destruct (Heap.finalize_schedule schedule resolved_schedule doctors g h)
    as [[l|e] h'] eqn:Hrun; simpl.
  - destruct Hframe as (-> & fs & count & ->).
    exists [Heap.OFinal fs; Heap.OCount count].
    split; [done |]. split; [intros; by apply lookup_app_l_Some |].
    split; [intros; by apply HeapFacts.demand_at_app |].
    split; [intros; by apply HeapFacts.resolved_at_app |].
    split; [intros; by apply HeapFacts.roster_at_app |].
    intros l [= <-]. split; [done |].
    split; [by apply lookup_ge_None | eauto].
  - destruct Hframe as (fresh & ->). exists fresh.
    split; [done |]. split; [intros; by apply lookup_app_l_Some |].
    split; [intros; by apply HeapFacts.demand_at_app |].
    split; [intros; by apply HeapFacts.resolved_at_app |].
    split; [intros; by apply HeapFacts.roster_at_app |].
    intros l [=].
Qed.

(** The first example of the specification, run on a store. *)
Lemma finalize_schedule_on_example_store :
  Heap.finalize_schedule 3 4 8 (fun _ => 0%nat) example_store
  = (Ok 9%nat,
     example_store
       ++ [Heap.OFinal [(1, Some doctor_A); (2, None); (3, None)];
           Heap.OCount [(doctor_A, 2)]]).
Proof. reflexivity. Qed.

(** At the value level the conflicts are the entries with more than one
    candidate. *)
Lemma identify_conflicts_filter (schedule : dict Z (list string)) :
  dict_wf schedule ->
  identify_conflicts schedule = filter (fun item => 1 < len item.2) schedule.
Proof. apply HeapFacts.filter_comprehension. Qed.

(** C8: on a demand map, [identify_conflicts] returns a new dictionary
    that holds exactly the entries whose list has more than one doctor,
    each day with the very list object of the demand map; the store it
    was given is a prefix of the store it leaves, so nothing was changed;
    and a second call returns a dictionary with the same entries. Read as
    values, the result is the filter of the demand map. *)
Theorem identify_conflicts_is_filter
    (h : list Heap.obj) (schedule : nat) (entries : dict Z nat)
    (demand : dict Z (list string)) :
  h !! schedule = Some (Heap.ODemand entries) ->
  dict_wf entries ->
  Heap.entries_at (Heap.names_at h) entries = Some demand ->
  exists conflicts,
    Heap.identify_conflicts schedule h
    = (Ok (length h), h ++ [Heap.ODemand conflicts])
    /\ (forall day l,
          (day, l) ∈ conflicts <->
          (day, l) ∈ entries
          /\ exists names, Heap.names_at h l = Some names /\ 1 < len names)
    /\ Heap.demand_at (h ++ [Heap.ODemand conflicts]) (length h)
       = Some (identify_conflicts demand)
    /\ identify_conflicts demand = filter (fun item => 1 < len item.2) demand
    /\ Heap.demand_at (h ++ [Heap.ODemand conflicts]) schedule = Some demand
    /\ Heap.identify_conflicts schedule (h ++ [Heap.ODemand conflicts])
       = (Ok (S (length h)),
          h ++ [Heap.ODemand conflicts; Heap.ODemand conflicts]).
Proof.
  intros Hs Hwf Hdemand.
  assert (forall item, item ∈ entries -> is_Some (Heap.names_at h item.2))
    as Hall.
  { clear Hs Hwf. revert demand Hdemand.
    induction entries as [|[k l] entries IH]; intros demand Hd item Hin;
      [by apply elem_of_nil in Hin |].
    rewrite HeapFacts.entries_at_cons in Hd.
    destruct (Heap.names_at h l) as [names|] eqn:En; [ | done].
    destruct (Heap.entries_at (Heap.names_at h) entries) as [d'|] eqn:Ed;
      [ | done].
    apply elem_of_cons in Hin as [-> | Hin]; [simpl; eauto |].
    by apply (IH d'). }
  set (conflicts := filter (fun item => crowded h item = true) entries).
  pose proof (HeapFacts.entries_at_crowded h entries demand Hdemand)
    as [Hread Hkeys].
  assert (dict_wf demand) as Hwfd by (unfold dict_wf; by rewrite <- Hkeys).
  exists conflicts. split; [ | split; [ | split; [ | split; [ | split]]]].
  - rewrite (HeapFacts.identify_conflicts_run h schedule entries Hs Hall).
    by rewrite HeapFacts.filter_comprehension.
  - intros day l. unfold conflicts. rewrite list_elem_of_filter.
    unfold crowded. simpl. split.
    + intros [Hc Hin]. split; [done |].
      destruct (Heap.names_at h l) as [names|]; [ | done].
      exists names. split; [done |]. by apply Z.ltb_lt.
    + intros [Hin (names & -> & Hlen)]. split; [ | done]. by apply Z.ltb_lt.
  - unfold Heap.demand_at.
    rewrite lookup_app_r, Nat.sub_diag by lia. simpl.
    rewrite identify_conflicts_filter by done.
    apply (HeapFacts.entries_at_mono (Heap.names_at h)); [ | done].
    intros ? ?. apply HeapFacts.names_at_app.
  - by apply identify_conflicts_filter.
  - apply HeapFacts.demand_at_app. unfold Heap.demand_at. by rewrite Hs.
  - rewrite (HeapFacts.identify_conflicts_run _ schedule entries).
    + rewrite HeapFacts.filter_comprehension by done.
      rewrite length_app, <- app_assoc. simpl.
      replace (length h + 1)%nat with (S (length h)) by lia.
      rewrite (HeapFacts.filter_ext_in
                 (fun item => crowded (h ++ [Heap.ODemand conflicts]) item = true)
                 (fun item => crowded h item = true) entries); [done |].
      intros item Hin. by rewrite HeapFacts.crowded_app by (by apply Hall).
    + by apply lookup_app_l_Some.
    + intros item Hin. destruct (Hall item Hin) as [names Hn].
      exists names. by apply HeapFacts.names_at_app.
Qed.

Lemma identify_conflicts_is_filter_witness :
  exists conflicts,
    Heap.identify_conflicts 3 conflict_store
    = (Ok (length conflict_store), conflict_store ++ [Heap.ODemand conflicts])
    /\ (forall day l,
          (day, l) ∈ conflicts <->
          (day, l) ∈ [(1, 0%nat); (2, 1%nat); (3, 2%nat)]
          /\ exists names,
               Heap.names_at conflict_store l = Some names /\ 1 < len names)
    /\ Heap.demand_at (conflict_store ++ [Heap.ODemand conflicts])
         (length conflict_store)
       = Some (identify_conflicts
                 [(1, [doctor_A; doctor_B]); (2, [doctor_A]); (3, [])])
    /\ identify_conflicts [(1, [doctor_A; doctor_B]); (2, [doctor_A]); (3, [])]
       = filter (fun item => 1 < len item.2)
           [(1, [doctor_A; doctor_B]); (2, [doctor_A]); (3, [])]
    /\ Heap.demand_at (conflict_store ++ [Heap.ODemand conflicts]) 3
       = Some [(1, [doctor_A; doctor_B]); (2, [doctor_A]); (3, [])]
    /\ Heap.identify_conflicts 3 (conflict_store ++ [Heap.ODemand conflicts])
       = (Ok (S (length conflict_store)),
          conflict_store ++ [Heap.ODemand conflicts; Heap.ODemand conflicts]).
Proof.
  apply (identify_conflicts_is_filter conflict_store 3
           [(1, 0%nat); (2, 1%nat); (3, 2%nat)]).
  - reflexivity.
  - apply (bool_decide_unpack _). vm_compute. exact I.
  - reflexivity.
Defined.

(** Whatever the store, the detector writes to none of its objects. *)
Lemma identify_conflicts_frame (h0 : list Heap.obj) (schedule : nat) :
  Heap.triple (fun h => h = h0) (Heap.identify_conflicts schedule)
    (fun l h => l = length h0 /\ exists conflicts, h = h0 ++ [Heap.ODemand conflicts])
    (fun _ h => h = h0).
Proof.
  unfold Heap.identify_conflicts.
  eapply HeapFacts.triple_bind;
    [apply (HeapFacts.preserves_load_demand (fun h => h = h0)) |].
  intros items. simpl.
  eapply HeapFacts.triple_bind.
  - apply (HeapFacts.preserves_filter (fun h => h = h0)).
    intros item. apply HeapFacts.preserves_bind;
      [apply HeapFacts.preserves_load_names | intros; apply HeapFacts.preserves_ret].
  - intros kept h ->. simpl. eauto.
Qed.

(** * The value-level finaliser is the store-level one *)

Module Refinement.

Import Heap HeapFacts.
Local Open Scope store_scope.

Lemma sim_bind {A A' B B' : Type} (rel1 : A -> store -> A' -> Prop)
    (rel2 : B -> store -> B' -> Prop) (m : M A) (k : A -> M B)
    (r : result A') (k' : A' -> result B') h :
  sim rel1 (m h) r ->
  (forall a h1 a', rel1 a h1 a' -> sim rel2 (k a h1) (k' a')) ->
  sim rel2 (bind m k h) (rbind r k').
Proof.
  intros Hm Hk. destruct r as [a'|e]; simpl in *.
  - destruct Hm as (a & h1 & Hrun & Hrel). rewrite (bind_ok _ _ _ _ _ Hrun).
    by apply Hk.
  - unfold bind. destruct (m h) as [[a|e'] h1]; simpl in *; congruence.
Qed.

(** A loop simulates a loop when the bodies do, over related items. *)
Lemma sim_for_each {S S' X X' : Type} (relx : X -> X' -> Prop)
    (rel : S -> store -> S' -> Prop) (body : S -> X -> M S)
    (body' : S' -> X' -> result S') (xs : list X) (xs' : list X') :
  Forall2 relx xs xs' ->
  (forall s h s' x x',
      relx x x' -> rel s h s' -> sim rel (body s x h) (body' s' x')) ->
  forall s h s', rel s h s' ->
    sim rel (for_each_m body xs s h) (for_each body' xs' s').
Proof.
  intros Hxs Hbody. induction Hxs as [|x x' xs xs' Hx Hxs IH]; intros s h s' Hs.
  - simpl. eauto.
  - cbn [for_each_m for_each]. eapply sim_bind; [by apply Hbody |].
    intros a h1 a' Ha. by apply IH.
Qed.

(** ** Entries of a dictionary of references *)

Lemma entries_at_Forall2 {K V : Type} (read : loc -> option V)
    (entries : dict K loc) (d : dict K V) :
  entries_at read entries = Some d ->
  Forall2 (fun e v => e.1 = v.1 /\ read e.2 = Some v.2) entries d.
Proof.
  revert d. induction entries as [|[k l] entries IH]; intros d.
  - intros [= <-]. constructor.
  - rewrite entries_at_cons. destruct (read l) as [v|] eqn:Ev; [ | done].
    destruct (entries_at read entries) as [d'|]; [ | done].
    intros [= <-]. constructor; [done | by apply IH].
Qed.

Lemma entries_at_get {K V : Type} `{EqDecision K} (read : loc -> option V)
    (entries : dict K loc) (d : dict K V) (k : K) :
  entries_at read entries = Some d ->
  dict_get d k = dict_get entries k ≫= read.
Proof.
  revert d. induction entries as [|[k' l] entries IH]; intros d.
  - by intros [= <-].
  - rewrite entries_at_cons. destruct (read l) as [v|] eqn:Ev; [ | done].
    destruct (entries_at read entries) as [d'|]; [ | done].
    intros [= <-]. simpl. destruct (decide (k = k')); [done | by apply IH].
Qed.

Lemma details_at_inv h l det :
  details_at h l = Some det ->
  exists excluded wanted,
    h !! l = Some (ODetails excluded wanted (num_shifts det))
    /\ days_at h excluded = Some (excluded_days det)
    /\ days_at h wanted = Some (wanted_days det).
Proof.
  unfold details_at. destruct (h !! l) as [[| |excluded wanted bound| | | | |]|];
    try done.
  destruct (days_at h excluded) as [ex|] eqn:Eex; [ | done].
  destruct (days_at h wanted) as [wa|] eqn:Ewa; [ | done].
  intros [= <-]. simpl. eauto.
Qed.

(** ** The two dictionaries, behind the caller's store *)

Section Steps.
Variable h0 : store.

Lemma store_of_final st :
  store_of h0 st !! (length h0) = Some (OFinal (final_schedule st)).
Proof.
  unfold store_of.
  by rewrite lookup_app_r, Nat.sub_diag by lia.
Qed.

Lemma store_of_count st :
  store_of h0 st !! (S (length h0))
  = Some (OCount (doctor_shift_count st)).
Proof.
  unfold store_of. rewrite lookup_app_r by lia.
  by replace (S (length h0) - length h0)%nat with 1%nat by lia.
Qed.

Lemma store_of_caller st l o :
  h0 !! l = Some o -> store_of h0 st !! l = Some o.
Proof. apply lookup_app_l_Some. Qed.

Lemma store_of_names st l names :
  names_at h0 l = Some names -> names_at (store_of h0 st) l = Some names.
Proof. apply names_at_app. Qed.

Lemma store_of_days st l days :
  days_at h0 l = Some days -> days_at (store_of h0 st) l = Some days.
Proof. apply days_at_app. Qed.

Lemma final_set_run st day v :
  final_set (length h0) day v (store_of h0 st)
  = (Ok tt,
     store_of h0 {| final_schedule := dict_set (final_schedule st) day v;
                    doctor_shift_count := doctor_shift_count st;
                    rnd := rnd st |}).
Proof.
  unfold final_set.
  rewrite (bind_ok _ _ _ _ _ (load_final_run _ _ _ (store_of_final st))).
  unfold store_at, store_of. simpl. f_equal.
  replace (length h0) with (length h0 + 0)%nat at 1 by lia.
  by rewrite insert_app_r.
Qed.

Lemma final_item_run st day :
  final_item (length h0) day (store_of h0 st)
  = (dict_item (final_schedule st) day, store_of h0 st).
Proof.
  unfold final_item.
  by rewrite (bind_ok _ _ _ _ _ (load_final_run _ _ _ (store_of_final st))).
Qed.

Lemma final_len_run st :
  final_len (length h0) (store_of h0 st)
  = (Ok (len (final_schedule st)), store_of h0 st).
Proof.
  unfold final_len.
  by rewrite (bind_ok _ _ _ _ _ (load_final_run _ _ _ (store_of_final st))).
Qed.

Lemma count_incr_run st doctor :
  count_incr (S (length h0)) doctor (store_of h0 st)
  = match incr (doctor_shift_count st) doctor with
    | Ok count =>
        (Ok tt,
         store_of h0 {| final_schedule := final_schedule st;
                        doctor_shift_count := count; rnd := rnd st |})
    | Raise e => (Raise e, store_of h0 st)
    end.
Proof.
  unfold count_incr.
  rewrite (bind_ok _ _ _ _ _ (load_count_run _ _ _ (store_of_count st))).
  unfold bind, lift. destruct (incr (doctor_shift_count st) doctor); [ | done].
  unfold store_at, store_of. simpl. f_equal.
  replace (S (length h0)) with (length h0 + 1)%nat by lia.
  by rewrite insert_app_r.
Qed.
End Steps.

Lemma alloc_run o h : alloc o h = (Ok (length h), h ++ [o]).
Proof. reflexivity. Qed.

Lemma bind_run {A B : Type} (m : M A) (k : A -> M B) h r h' :
  m h = (r, h') ->
  bind m k h = match r with Ok a => k a h' | Raise e => (Raise e, h') end.
Proof. unfold bind. by intros ->. Qed.

(** A comprehension over a condition that only reads. *)
Lemma filter_m_run {X : Type} (cond : X -> M bool) (cond' : X -> result bool)
    (xs : list X) h :
  (forall x, cond x h = (cond' x, h)) ->
  filter_m cond xs h = (filter_raising cond' xs, h).
Proof.
  intros Hcond. induction xs as [|x xs IH]; [done |].
  cbn [filter_m filter_raising]. rewrite (bind_run _ _ _ _ _ (Hcond x)).
  destruct (cond' x) as [b|e]; [ | done]. simpl.
  rewrite (bind_run _ _ _ _ _ IH).
  by destruct (filter_raising cond' xs).
Qed.

Lemma entries_at_lookup {K V : Type} `{EqDecision K} (read : loc -> option V)
    (entries : dict K loc) (d : dict K V) (k : K) :
  entries_at read entries = Some d ->
  match dict_get entries k with
  | Some l => exists v, read l = Some v /\ dict_get d k = Some v
  | None => dict_get d k = None
  end.
Proof.
  revert d. induction entries as [|[k' l] entries IH]; intros d.
  - by intros [= <-].
  - rewrite entries_at_cons. destruct (read l) as [v|] eqn:Ev; [ | done].
    destruct (entries_at read entries) as [d'|]; [ | done].
    intros [= <-]. simpl. destruct (decide (k = k')); [eauto | by apply IH].
Qed.

Lemma comprehension_same_keys {K V V' W : Type} `{EqDecision K} (w : W)
    (xs : dict K V) (ys : dict K V') :
  Forall2 (fun x y => x.1 = y.1) xs ys ->
  dict_comprehension fst (fun _ => w) xs = dict_comprehension fst (fun _ => w) ys.
Proof.
  unfold dict_comprehension. generalize (@nil (K * W)).
  intros acc Hall. revert acc.
  induction Hall as [|x y xs ys Hxy _ IH]; intros acc; [done |].
  simpl. rewrite Hxy. apply IH.
Qed.

(** ** The three loops *)

Section Passes.
Variable h0 : store.
Variables (schedule resolved_schedule doctors : loc).
Variables (resolved : dict Z string) (roster : dict string loc)
          (doctors_v : dict string details).
Hypothesis Hresolved : h0 !! resolved_schedule = Some (OResolved resolved).
Hypothesis Hroster : h0 !! doctors = Some (ORoster roster).
Hypothesis Hdetails : entries_at (details_at h0) roster = Some doctors_v.

Lemma seed_step_sim st day l names :
  names_at h0 l = Some names ->
  sim (fun _ h st' => holds_state h0 (rnd st) h st')
    (Heap.seed_step resolved_schedule (length h0)
       (S (length h0)) tt (day, l) (store_of h0 st))
    (value_seed_step resolved st (day, names)).
Proof.
  intros Hnames. unfold Heap.seed_step, value_seed_step, holds_state.
  rewrite (bind_ok _ _ _ _ _
             (load_resolved_run _ _ _ (store_of_caller h0 st _ _ Hresolved))); cbv beta.
  destruct (dict_mem resolved day).
  - unfold lift at 1. rewrite (bind_run _ _ _ _ _ eq_refl).
    destruct (dict_item resolved day) as [r|e]; [ | done]. simpl.
    rewrite (bind_ok _ _ _ _ _ (final_set_run h0 st day (Some r))); cbv beta.
    rewrite count_incr_run. simpl.
    destruct (incr (doctor_shift_count st) r); simpl; [by eexists _, _ | done].
  - rewrite (bind_ok _ _ _ _ _
               (load_names_run _ _ _ (store_of_names h0 st _ _ Hnames))).
    destruct names as [|a [|]].
    + rewrite final_set_run. simpl. by eexists _, _.
    + rewrite (bind_ok _ _ _ _ _ (final_set_run h0 st day (Some a))).
      rewrite count_incr_run. simpl.
      destruct (incr (doctor_shift_count st) a); simpl; [by eexists _, _ | done].
    + rewrite final_set_run. simpl. by eexists _, _.
Qed.

Lemma is_available_run st day entry :
  Heap.is_available doctors (length h0) day entry (store_of h0 st)
  = (value_is_available doctors_v (final_schedule st) day entry,
     store_of h0 st).
Proof.
  destruct entry as [x c]. unfold Heap.is_available, value_is_available.
  rewrite (bind_ok _ _ _ _ _
             (load_roster_run _ _ _ (store_of_caller h0 st _ _ Hroster))); cbv beta.
  unfold lift at 1. rewrite (bind_run _ _ _ _ _ eq_refl).
  pose proof (entries_at_lookup _ _ _ x Hdetails) as Hx.
  unfold dict_item at 1.
  destruct (dict_get roster x) as [record|];
    [ | by unfold dict_item at 1; rewrite Hx].
  destruct Hx as (det & Hdet & Hget).
  unfold dict_item at 1. rewrite Hget. cbn [rbind].
  apply details_at_inv in Hdet as (excluded & wanted & Hrec & Hex & _).
  rewrite (bind_ok _ _ _ _ _
             (load_details_run _ _ _ _ _ (store_of_caller h0 st _ _ Hrec))); cbv beta.
  destruct (negb (shifts_left (num_shifts det) c)); [done |].
  rewrite (bind_ok _ _ _ _ _
             (load_days_run _ _ _ (store_of_days h0 st _ _ Hex))); cbv beta.
  case_bool_decide; [done |].
  assert ((if day =? 1 then ret true
           else v <- final_item (length h0) (day - 1) ;;
                ret (slot_differs v x)) (store_of h0 st)
          = ((if day =? 1 then Ok true
              else (v <- dict_item (final_schedule st) (day - 1) ;;
                    Ok (slot_differs v x))%result), store_of h0 st)) as Hbefore.
  { destruct (day =? 1); [done |].
    rewrite (bind_run _ _ _ _ _ (final_item_run h0 st (day - 1))); cbv beta.
    by destruct (dict_item (final_schedule st) (day - 1)). }
  rewrite (bind_run _ _ _ _ _ Hbefore); cbv beta.
  destruct (if day =? 1 then Ok true else _) as [before|e]; [ | done]. simpl.
  destruct (negb before); [done |].
  rewrite (bind_ok _ _ _ _ _ (final_len_run h0 st)); cbv beta.
  destruct (day =? len (final_schedule st)); [done |].
  rewrite (bind_run _ _ _ _ _ (final_item_run h0 st (day + 1))); cbv beta.
  by destruct (dict_item (final_schedule st) (day + 1)).
Qed.

Lemma fill_step_sim st day :
  sim (fun g h st' => holds_state h0 g h st')
    (Heap.fill_step doctors (length h0) (S (length h0))
       (rnd st) day (store_of h0 st))
    (value_fill_step doctors_v st day).
Proof.
  unfold Heap.fill_step, value_fill_step, holds_state.
  rewrite (bind_run _ _ _ _ _ (final_item_run h0 st day)); cbv beta.
  destruct (dict_item (final_schedule st) day) as [[y|]|e]; simpl;
    [by eexists _, _ | | done].
  rewrite (bind_ok _ _ _ _ _ (load_count_run _ _ _ (store_of_count h0 st))); cbv beta.
  rewrite (bind_run _ _ _ _ _
             (filter_m_run _ _ _ _ (is_available_run st day))); cbv beta.
  destruct (filter_raising _ (doctor_shift_count st)) as [available|e];
    simpl; [ | done].
  destruct available as [|entry available]; [by eexists _, _ |].
  unfold lift at 1. rewrite (bind_run _ _ _ _ _ eq_refl).
  destruct (random_choice (rnd st) _) as [[selected g']|e]; simpl; [ | done].
  rewrite (bind_ok _ _ _ _ _ (final_set_run h0 st day (Some selected))); cbv beta.
  unfold bind at 1. rewrite count_incr_run. simpl.
  destruct (incr (doctor_shift_count st) selected); simpl; [ | done].
  eexists _, _. split; [reflexivity |]. done.
Qed.

Lemma cleanup_step_sim count g fs day :
  let state fs := {| final_schedule := fs; doctor_shift_count := count;
                     rnd := g |} in
  sim (fun _ h fs' => h = store_of h0 (state fs'))
    (Heap.cleanup_step (length h0) tt day (store_of h0 (state fs)))
    (value_cleanup_step fs day).
Proof.
  intros state. unfold Heap.cleanup_step, value_cleanup_step.
  rewrite (bind_run _ _ _ _ _ (final_item_run h0 (state fs) day)); cbv beta. simpl.
  destruct (dict_item fs day) as [a|e]; simpl; [ | done].
  rewrite (bind_run _ _ _ _ _ (final_item_run h0 (state fs) (day - 1))); cbv beta. simpl.
  destruct (dict_item fs (day - 1)) as [b|e]; simpl; [ | done].
  case_bool_decide.
  - rewrite final_set_run. simpl. eauto.
  - simpl. eauto.
Qed.
Lemma sim_weaken {A B : Type} (rel rel' : A -> store -> B -> Prop) out r :
  sim rel out r -> (forall a h b, rel a h b -> rel' a h b) -> sim rel' out r.
Proof.
  intros Hsim Hrel. destruct r as [b|e]; [ | done].
  destruct Hsim as (a & h & -> & Hab). exists a, h. eauto.
Qed.

Variables (entries : dict Z loc) (demand : dict Z (list string)).
Hypothesis Hschedule : h0 !! schedule = Some (ODemand entries).
Hypothesis Hdemand : entries_at (names_at h0) entries = Some demand.

Lemma run_passes_sim st0 :
  sim (fun _ h fs => exists count, h = h0 ++ [OFinal fs; OCount count])
    (run_passes schedule resolved_schedule doctors (length h0) (S (length h0))
       (rnd st0) (store_of h0 st0))
    (st1 <- for_each (value_seed_step resolved) demand st0 ;;
     st2 <- fill_pass doctors_v st1 ;;
     cleanup_pass (final_schedule st2))%result.
Proof.
  unfold run_passes.
  rewrite (bind_ok _ _ _ _ _
             (load_demand_run _ _ _ (store_of_caller h0 st0 _ _ Hschedule)));
    cbv beta.
  eapply (sim_bind (fun _ h st => holds_state h0 (rnd st0) h st)).
  { apply (sim_for_each
             (fun (e : Z * loc) (v : Z * list string) =>
                e.1 = v.1 /\ names_at h0 e.2 = Some v.2)
             (fun _ h st => holds_state h0 (rnd st0) h st)).
    - by apply entries_at_Forall2.
    - intros [] h st [day l] [day' names] [Hday Hnames] [-> Hrnd].
      simpl in Hday, Hnames. subst day'. rewrite <- Hrnd.
      by apply seed_step_sim.
    - done. }
  intros _ h1 st1 [-> Hrnd1].
  rewrite (bind_ok _ _ _ _ _ (final_len_run h0 st1)); cbv beta.
  eapply (sim_bind (fun g h st => holds_state h0 g h st)).
  { unfold fill_pass. rewrite <- Hrnd1.
    apply (sim_for_each eq (fun g h st => holds_state h0 g h st)).
    - apply Forall_Forall2_diag, Forall_true. done.
    - intros g h st day day' <- [-> <-]. apply fill_step_sim.
    - done. }
  intros g2 h2 st2 [-> _].
  rewrite (bind_ok _ _ _ _ _ (final_len_run h0 st2)); cbv beta.
  unfold cleanup_pass.
  eapply sim_weaken.
  - apply (sim_for_each eq
             (fun _ h fs =>
                h = store_of h0 {| final_schedule := fs;
                                   doctor_shift_count := doctor_shift_count st2;
                                   rnd := rnd st2 |})).
    + apply Forall_Forall2_diag, Forall_true. done.
    + intros [] h fs day day' <- ->. apply cleanup_step_sim.
    + by destruct st2.
  - intros _ h fs ->. by eexists.
Qed.

Lemma count_comprehension_roster :
  dict_comprehension fst (fun _ => 0) roster
  = dict_comprehension fst (fun _ => 0) doctors_v.
Proof.
  apply comprehension_same_keys.
  eapply Forall2_impl; [by apply entries_at_Forall2 |]. by intros ? ? [? _].
Qed.

(** The store-level function run on a store that holds the demand map,
    the resolution map and the roster returns what the value-level
    function returns on these values, in a new dictionary at the first
    free location; when one raises, the other raises the same exception. *)
Lemma finalize_schedule_sim g :
  sim (fun l h fs =>
         l = length h0 /\ exists count, h = h0 ++ [OFinal fs; OCount count])
    (Heap.finalize_schedule schedule resolved_schedule doctors g h0)
    (value_finalize_schedule demand resolved doctors_v g).
Proof.
  unfold Heap.finalize_schedule, value_finalize_schedule, seed_pass.
  rewrite (bind_ok _ _ _ _ _ (alloc_run _ _)); cbv beta.
  rewrite (bind_ok _ _ _ _ _
             (load_roster_run _ _ _ (lookup_app_l_Some _ _ _ _ Hroster)));
    cbv beta.
  rewrite (bind_ok _ _ _ _ _ (alloc_run _ _)); cbv beta.
  rewrite length_app, <- app_assoc. simpl length. simpl app.
  replace (length h0 + 1)%nat with (S (length h0)) by lia.
  rewrite count_comprehension_roster.
  set (st0 := {| final_schedule := [];
                 doctor_shift_count := dict_comprehension fst (fun _ => 0) doctors_v;
                 rnd := g |}).
  change (h0 ++ [OFinal []; OCount (dict_comprehension fst (fun _ => 0) doctors_v)])
    with (store_of h0 st0).
  pose proof (run_passes_sim st0) as Hrun. simpl rnd in Hrun.
  destruct (rbind (for_each (value_seed_step resolved) demand st0) _)
    as [fs|e]; simpl in Hrun |- *.
  - destruct Hrun as ([] & h & Hrun & count & ->).
    rewrite (bind_ok _ _ _ _ _ Hrun). eexists _, _. split; [reflexivity |].
    eauto.
  - unfold bind at 1. destruct (run_passes _ _ _ _ _ _ _) as [[u|e'] h];
      simpl in *; congruence.
Qed.
End Passes.

End Refinement.

(** Refinement: on a store in which the three references hold a demand
    map, a resolution map and a roster, the store-level
    [Heap.finalize_schedule] and the value-level [finalize_schedule] agree:
    both return the same schedule, which the store-level function puts in
    a new dictionary at the first free location, or both raise the same
    exception. *)
Theorem finalize_schedule_refines
    (h0 : list Heap.obj) (schedule resolved_schedule doctors : nat)
    (demand : dict Z (list string)) (resolved : dict Z string)
    (roster : dict string details) (g : rng) :
  Heap.demand_at h0 schedule = Some demand ->
  Heap.resolved_at h0 resolved_schedule = Some resolved ->
  Heap.roster_at h0 doctors = Some roster ->
  Heap.sim
    (fun l h fs =>
       l = length h0
       /\ exists count, h = h0 ++ [Heap.OFinal fs; Heap.OCount count])
    (Heap.finalize_schedule schedule resolved_schedule doctors g h0)
    (finalize_schedule demand resolved roster g).
Proof.
  unfold Heap.demand_at, Heap.resolved_at, Heap.roster_at.
  destruct (h0 !! schedule) as [[| | | |entries| | |]|] eqn:Hs; try done.
  destruct (h0 !! resolved_schedule) as [[| | | | |resolved'| |]|] eqn:Hr;
    try done.
  destruct (h0 !! doctors) as [[| | |rentries| | | |]|] eqn:Hd; try done.
  intros Hdemand [= ->] Hroster.
  by apply (Refinement.finalize_schedule_sim h0 schedule resolved_schedule
              doctors resolved rentries roster Hr Hd Hroster entries demand Hs).
Qed.

(** The refinement on the store of the first example. *)
Lemma finalize_schedule_refines_example :
  Heap.sim
    (fun l h fs =>
       l = 9%nat
       /\ exists count, h = example_store ++ [Heap.OFinal fs; Heap.OCount count])
    (Heap.finalize_schedule 3 4 8 (fun _ => 0%nat) example_store)
    (finalize_schedule [(1, [doctor_A]); (2, [doctor_A]); (3, [])] []
       roster_one_shift (fun _ => 0%nat)).
Proof.
  apply (finalize_schedule_refines example_store 3 4 8); reflexivity.
Qed.

(** Through the refinement the value-level results hold of the
    store-level function; for instance an unknown doctor in the resolution
    map makes it raise [KeyError] as well. *)
Corollary store_raises_on_unknown_doctor
    (h0 : list Heap.obj) (schedule resolved_schedule doctors : nat)
    (demand : dict Z (list string)) (resolved : dict Z string)
    (roster : dict string details) (g : rng) (day : Z) (r : string) :
  Heap.demand_at h0 schedule = Some demand ->
  Heap.resolved_at h0 resolved_schedule = Some resolved ->
  Heap.roster_at h0 doctors = Some roster ->
  day ∈ dict_keys demand ->
  dict_get resolved day = Some r ->
  r ∉ dict_keys roster ->
  (Heap.finalize_schedule schedule resolved_schedule doctors g h0).1
  = Raise KeyError.
Proof.
  intros Hdemand Hresolved Hroster Hday Hr Hunknown.
  pose proof (finalize_schedule_refines _ _ _ _ _ _ _ g
                Hdemand Hresolved Hroster) as Hsim.
  assert (finalize_schedule demand resolved roster g = Raise KeyError) as Hv.
  { unfold finalize_schedule, seed_pass.
    rewrite (seed_loop_unknown_doctor resolved day r); try done.
    simpl. by rewrite dict_comprehension_keys. }
  by rewrite Hv in Hsim.
Qed.

(** * Further properties of the finaliser *)

(** ** Exceptions *)

Lemma is_available_raise doctors fs day entry e :
  is_available doctors fs day entry = Raise e -> e = KeyError.
Proof.
  destruct entry as [x c]. unfold is_available.
  destruct (dict_item doctors x) as [det|e'] eqn:Hdet; simpl;
    [ | intros [= <-]; by apply dict_item_raise in Hdet].
  destruct (negb (shifts_left (num_shifts det) c)); [done |].
  case_bool_decide; [done |].
  destruct (day =? 1); simpl.
  - destruct (day =? len fs); [done |].
    destruct (dict_item fs (day + 1)) as [v|e'] eqn:Hv; simpl; [done |].
    intros [= <-]. by apply dict_item_raise in Hv.
  - destruct (dict_item fs (day - 1)) as [v|e'] eqn:Hv; simpl;
      [ | intros [= <-]; by apply dict_item_raise in Hv].
    destruct (negb (slot_differs v x)); [done |].
    destruct (day =? len fs); [done |].
    destruct (dict_item fs (day + 1)) as [w|e'] eqn:Hw; simpl; [done |].
    intros [= <-]. by apply dict_item_raise in Hw.
Qed.

Lemma filter_raising_raise {X : Type} (cond : X -> result bool) (xs : list X) e :
  filter_raising cond xs = Raise e -> exists x, x ∈ xs /\ cond x = Raise e.
Proof.
  induction xs as [|x xs IH]; [done |]. simpl.
  destruct (cond x) as [b|e'] eqn:Hx; simpl.
  - destruct (filter_raising cond xs) as [rest|e'] eqn:Hrest; simpl; [done |].
    intros [= <-]. destruct (IH eq_refl) as (y & Hy & He).
    exists y. split; [by right | done].
  - intros [= <-]. exists x. split; [by left | done].
Qed.

Lemma fill_step_raise doctors st day e :
  fill_step doctors st day = Raise e -> e = KeyError.
Proof.
  unfold fill_step.
  destruct (dict_item (final_schedule st) day) as [[y|]|e'] eqn:Hv; simpl;
    [done | | intros [= <-]; by apply dict_item_raise in Hv].
  destruct (filter_raising _ (doctor_shift_count st)) as [available|e'] eqn:Hav;
    simpl.
  - destruct available as [|entry available]; [done |].
    destruct (random_choice_total (rnd st) ((entry :: available).*1))
      as [x Hx]; [done |].
    rewrite Hx. simpl.
    destruct (incr (doctor_shift_count st) x) as [count|e'] eqn:Hi; simpl;
      [done |].
    intros [= <-]. by apply incr_raise in Hi as [? _].
  - intros [= <-]. apply filter_raising_raise in Hav as (entry & _ & Hentry).
    by apply is_available_raise in Hentry.
Qed.

Lemma cleanup_step_raise fs day e :
  cleanup_step fs day = Raise e -> e = KeyError.
Proof.
  unfold cleanup_step.
  destruct (dict_item fs day) as [a|e'] eqn:Ha; simpl;
    [ | intros [= <-]; by apply dict_item_raise in Ha].
  destruct (dict_item fs (day - 1)) as [b|e'] eqn:Hb; simpl;
    [ | intros [= <-]; by apply dict_item_raise in Hb].
  by case_bool_decide.
Qed.

(** A loop raises what one of its steps raises. *)
Lemma for_each_raise {S X : Type} (body : S -> X -> result S) xs s e :
  for_each body xs s = Raise e ->
  exists s' x, x ∈ xs /\ body s' x = Raise e.
Proof.
  revert s. induction xs as [|x xs IH]; intros s; [done |].
  rewrite for_each_cons. destruct (body s x) as [s1|e'] eqn:Hx; simpl.
  - intros H. destruct (IH _ H) as (s' & y & Hy & He).
    exists s', y. split; [by right | done].
  - intros [= <-]. exists s, x. split; [by left | done].
Qed.

Lemma finalize_schedule_raise schedule resolved_schedule doctors g e :
  finalize_schedule schedule resolved_schedule doctors g = Raise e ->
  e = KeyError.
Proof.
  unfold finalize_schedule, seed_pass, fill_pass, cleanup_pass.
  destruct (for_each (seed_step resolved_schedule) schedule _)
    as [st1|e1] eqn:H1; simpl.
  - destruct (for_each (fill_step doctors) _ st1) as [st2|e2] eqn:H2; simpl.
    + intros H3. apply for_each_raise in H3 as (s & x & _ & H3).
      by apply cleanup_step_raise in H3.
    + intros [= <-]. apply for_each_raise in H2 as (s & x & _ & H2).
      by apply fill_step_raise in H2.
  - intros [= <-]. apply for_each_raise in H1 as (s & x & _ & H1).
    by apply seed_step_raise in H1.
Qed.

(** A loop that returns ran the step of each of its items, from a state
    that satisfies every invariant of the loop. *)
Lemma for_each_ran {S X : Type} (P : S -> Prop) (body : S -> X -> result S)
    (xs : list X) (x : X) :
  (forall s y s', y ∈ xs -> P s -> body s y = Ok s' -> P s') ->
  x ∈ xs ->
  forall s s', P s -> for_each body xs s = Ok s' ->
    exists s1 s2, P s1 /\ body s1 x = Ok s2.
Proof.
  induction xs as [|y xs IH]; intros Hbody Hx s s' Hs Hrun;
    [by apply elem_of_nil in Hx |].
  rewrite for_each_cons in Hrun. apply rbind_ok in Hrun as (s1 & H1 & Hrun).
  apply elem_of_cons in Hx as [-> | Hx]; [eauto |].
  apply (IH (fun s y s' Hy => Hbody s y s' (list_elem_of_further _ _ _ Hy))
            Hx s1 s'); [ | done].
  eapply Hbody; [by left | exact Hs | exact H1].
Qed.

(** ** The days of the result *)

Lemma fill_step_keys doctors st day st' :
  dict_wf (doctor_shift_count st) ->
  fill_step doctors st day = Ok st' ->
  dict_keys (final_schedule st') = dict_keys (final_schedule st)
  /\ dict_wf (doctor_shift_count st')
  /\ dict_keys (doctor_shift_count st') = dict_keys (doctor_shift_count st).
Proof.
  intros Hwf Hstep.
  destruct (fill_step_ok _ _ _ _ Hwf Hstep)
    as [-> | (x & c & Hday & -> & Hc & -> & _ & _)]; [done |].
  assert (x ∈ dict_keys (doctor_shift_count st)) as Hx
      by (apply dict_get_is_Some_keys; eauto).
  split; [ | split].
  - apply dict_keys_set_present, dict_get_is_Some_keys. eauto.
  - by apply dict_set_wf.
  - by apply dict_keys_set_present.
Qed.

Lemma cleanup_step_keys fs day fs' :
  cleanup_step fs day = Ok fs' -> dict_keys fs' = dict_keys fs.
Proof.
  intros H. destruct (cleanup_step_ok _ _ _ H) as [[-> | [-> _]] Hin]; [done |].
  by apply dict_keys_set_present.
Qed.

(** After the first two loops the days are those of the demand map. *)
Lemma fill_pass_keys schedule resolved_schedule doctors g st1 st2 :
  dict_wf schedule ->
  seed_pass schedule resolved_schedule doctors g = Ok st1 ->
  fill_pass doctors st1 = Ok st2 ->
  dict_keys (final_schedule st1) = dict_keys schedule
  /\ dict_keys (final_schedule st2) = dict_keys schedule.
Proof.
  intros Hwf H1 H2.
  pose proof (seed_pass_ok _ _ _ _ _ H1) as (Hfs1 & _ & Hwf1 & _).
  assert (dict_keys (final_schedule st1) = dict_keys schedule) as Hk1.
  { rewrite Hfs1, dict_comprehension_NoDup by done.
    unfold dict_keys. by rewrite <- list_fmap_compose. }
  split; [done |].
  revert H2. unfold fill_pass.
  generalize (py_range 1 (len (final_schedule st1) + 1)). intros days H2.
  assert (dict_keys (final_schedule st2) = dict_keys schedule
          /\ dict_wf (doctor_shift_count st2)) as [? _]; [ | done].
  revert H2. apply (for_each_inv
    (fun st => dict_keys (final_schedule st) = dict_keys schedule
               /\ dict_wf (doctor_shift_count st))); [ | done].
  intros s day s' _ [Hk Hw] Hstep.
  destruct (fill_step_keys _ _ _ _ Hw Hstep) as (-> & ? & _). done.
Qed.

Lemma finalize_schedule_keys schedule resolved_schedule doctors g fs :
  dict_wf schedule ->
  finalize_schedule schedule resolved_schedule doctors g = Ok fs ->
  dict_keys fs = dict_keys schedule.
Proof.
  intros Hwf Hfin.
  apply finalize_schedule_ok in Hfin as (st1 & st2 & H1 & H2 & H3).
  destruct (fill_pass_keys _ _ _ _ _ _ Hwf H1 H2) as [_ Hk2].
  revert H3. unfold cleanup_pass.
  apply (for_each_inv (fun s => dict_keys s = dict_keys schedule)); [ | done].
  intros s day s' _ Hk Hstep. by rewrite (cleanup_step_keys _ _ _ Hstep).
Qed.

(** A day missing from the demand map stops the second loop. *)
Lemma finalize_schedule_missing_day schedule resolved_schedule doctors g day :
  dict_wf schedule ->
  1 <= day <= len schedule ->
  day ∉ dict_keys schedule ->
  finalize_schedule schedule resolved_schedule doctors g = Raise KeyError.
Proof.
  intros Hwf Hday Hmissing.
  destruct (finalize_schedule schedule resolved_schedule doctors g)
    as [fs|e] eqn:Hfin; [exfalso | by apply finalize_schedule_raise in Hfin as ->].
  apply finalize_schedule_ok in Hfin as (st1 & st2 & H1 & H2 & _).
  pose proof (seed_pass_ok _ _ _ _ _ H1) as (_ & _ & Hwf1 & _).
  destruct (fill_pass_keys _ _ _ _ _ _ Hwf H1 H2) as [Hk1 _].
  unfold fill_pass in H2.
  assert (len (final_schedule st1) = len schedule) as Hlen
      by (by rewrite <- !len_keys, Hk1).
  rewrite Hlen in H2.
  destruct (for_each_ran
              (fun st => dict_keys (final_schedule st) = dict_keys schedule
                         /\ dict_wf (doctor_shift_count st))
              (fill_step doctors) (py_range 1 (len schedule + 1)) day)
    with (s := st1) (s' := st2) as (s1 & s2 & [Hk _] & Hstep); try done.
  - intros s y s' _ [Hk Hw] Hstep.
    destruct (fill_step_keys _ _ _ _ Hw Hstep) as (-> & ? & _). done.
  - apply elem_of_py_range. lia.
  - unfold fill_step in Hstep. apply rbind_ok in Hstep as (v & Hv & _).
    apply dict_item_ok in Hv. apply Hmissing. rewrite <- Hk.
    apply dict_get_is_Some_keys. eauto.
Qed.

(** ** Who is assigned *)

Lemma seed_step_counted resolved_schedule st item st' :
  seed_step resolved_schedule st item = Ok st' ->
  all_counted st -> all_counted st'.
Proof.
  intros Hstep Hinv day x Hin.
  apply seed_step_keys in Hstep as Hk. destruct Hk as [Hk _]. rewrite Hk.
  apply seed_step_ok in Hstep as (Hfs & _ & Hcount). rewrite Hfs in Hin.
  apply dict_set_elem in Hin as [Hin | [_ Hx]]; [by eapply Hinv |].
  rewrite <- Hx in Hcount. apply incr_ok in Hcount as (c & Hc & _).
  apply dict_get_is_Some_keys. eauto.
Qed.

Lemma fill_step_counted doctors st day st' :
  dict_wf (doctor_shift_count st) ->
  fill_step doctors st day = Ok st' ->
  all_counted st -> all_counted st'.
Proof.
  intros Hwf Hstep Hinv d x Hin.
  destruct (fill_step_keys _ _ _ _ Hwf Hstep) as (_ & _ & Hk). rewrite Hk.
  destruct (fill_step_ok _ _ _ _ Hwf Hstep)
    as [-> | (y & c & _ & Hfs & Hc & _ & _ & _)]; [by eapply Hinv |].
  rewrite Hfs in Hin.
  apply dict_set_elem in Hin as [Hin | [_ [= ->]]]; [by eapply Hinv |].
  apply dict_get_is_Some_keys. eauto.
Qed.

Lemma finalize_schedule_in_roster schedule resolved_schedule doctors g fs day x :
  finalize_schedule schedule resolved_schedule doctors g = Ok fs ->
  (day, Some x) ∈ fs ->
  x ∈ dict_keys doctors.
Proof.
  intros Hfin Hin.
  apply finalize_schedule_ok in Hfin as (st1 & st2 & H1 & H2 & H3).
  pose proof (seed_pass_ok _ _ _ _ _ H1) as (_ & _ & Hwf1 & Hk1).
  assert (all_counted st1) as Hc1.
  { revert H1. unfold seed_pass.
    apply (for_each_inv all_counted).
    - intros s item s' _ Hs Hstep.
      by apply (seed_step_counted resolved_schedule s item s').
    - intros d y Hd. by apply elem_of_nil in Hd. }
  assert (all_counted st2 /\ dict_wf (doctor_shift_count st2)
          /\ dict_keys (doctor_shift_count st2)
             = dict_keys (doctor_shift_count st1)) as (Hc2 & _ & Hk2).
  { revert H2. unfold fill_pass.
    apply (for_each_inv
             (fun st => all_counted st /\ dict_wf (doctor_shift_count st)
                        /\ dict_keys (doctor_shift_count st)
                           = dict_keys (doctor_shift_count st1))); [ | done].
    intros s d s' _ (Hs & Hw & Hk) Hstep.
    destruct (fill_step_keys _ _ _ _ Hw Hstep) as (_ & ? & ->).
    split; [by apply (fill_step_counted doctors s d s') | done]. }
  apply Hk1. rewrite <- Hk2.
  assert (forall d y, (d, Some y) ∈ fs -> (d, Some y) ∈ final_schedule st2)
    as Hsub; [ | by eapply Hc2, Hsub].
  revert H3. unfold cleanup_pass.
  apply (for_each_inv
           (fun s => forall d y, (d, Some y) ∈ s -> (d, Some y) ∈ final_schedule st2));
    [ | done].
  intros s d s' _ Hs Hstep d' y Hd'.
  destruct (cleanup_step_ok _ _ _ Hstep) as [[-> | [-> _]] _]; [by apply Hs |].
  apply dict_set_elem in Hd' as [Hd' | [_ [=]]]. by apply Hs.
Qed.

(** ** Where each assignment comes from *)

Lemma seeded_get schedule resolved_schedule day v :
  dict_wf schedule ->
  dict_get (seeded schedule resolved_schedule) day = Some v <->
  exists l, (day, l) ∈ schedule /\ seed_choice resolved_schedule (day, l) = v.
Proof.
  intros Hwf. unfold seeded. rewrite dict_comprehension_NoDup by done.
  assert (dict_wf ((fun item => (item.1, seed_choice resolved_schedule item))
                     <$> schedule)) as Hwf'.
  { unfold dict_wf, dict_keys. by rewrite <- list_fmap_compose. }
  split.
  - intros H. apply dict_get_Some_elem, list_elem_of_fmap in H
      as ([d l] & [= -> ->] & Hin). eauto.
  - intros (l & Hin & <-). apply dict_elem_get; [done |].
    apply list_elem_of_fmap. by exists (day, l).
Qed.

Lemma fill_step_origin doctors fs0 st day st' :
  dict_wf (doctor_shift_count st) ->
  fill_step doctors st day = Ok st' ->
  (forall d v, dict_get (final_schedule st) d = Some v ->
     exists v0, dict_get fs0 d = Some v0 /\ filled_from doctors d v0 v) ->
  forall d v, dict_get (final_schedule st') d = Some v ->
    exists v0, dict_get fs0 d = Some v0 /\ filled_from doctors d v0 v.
Proof.
  intros Hwf Hstep Hinv d v.
  destruct (fill_step_ok _ _ _ _ Hwf Hstep)
    as [-> | (x & c & Hnone & -> & _ & _ & _ & Hav)]; [apply Hinv |].
  rewrite dict_get_set. destruct (decide (day = d)) as [<-|_]; [ | apply Hinv].
  intros [= <-]. destruct (Hinv _ _ Hnone) as (v0 & Hv0 & Hfrom).
  exists v0. split; [done |]. right.
  assert (v0 = None) as ->.
  { destruct Hfrom as [<- | [-> _]]; done. }
  split; [done |].
  apply is_available_true in Hav as (det & Hdet & _ & Hex & _). eauto.
Qed.

(** An assignment of the returned schedule was made by the seed pass, or
    by the fill pass on a day the seed pass had left unassigned, to a
    doctor of the roster who does not exclude the day. *)
Lemma finalize_schedule_origin schedule resolved_schedule doctors g fs day x :
  finalize_schedule schedule resolved_schedule doctors g = Ok fs ->
  dict_get fs day = Some (Some x) ->
  exists v0, dict_get (seeded schedule resolved_schedule) day = Some v0
             /\ filled_from doctors day v0 (Some x).
Proof.
  intros Hfin Hx.
  apply finalize_schedule_ok in Hfin as (st1 & st2 & H1 & H2 & H3).
  pose proof (seed_pass_ok _ _ _ _ _ H1) as (Hfs1 & _ & Hwf1 & _).
  fold (seeded schedule resolved_schedule) in Hfs1.
  assert (dict_wf (doctor_shift_count st2)
          /\ forall d v, dict_get (final_schedule st2) d = Some v ->
               exists v0, dict_get (seeded schedule resolved_schedule) d = Some v0
                          /\ filled_from doctors d v0 v) as [_ H2inv].
  { revert H2. unfold fill_pass.
    apply (for_each_inv
             (fun st => dict_wf (doctor_shift_count st)
                /\ forall d v, dict_get (final_schedule st) d = Some v ->
                     exists v0, dict_get (seeded schedule resolved_schedule) d
                                = Some v0
                                /\ filled_from doctors d v0 v)).
    - intros s d s' _ [Hw Hs] Hstep. split.
      + by destruct (fill_step_keys _ _ _ _ Hw Hstep) as (_ & ? & _).
      + by apply (fill_step_origin doctors _ s d s').
    - split; [done |]. intros d v Hv. rewrite Hfs1 in Hv.
      exists v. split; [done | by left]. }
  assert (forall d y, dict_get fs d = Some (Some y) ->
                      dict_get (final_schedule st2) d = Some (Some y)) as Hsub;
    [ | by apply H2inv, Hsub].
  revert H3. unfold cleanup_pass.
  apply (for_each_inv
           (fun s => forall d y, dict_get s d = Some (Some y) ->
                                 dict_get (final_schedule st2) d = Some (Some y)));
    [ | done].
  intros s d s' _ Hs Hstep d' y.
  destruct (cleanup_step_ok _ _ _ Hstep) as [[-> | [-> _]] _]; [apply Hs |].
  rewrite dict_get_set. destruct (decide (d = d')); [done | apply Hs].
Qed.

(** ** Consecutive days *)

Lemma fill_step_repeats doctors n fs0 st day st' :
  0 <= n ->
  has_days n (final_schedule st) ->
  dict_wf (doctor_shift_count st) ->
  fill_step doctors st day = Ok st' ->
  repeats_only_as fs0 (final_schedule st) ->
  repeats_only_as fs0 (final_schedule st').
Proof.
  intros Hn Hdays Hwf Hstep Hinv.
  destruct (fill_step_ok _ _ _ _ Hwf Hstep)
    as [-> | (y & c & Hnone & -> & _ & _ & _ & Hav)]; [done |].
  apply is_available_true in Hav as (_ & _ & _ & _ & Hprev & Hnext).
  rewrite (has_days_len _ _ Hn Hdays) in Hnext.
  assert (1 <= day <= n) as Hday
      by (apply (has_days_elem n _ day Hdays), dict_get_is_Some_keys; eauto).
  intros d x. rewrite !dict_get_set.
  destruct (decide (day = d)) as [Heq1|Hne1];
    destruct (decide (day = d + 1)) as [Heq2|Hne2]; try lia.
  - intros [= <-] Hd. exfalso. subst d.
    destruct Hnext as [-> | (v & Hv & Hvx)]; [ | congruence].
    assert (n + 1 ∈ dict_keys (final_schedule st)) as Hk
        by (apply dict_get_is_Some_keys; eauto).
    apply (has_days_elem n _ _ Hdays) in Hk. lia.
  - intros Hd [= <-]. exfalso. subst day.
    replace (d + 1 - 1) with d in Hprev by lia.
    destruct Hprev as [? | (v & Hv & Hvx)]; [ | congruence].
    assert (d ∈ dict_keys (final_schedule st)) as Hk
        by (apply dict_get_is_Some_keys; eauto).
    apply (has_days_elem n _ _ Hdays) in Hk. lia.
  - apply Hinv.
Qed.

Lemma cleanup_step_repeats fs0 fs day fs' :
  cleanup_step fs day = Ok fs' ->
  repeats_only_as fs0 fs -> repeats_only_as fs0 fs'.
Proof.
  intros Hstep Hinv d x.
  destruct (cleanup_step_ok _ _ _ Hstep) as [[-> | [-> _]] _]; [apply Hinv |].
  rewrite !dict_get_set.
  destruct (decide (day = d)); [done |].
  destruct (decide (day = d + 1)); [done | apply Hinv].
Qed.

(** Neither the fill pass nor the cleanup pass puts one doctor on two
    consecutive days: where the result repeats a doctor, the seed pass
    did. *)
Lemma finalize_schedule_repeats schedule resolved_schedule doctors g n fs :
  days_1_to schedule n ->
  0 <= n ->
  finalize_schedule schedule resolved_schedule doctors g = Ok fs ->
  repeats_only_as (seeded schedule resolved_schedule) fs.
Proof.
  intros Hdays Hn Hfin.
  apply finalize_schedule_ok in Hfin as (st1 & st2 & H1 & H2 & H3).
  pose proof (seed_pass_ok _ _ _ _ _ H1) as (Hfs1 & _ & Hwf1 & _).
  fold (seeded schedule resolved_schedule) in Hfs1.
  assert (has_days n (final_schedule st1)) as Hd1.
  { unfold has_days. rewrite Hfs1. unfold seeded.
    rewrite (seed_final_keys _ _ n Hdays).
    unfold dict_keys. rewrite <- list_fmap_compose. exact Hdays. }
  destruct (fill_pass_inv doctors n
              (fun st => repeats_only_as (seeded schedule resolved_schedule)
                           (final_schedule st)) st1 st2)
    as (Hd2 & _ & Hr2); try done.
  { intros s d s' Hds Hws _ Hs Hstep.
    by apply (fill_step_repeats doctors n _ s d s'). }
  { rewrite Hfs1. by intros d x. }
  destruct (cleanup_pass_inv n
              (repeats_only_as (seeded schedule resolved_schedule))
              (final_schedule st2) fs) as [_ ?]; try done.
  intros s d s' _ _ Hs Hstep. by apply (cleanup_step_repeats _ s d s').
Qed.

(** ** Statements about [finalize_schedule] *)

Lemma seeds_in_roster_demand_1_3 :
  seeds_in_roster demand_1_3 [] roster_one_shift.
Proof.
  intros item x Hin Hx. unfold demand_1_3 in Hin.
  repeat (apply elem_of_cons in Hin as [-> | Hin]);
    try (by apply elem_of_nil in Hin);
    vm_compute in Hx; inversion Hx; subst; left.
Qed.

(** X1: on a demand map whose days are 1..n in order, with a resolution
    map and single candidates that only name doctors of the roster,
    [finalize_schedule] raises nothing: it returns a schedule with exactly
    the days 1..n, whatever the random source. *)
Theorem finalize_returns_on_well_formed_input
    (schedule : dict Z (list string)) (resolved_schedule : dict Z string)
    (doctors : dict string details) (g : rng) (n : Z) :
  0 <= n ->
  days_1_to schedule n ->
  seeds_in_roster schedule resolved_schedule doctors ->
  exists fs,
    finalize_schedule schedule resolved_schedule doctors g = Ok fs
    /\ dict_keys fs = py_range 1 (n + 1).
Proof.
  intros Hn Hdays Hseeds.
  destruct (finalize_schedule_total schedule resolved_schedule doctors g n)
    as (fs & Hfs & Hd); eauto.
Qed.

Lemma finalize_returns_on_well_formed_input_witness :
  exists fs,
    finalize_schedule demand_1_3 [] roster_one_shift first_choice = Ok fs
    /\ dict_keys fs = py_range 1 (3 + 1).
Proof.
  apply (finalize_returns_on_well_formed_input demand_1_3 [] roster_one_shift
           first_choice 3).
  - lia.
  - reflexivity.
  - exact seeds_in_roster_demand_1_3.
Defined.

(** X2: the schedule that [finalize_schedule] returns has the days of the
    demand map, in the same order: no day is added, dropped or moved. *)
Theorem finalize_keeps_the_days
    (schedule : dict Z (list string)) (resolved_schedule : dict Z string)
    (doctors : dict string details) (g : rng) (fs : dict Z (option string)) :
  dict_wf schedule ->
  finalize_schedule schedule resolved_schedule doctors g = Ok fs ->
  dict_keys fs = dict_keys schedule.
Proof. apply finalize_schedule_keys. Qed.

Lemma finalize_keeps_the_days_witness :
  dict_keys [(1, Some doctor_A); (2, None); (3, Some doctor_A)]
  = dict_keys demand_1_3.
Proof.
  apply (finalize_keeps_the_days demand_1_3 [] roster_one_shift first_choice).
  - apply (bool_decide_unpack _). vm_compute. exact I.
  - reflexivity.
Defined.

(** X3: when a day between 1 and the number of entries of the demand map
    is not a key of it, [finalize_schedule] raises [KeyError]: the fill
    loop subscripts the days 1..len whatever the keys are. *)
Theorem finalize_raises_on_missing_day
    (schedule : dict Z (list string)) (resolved_schedule : dict Z string)
    (doctors : dict string details) (g : rng) (day : Z) :
  dict_wf schedule ->
  1 <= day <= len schedule ->
  day ∉ dict_keys schedule ->
  finalize_schedule schedule resolved_schedule doctors g = Raise KeyError.
Proof. apply finalize_schedule_missing_day. Qed.

Lemma finalize_raises_on_missing_day_witness :
  finalize_schedule demand_gap [] roster_one_shift first_choice
  = Raise KeyError.
Proof.
  apply (finalize_raises_on_missing_day demand_gap [] roster_one_shift
           first_choice 2).
  - apply (bool_decide_unpack _). vm_compute. exact I.
  - vm_compute. split; discriminate.
  - apply (bool_decide_unpack _). vm_compute. exact I.
Defined.

(** X4: [finalize_schedule] raises no exception other than [KeyError]; in
    particular [random.choice] is never called on an empty list. *)
Theorem finalize_raises_only_key_error
    (schedule : dict Z (list string)) (resolved_schedule : dict Z string)
    (doctors : dict string details) (g : rng) (e : exn) :
  finalize_schedule schedule resolved_schedule doctors g = Raise e ->
  e = KeyError.
Proof. apply finalize_schedule_raise. Qed.

Lemma finalize_raises_only_key_error_witness : KeyError = KeyError.
Proof.
  apply (finalize_raises_only_key_error demand_gap [] roster_one_shift
           first_choice KeyError).
  reflexivity.
Defined.

(** X5: every doctor in the schedule that [finalize_schedule] returns is a
    key of the roster. *)
Theorem finalize_assigns_roster_doctors
    (schedule : dict Z (list string)) (resolved_schedule : dict Z string)
    (doctors : dict string details) (g : rng) (fs : dict Z (option string))
    (day : Z) (x : string) :
  finalize_schedule schedule resolved_schedule doctors g = Ok fs ->
  (day, Some x) ∈ fs ->
  x ∈ dict_keys doctors.
Proof. apply finalize_schedule_in_roster. Qed.

Lemma finalize_assigns_roster_doctors_witness :
  doctor_A ∈ dict_keys roster_one_shift.
Proof.
  apply (finalize_assigns_roster_doctors demand_1_3 [] roster_one_shift
           first_choice [(1, Some doctor_A); (2, None); (3, Some doctor_A)]
           3 doctor_A).
  - reflexivity.
  - apply (bool_decide_unpack _). vm_compute. exact I.
Defined.

(** X6: a day that the seed pass gives to a doctor (by the resolution
    map, or as the single candidate) ends with that doctor or unassigned,
    never with another doctor. *)
Theorem seeded_day_never_changes_doctor
    (schedule : dict Z (list string)) (resolved_schedule : dict Z string)
    (doctors : dict string details) (g : rng) (fs : dict Z (option string))
    (day : Z) (l : list string) (y : string) :
  dict_wf schedule ->
  finalize_schedule schedule resolved_schedule doctors g = Ok fs ->
  (day, l) ∈ schedule ->
  seed_choice resolved_schedule (day, l) = Some y ->
  dict_get fs day = Some (Some y) \/ dict_get fs day = Some None.
Proof.
  intros Hwf Hfin Hin Hseed.
  assert (day ∈ dict_keys fs) as Hk.
  { rewrite (finalize_schedule_keys _ _ _ _ _ Hwf Hfin).
    apply list_elem_of_fmap. by exists (day, l). }
  apply dict_get_is_Some_keys in Hk as [[x|] Hx]; [left | by right].
  destruct (finalize_schedule_origin _ _ _ _ _ _ _ Hfin Hx) as (v0 & Hv0 & Hfrom).
  apply (seeded_get _ _ _ _ Hwf) in Hv0 as (l' & Hin' & <-).
  assert (l' = l) as ->.
  { apply (dict_elem_get _ _ _ Hwf) in Hin, Hin'. congruence. }
  rewrite Hseed in Hfrom. destruct Hfrom as [[= ->] | [? _]]; done.
Qed.

Lemma seeded_day_never_changes_doctor_witness :
  let fs := [(1, Some doctor_A); (2, None); (3, None)] in
  dict_get fs 2 = Some (Some doctor_A) \/ dict_get fs 2 = Some None.
Proof.
  apply (seeded_day_never_changes_doctor
           [(1, [doctor_A]); (2, [doctor_A]); (3, [])] [] roster_one_shift
           first_choice [(1, Some doctor_A); (2, None); (3, None)]
           2 [doctor_A] doctor_A).
  - apply (bool_decide_unpack _). vm_compute. exact I.
  - reflexivity.
  - apply (bool_decide_unpack _). vm_compute. exact I.
  - reflexivity.
Defined.

(** X7: a day that the seed pass leaves unassigned and that ends with a
    doctor was filled with a doctor of the roster who does not exclude that
    day. *)
Theorem filled_day_respects_exclusions
    (schedule : dict Z (list string)) (resolved_schedule : dict Z string)
    (doctors : dict string details) (g : rng) (fs : dict Z (option string))
    (day : Z) (l : list string) (x : string) :
  dict_wf schedule ->
  finalize_schedule schedule resolved_schedule doctors g = Ok fs ->
  (day, l) ∈ schedule ->
  seed_choice resolved_schedule (day, l) = None ->
  dict_get fs day = Some (Some x) ->
  exists det, dict_get doctors x = Some det /\ day ∉ excluded_days det.
Proof.
  intros Hwf Hfin Hin Hseed Hx.
  destruct (finalize_schedule_origin _ _ _ _ _ _ _ Hfin Hx) as (v0 & Hv0 & Hfrom).
  apply (seeded_get _ _ _ _ Hwf) in Hv0 as (l' & Hin' & <-).
  assert (l' = l) as ->.
  { apply (dict_elem_get _ _ _ Hwf) in Hin, Hin'. congruence. }
  rewrite Hseed in Hfrom.
  destruct Hfrom as [? | (_ & x' & det & [= <-] & Hdet & Hex)]; [done | eauto].
Qed.

Lemma filled_day_respects_exclusions_witness :
  exists det,
    dict_get roster_one_shift doctor_A = Some det /\ 1 ∉ excluded_days det.
Proof.
  apply (filled_day_respects_exclusions [(1, []); (2, [])] [] roster_one_shift
           first_choice [(1, Some doctor_A); (2, None)] 1 [] doctor_A).
  - apply (bool_decide_unpack _). vm_compute. exact I.
  - reflexivity.
  - apply (bool_decide_unpack _). vm_compute. exact I.
  - reflexivity.
  - reflexivity.
Defined.

(** X8: a day that the seed pass gives to a doctor, while it does not give
    the day before to the same doctor, holds that doctor in the returned
    schedule: the look-ahead of the fill pass keeps the doctor off the day
    before, so the cleanup pass leaves the day alone. *)
Theorem seeded_day_is_kept
    (schedule : dict Z (list string)) (resolved_schedule : dict Z string)
    (doctors : dict string details) (g : rng) (n : Z)
    (fs : dict Z (option string)) (day : Z) (l : list string) (x : string) :
  days_1_to schedule n ->
  finalize_schedule schedule resolved_schedule doctors g = Ok fs ->
  (day, l) ∈ schedule ->
  seed_choice resolved_schedule (day, l) = Some x ->
  (forall l', (day - 1, l') ∈ schedule ->
              seed_choice resolved_schedule (day - 1, l') <> Some x) ->
  dict_get fs day = Some (Some x).
Proof. apply seeded_day_survives. Qed.

Lemma seeded_day_is_kept_witness :
  dict_get [(1, Some doctor_A); (2, None); (3, Some doctor_A)] 3
  = Some (Some doctor_A).
Proof.
  apply (seeded_day_is_kept demand_1_3 [] roster_one_shift first_choice 3
           _ 3 [doctor_A] doctor_A).
  - reflexivity.
  - reflexivity.
  - apply (bool_decide_unpack _). vm_compute. exact I.
  - reflexivity.
  - intros l' Hin. unfold demand_1_3 in Hin.
    repeat (apply elem_of_cons in Hin as [[=] | Hin]); try subst l';
      try (by apply elem_of_nil in Hin); discriminate.
Defined.

(** X9: in the schedule returned for the days 1..n, two consecutive days
    that both lie before day n never hold the same doctor; the cleanup
    loop covers the days 2..n-1. *)
Theorem consecutive_days_differ_before_last_day
    (schedule : dict Z (list string)) (resolved_schedule : dict Z string)
    (doctors : dict string details) (g : rng) (n : Z)
    (fs : dict Z (option string)) (day : Z) (x : string) :
  days_1_to schedule n ->
  finalize_schedule schedule resolved_schedule doctors g = Ok fs ->
  1 <= day -> day + 1 <= n - 1 ->
  dict_get fs day = Some (Some x) ->
  dict_get fs (day + 1) <> Some (Some x).
Proof. apply no_consecutive_before_last_day. Qed.

Lemma consecutive_days_differ_before_last_day_witness :
  dict_get [(1, Some doctor_A); (2, None); (3, None)] (1 + 1)
  <> Some (Some doctor_A).
Proof.
  apply (consecutive_days_differ_before_last_day
           [(1, [doctor_A]); (2, [doctor_A]); (3, [])] [] roster_one_shift
           first_choice 3 _ 1 doctor_A).
  - reflexivity.
  - reflexivity.
  - lia.
  - lia.
  - reflexivity.
Defined.

(** X10: the fill pass and the cleanup pass never put one doctor on two
    consecutive days. If the returned schedule holds the same doctor on
    [day] and [day + 1], then [day + 1] is the last day and the seed pass
    itself gave both days to that doctor. *)
Theorem repeated_doctor_comes_from_seed_pass
    (schedule : dict Z (list string)) (resolved_schedule : dict Z string)
    (doctors : dict string details) (g : rng) (n : Z)
    (fs : dict Z (option string)) (day : Z) (x : string) :
  days_1_to schedule n ->
  finalize_schedule schedule resolved_schedule doctors g = Ok fs ->
  dict_get fs day = Some (Some x) ->
  dict_get fs (day + 1) = Some (Some x) ->
  day + 1 = n
  /\ exists l l',
       (day, l) ∈ schedule /\ (day + 1, l') ∈ schedule
       /\ seed_choice resolved_schedule (day, l) = Some x
       /\ seed_choice resolved_schedule (day + 1, l') = Some x.
Proof.
  intros Hdays Hfin Hx Hnext.
  assert (dict_wf schedule) as Hwf.
  { unfold dict_wf. rewrite Hdays. apply py_range_NoDup. }
  pose proof (finalize_schedule_keys _ _ _ _ _ Hwf Hfin) as Hkeys.
  assert (1 <= day /\ day + 1 <= n) as [Hlo Hhi].
  { assert (day ∈ dict_keys fs) as H1 by (apply dict_get_is_Some_keys; eauto).
    assert (day + 1 ∈ dict_keys fs) as H2
        by (apply dict_get_is_Some_keys; eauto).
    rewrite Hkeys, Hdays in H1, H2.
    apply elem_of_py_range in H1, H2. lia. }
  split.
  - destruct (decide (day + 1 = n)) as [? | Hne]; [done | exfalso].
    apply (no_consecutive_before_last_day _ _ _ _ _ _ _ _ Hdays Hfin Hlo
             ltac:(lia) Hx Hnext).
  - destruct (finalize_schedule_repeats _ _ _ _ n _ Hdays ltac:(lia) Hfin
                _ _ Hx Hnext) as [H1 H2].
    apply (seeded_get _ _ _ _ Hwf) in H1 as (l & Hl & Hsl).
    apply (seeded_get _ _ _ _ Hwf) in H2 as (l' & Hl' & Hsl').
    eauto 10.
Qed.

Lemma repeated_doctor_comes_from_seed_pass_witness :
  1 + 1 = 2
  /\ exists l l',
       (1, l) ∈ demand_1_2 /\ (1 + 1, l') ∈ demand_1_2
       /\ seed_choice [] (1, l) = Some doctor_A
       /\ seed_choice [] (1 + 1, l') = Some doctor_A.
Proof.
  apply (repeated_doctor_comes_from_seed_pass demand_1_2 [] roster_one_shift
           first_choice 2 [(1, Some doctor_A); (2, Some doctor_A)] 1 doctor_A);
    reflexivity.
Defined.

(** X11: the store-level function and the value-level function agree. On
    a store whose three references hold a demand map, a resolution map and
    a roster, [Heap.finalize_schedule] returns, in a new dictionary at the
    first free location, the schedule that [finalize_schedule] returns on
    these values, and it raises whenever and what [finalize_schedule]
    raises: the result depends on the contents of the arguments only. *)
Theorem store_and_value_finalize_agree
    (h0 : list Heap.obj) (schedule resolved_schedule doctors : nat)
    (demand : dict Z (list string)) (resolved : dict Z string)
    (roster : dict string details) (g : rng) :
  Heap.demand_at h0 schedule = Some demand ->
  Heap.resolved_at h0 resolved_schedule = Some resolved ->
  Heap.roster_at h0 doctors = Some roster ->
  match finalize_schedule demand resolved roster g with
  | Ok fs =>
      exists count,
        Heap.finalize_schedule schedule resolved_schedule doctors g h0
        = (Ok (length h0), h0 ++ [Heap.OFinal fs; Heap.OCount count])
  | Raise e =>
      (Heap.finalize_schedule schedule resolved_schedule doctors g h0).1
      = Raise e
  end.
Proof.
  intros Hdemand Hresolved Hroster.
  pose proof (finalize_schedule_refines _ _ _ _ _ _ _ g
                Hdemand Hresolved Hroster) as Hsim.
  unfold Heap.sim in Hsim.
  destruct (finalize_schedule demand resolved roster g) as [fs|e]; [ | done].
  destruct Hsim as (l & h & Hrun & -> & count & ->). eauto.
Qed.

Lemma store_and_value_finalize_agree_witness :
  match finalize_schedule [(1, [doctor_A]); (2, [doctor_A]); (3, [])] []
          roster_one_shift first_choice with
  | Ok fs =>
      exists count,
        Heap.finalize_schedule 3 4 8 first_choice example_store
        = (Ok (length example_store),
           example_store ++ [Heap.OFinal fs; Heap.OCount count])
  | Raise e =>
      (Heap.finalize_schedule 3 4 8 first_choice example_store).1 = Raise e
  end.
Proof.
  apply (store_and_value_finalize_agree example_store 3 4 8); reflexivity.
Defined.

(** * Further properties of the demand builder *)

Lemma append_doctor_raise schedule day doctor e :
  append_doctor schedule day doctor = Raise e -> e = KeyError.
Proof.
  unfold append_doctor. destruct (dict_item schedule day) as [l|e'] eqn:Hl;
    simpl; [done |]. intros [= <-]. by apply dict_item_raise in Hl.
Qed.

Lemma append_doctor_ok schedule day doctor schedule' :
  append_doctor schedule day doctor = Ok schedule' ->
  exists l, dict_get schedule day = Some l
            /\ schedule' = dict_set schedule day (l ++ [doctor]).
Proof.
  unfold append_doctor. intros H. apply rbind_ok in H as (l & Hl & [= <-]).
  apply dict_item_ok in Hl. eauto.
Qed.

Lemma add_wanted_days_raise num_days schedule entry e :
  add_wanted_days num_days schedule entry = Raise e -> e = KeyError.
Proof.
  destruct entry as [doctor det]. unfold add_wanted_days. intros H.
  apply for_each_raise in H as (s & day & _ & H).
  case_bool_decide; [done | by apply append_doctor_raise in H].
Qed.

Lemma build_schedule_raise doctors num_days e :
  build_schedule doctors num_days = Raise e -> e = KeyError.
Proof.
  unfold build_schedule. intros H.
  apply for_each_raise in H as (s & entry & _ & H).
  by apply add_wanted_days_raise in H.
Qed.

(** A table over distinct keys, updated at one of them. *)
Lemma dict_set_table {V : Type} (f : Z -> V) (ks : list Z) (k : Z) (v : V) :
  NoDup ks -> k ∈ ks ->
  dict_set ((fun d => (d, f d)) <$> ks) k v
  = (fun d => (d, if decide (d = k) then v else f d)) <$> ks.
Proof.
  induction ks as [|k' ks IH]; intros Hnd Hin; [by apply elem_of_nil in Hin |].
  apply NoDup_cons in Hnd as [Hnin Hnd]. simpl.
  destruct (decide (k = k')) as [->|Hne].
  - rewrite decide_True by done. f_equal.
    apply list_fmap_ext. intros i d Hd.
    rewrite decide_False; [done |]. intros Heq. subst d.
    apply Hnin. by eapply list_elem_of_lookup_2.
  - rewrite decide_False by done. f_equal.
    apply IH; [done |]. by apply elem_of_cons in Hin as [? | ?].
Qed.

Lemma dict_get_cons {K V : Type} `{EqDecision K} (d : dict K V) k k' v :
  dict_get ((k', v) :: d) k = if decide (k = k') then Some v else dict_get d k.
Proof. reflexivity. Qed.

Lemma dict_get_table {V : Type} (f : Z -> V) (ks : list Z) (k : Z) :
  dict_get ((fun d => (d, f d)) <$> ks) k
  = if decide (k ∈ ks) then Some (f k) else None.
Proof.
  induction ks as [|k' ks IH]; [done |].
  rewrite fmap_cons, dict_get_cons.
  destruct (decide (k = k')) as [->|Hne].
  - rewrite decide_True; [done | by left].
  - rewrite IH. destruct (decide (k ∈ ks)) as [Hin|Hnin].
    + rewrite decide_True; [done | by right].
    + rewrite decide_False; [done |]. intros Hin.
      by apply elem_of_cons in Hin as [? | ?].
Qed.

Section Table.
Variables (num_days : Z).

Local Abbreviation table := (day_table num_days).

Lemma inner_loop_table base doctor det ws ws0 s' :
  for_each
    (fun schedule day =>
       if bool_decide (day ∈ excluded_days det) then Ok schedule
       else append_doctor schedule day doctor)
    ws (table (with_days base doctor det ws0)) = Ok s' ->
  s' = table (with_days base doctor det (ws0 ++ ws)).
Proof.
  revert ws0. induction ws as [|d ws IH]; intros ws0 H.
  - inversion H. by rewrite app_nil_r.
  - rewrite for_each_cons in H. apply rbind_ok in H as (s1 & Hstep & H).
    replace (ws0 ++ d :: ws) with ((ws0 ++ [d]) ++ ws)
      by (by rewrite <- app_assoc).
    apply IH. rewrite <- H. f_equal. clear H IH.
    case_bool_decide as Hex.
    + inversion Hstep; subst. unfold day_table. apply list_fmap_ext.
      intros _ day _. unfold with_days.
      rewrite filter_app, filter_cons, decide_False, filter_nil, app_nil_r;
        [done | by intros [_ ?]].
    + apply append_doctor_ok in Hstep as (l & Hl & ->).
      unfold day_table in Hl |- *. rewrite dict_get_table in Hl.
      destruct (decide (d ∈ py_range 1 (num_days + 1))) as [Hin|]; [ | done].
      inversion Hl; subst l. rewrite dict_set_table by (done || apply py_range_NoDup).
      apply list_fmap_ext. intros _ day _. f_equal. unfold with_days.
      rewrite filter_app, filter_cons, filter_nil.
      destruct (decide (day = d)) as [->|Hne].
      * rewrite decide_True by done. by rewrite fmap_app, app_assoc.
      * rewrite decide_False by (intros [? _]; congruence).
        by rewrite app_nil_r.
Qed.

Lemma wanting_snoc doctors doctor det day :
  wanting (doctors ++ [(doctor, det)]) num_days day
  = wanting doctors num_days day
    ++ ((fun _ => doctor) <$> wants_day num_days day det).
Proof.
  unfold wanting. rewrite fmap_app, join_app. simpl. by rewrite app_nil_r.
Qed.

Lemma outer_loop_table doctors doctors0 s' :
  for_each (add_wanted_days num_days) doctors (demand_table doctors0 num_days)
  = Ok s' ->
  s' = demand_table (doctors0 ++ doctors) num_days.
Proof.
  revert doctors0. induction doctors as [|[doctor det] doctors IH];
    intros doctors0 H.
  - inversion H. by rewrite app_nil_r.
  - rewrite for_each_cons in H. apply rbind_ok in H as (s1 & Hstep & H).
    replace (doctors0 ++ (doctor, det) :: doctors)
      with ((doctors0 ++ [(doctor, det)]) ++ doctors)
      by (by rewrite <- app_assoc).
    apply IH. rewrite <- H. f_equal. clear H IH.
    unfold add_wanted_days in Hstep.
    assert (demand_table doctors0 num_days
            = table (with_days (wanting doctors0 num_days) doctor det []))
      as Hstart.
    { unfold demand_table, day_table. apply list_fmap_ext. intros _ day _.
      unfold with_days. by rewrite filter_nil, app_nil_r. }
    rewrite Hstart in Hstep. apply inner_loop_table in Hstep. subst s1.
    unfold demand_table, day_table. apply list_fmap_ext. intros _ day _.
    by rewrite wanting_snoc.
Qed.
End Table.

(** The two nested loops build the table of [wanting]. *)
Lemma build_schedule_table doctors num_days schedule :
  build_schedule doctors num_days = Ok schedule ->
  schedule = demand_table doctors num_days.
Proof.
  unfold build_schedule. intros H.
  rewrite dict_comprehension_NoDup in H
    by (rewrite list_fmap_id; apply py_range_NoDup).
  by apply (outer_loop_table num_days doctors []) in H.
Qed.

Lemma month_end_day_ok year month n :
  month_end_day year month = Ok n ->
  n = days_in_month year month /\ 28 <= n <= 31 /\ 1 <= month <= 12.
Proof.
  unfold month_end_day.
  destruct (Z.leb_spec 1 month), (Z.leb_spec month 12); simpl; try done.
  destruct (negb _); [done |]. intros [= <-].
  split; [done |]. split; [ | lia]. unfold days_in_month.
  destruct (month =? 2); [destruct (is_leap year); lia |].
  destruct (_ || _); lia.
Qed.

Lemma add_wanted_days_keys num_days schedule entry schedule' :
  add_wanted_days num_days schedule entry = Ok schedule' ->
  dict_keys schedule' = dict_keys schedule.
Proof.
  destruct entry as [doctor det]. unfold add_wanted_days.
  apply (for_each_inv (fun s => dict_keys s = dict_keys schedule)); [ | done].
  intros s day s' _ Hk. case_bool_decide as Hex; [by intros [= <-] |].
  intros Happ. apply append_doctor_ok in Happ as (l & Hl & ->).
  rewrite dict_keys_set_present; [done |]. apply dict_get_is_Some_keys. eauto.
Qed.

(** A wanted day below 1 that is not excluded stops the builder. *)
Lemma build_schedule_low_day doctors num_days doctor det day :
  (doctor, det) ∈ doctors ->
  day ∈ wanted_days det ->
  day < 1 -> day <= num_days ->
  day ∉ excluded_days det ->
  build_schedule doctors num_days = Raise KeyError.
Proof.
  intros Hentry Hwanted Hlow Hle Hex.
  destruct (build_schedule doctors num_days) as [schedule|e] eqn:Hbuild;
    [exfalso | by apply build_schedule_raise in Hbuild as ->].
  unfold build_schedule in Hbuild.
  rewrite dict_comprehension_NoDup in Hbuild
    by (rewrite list_fmap_id; apply py_range_NoDup).
  set (P := fun s : dict Z (list string) =>
              dict_keys s = py_range 1 (num_days + 1)).
  assert (P ((fun x => (x, @nil string)) <$> py_range 1 (num_days + 1)))
    as Hstart.
  { unfold P, dict_keys. rewrite <- list_fmap_compose. apply list_fmap_id. }
  destruct (for_each_ran P (add_wanted_days num_days) doctors (doctor, det))
    with (3 := Hstart) (4 := Hbuild) as (s1 & s2 & Hs1 & Hstep); [ | done |].
  { intros s y s' _ Hs Hy. unfold P.
    by rewrite (add_wanted_days_keys _ _ _ _ Hy). }
  unfold add_wanted_days in Hstep.
  destruct (for_each_ran P
              (fun schedule d =>
                 if bool_decide (d ∈ excluded_days det) then Ok schedule
                 else append_doctor schedule d doctor)
              (validate_days (wanted_days det) num_days) day)
    with (3 := Hs1) (4 := Hstep) as (s3 & s4 & Hs3 & Hday).
  - intros s y s' _ Hs. case_bool_decide as Hy; [by intros [= <-] |].
    intros Happ. apply append_doctor_ok in Happ as (l & Hl & ->). unfold P.
    rewrite dict_keys_set_present; [done |]. apply dict_get_is_Some_keys. eauto.
  - unfold validate_days. apply list_elem_of_filter. done.
  - rewrite bool_decide_eq_false_2 in Hday by done.
    apply append_doctor_ok in Hday as (l & Hl & _).
    assert (day ∈ dict_keys s3) as Hk by (apply dict_get_is_Some_keys; eauto).
    rewrite Hs3 in Hk. apply elem_of_py_range in Hk. lia.
Qed.

(** ** The lists of the table *)

Lemma elem_of_wants_day num_days day det d :
  d ∈ wants_day num_days day det <->
  d = day /\ day ∈ wanted_days det /\ day <= num_days
  /\ day ∉ excluded_days det.
Proof.
  unfold wants_day, validate_days. rewrite !list_elem_of_filter.
  split; [intros ([-> ?] & ? & ?) | intros (-> & ? & ? & ?)]; done.
Qed.

Lemma elem_of_wanting doctors num_days day doctor :
  doctor ∈ wanting doctors num_days day <->
  exists det, (doctor, det) ∈ doctors /\ day ∈ wanted_days det
              /\ day <= num_days /\ day ∉ excluded_days det.
Proof.
  unfold wanting. rewrite list_elem_of_join. split.
  - intros (l & Hdoc & Hl).
    apply list_elem_of_fmap in Hl as ([doctor' det] & -> & Hentry).
    apply list_elem_of_fmap in Hdoc as (d & -> & Hd). simpl in *.
    apply elem_of_wants_day in Hd as (_ & ? & ? & ?). eauto.
  - intros (det & Hentry & Hw & Hle & Hex).
    exists ((fun _ => doctor) <$> wants_day num_days day det). split.
    + apply list_elem_of_fmap. exists day. split; [done |].
      by apply elem_of_wants_day.
    + apply list_elem_of_fmap. by exists (doctor, det).
Qed.

Lemma wants_day_NoDup num_days day det :
  NoDup (wanted_days det) ->
  (length (wants_day num_days day det) <= 1)%nat.
Proof.
  intros Hnd.
  assert (NoDup (wants_day num_days day det)) as Hnd'.
  { unfold wants_day, validate_days. by do 2 apply NoDup_filter. }
  assert (forall d, d ∈ wants_day num_days day det -> d = day) as Hall
      by (intros d Hd; by apply elem_of_wants_day in Hd as [-> _]).
  destruct (wants_day num_days day det) as [|d1 [|d2 l]]; simpl; try lia.
  exfalso. apply NoDup_cons in Hnd' as [Hnin _]. apply Hnin.
  rewrite (Hall d1), (Hall d2); [by left | by right; left | by left].
Qed.

Lemma wanting_NoDup doctors num_days day :
  dict_wf doctors ->
  (forall entry, entry ∈ doctors -> NoDup (wanted_days entry.2)) ->
  NoDup (wanting doctors num_days day).
Proof.
  unfold dict_wf, dict_keys.
  induction doctors as [|[doctor det] doctors IH]; intros Hwf Hall.
  - apply NoDup_nil_2.
  - apply NoDup_cons in Hwf as [Hnin Hwf]. unfold wanting. simpl.
    fold (wanting doctors num_days day). apply NoDup_app. split; [ | split].
    + pose proof (wants_day_NoDup num_days day det
                    (Hall (doctor, det) (list_elem_of_here _ _))) as Hlen.
      destruct (wants_day num_days day det) as [|d1 [|d2 l]]; simpl in *;
        [apply NoDup_nil_2 | apply NoDup_singleton | lia].
    + intros x Hx Hx'. apply list_elem_of_fmap in Hx as (d & -> & _).
      apply elem_of_wanting in Hx' as (det' & Hentry & _).
      apply Hnin. apply list_elem_of_fmap. by exists (doctor, det').
    + apply IH; [done |]. intros entry Hentry. apply Hall. by right.
Qed.

Lemma demand_table_elem doctors num_days day l :
  (day, l) ∈ demand_table doctors num_days ->
  1 <= day <= num_days /\ l = wanting doctors num_days day.
Proof.
  unfold demand_table. intros H.
  apply list_elem_of_fmap in H as (d & [= -> ->] & Hd).
  apply elem_of_py_range in Hd. split; [lia | done].
Qed.

(** ** Statements about [generate_initial_schedule] and
    [identify_conflicts] *)

(** [generate_initial_schedule] computes the length [num_days] of the month
    and then runs [build_schedule] on it. The statements below are made
    for every value of [num_days], so that they hold for every month and
    year for which the length is computed. *)

(** X12: for every length N of the month, the demand map that
    [generate_initial_schedule] builds has exactly the days 1..N, in
    ascending order, and the list of each day holds, in roster order, the
    doctors who want the day and do not exclude it (once for each time the
    day occurs among the doctor's wanted days). *)
Theorem demand_map_is_the_table
    (doctors : dict string details) (num_days : Z)
    (schedule : dict Z (list string)) :
  build_schedule doctors num_days = Ok schedule ->
  schedule = demand_table doctors num_days
  /\ dict_keys schedule = py_range 1 (num_days + 1).
Proof.
  intros Hbuild. apply build_schedule_table in Hbuild. subst schedule.
  split; [done |].
  unfold demand_table, dict_keys. rewrite <- list_fmap_compose.
  apply list_fmap_id.
Qed.

Lemma demand_map_is_the_table_witness :
  demand_feb_2024 = demand_table roster_overlap 29
  /\ dict_keys demand_feb_2024 = py_range 1 (29 + 1).
Proof.
  apply (demand_map_is_the_table roster_overlap 29 demand_feb_2024).
  vm_compute. reflexivity.
Defined.

(** X13: for every length N of the month, a doctor is listed on a day of
    the demand map exactly when the roster has an entry for that doctor
    whose wanted days contain the day, the day is at most N, and the entry
    does not exclude the day. *)
Theorem demand_lists_exactly_the_wanting_doctors
    (doctors : dict string details) (num_days : Z)
    (schedule : dict Z (list string)) (day : Z) (l : list string)
    (doctor : string) :
  build_schedule doctors num_days = Ok schedule ->
  (day, l) ∈ schedule ->
  doctor ∈ l <->
  exists det, (doctor, det) ∈ doctors /\ day ∈ wanted_days det
              /\ day <= num_days
              /\ day ∉ excluded_days det.
Proof.
  intros Hbuild Hin.
  apply build_schedule_table in Hbuild. subst schedule.
  apply demand_table_elem in Hin as [_ ->]. apply elem_of_wanting.
Qed.

Lemma demand_lists_exactly_the_wanting_doctors_witness :
  doctor_B ∈ [doctor_A; doctor_B] <->
  exists det, (doctor_B, det) ∈ roster_overlap /\ 5 ∈ wanted_days det
              /\ 5 <= 29 /\ 5 ∉ excluded_days det.
Proof.
  apply (demand_lists_exactly_the_wanting_doctors roster_overlap 29
           demand_feb_2024 5 [doctor_A; doctor_B] doctor_B).
  - vm_compute. reflexivity.
  - apply (bool_decide_unpack _). vm_compute. exact I.
Defined.

(** X14: for every length of the month, when no doctor's wanted days
    contain a day twice, no list of the demand map holds a doctor
    twice. *)
Theorem demand_lists_have_no_duplicates
    (doctors : dict string details) (num_days : Z)
    (schedule : dict Z (list string)) (day : Z) (l : list string) :
  dict_wf doctors ->
  (forall entry, entry ∈ doctors -> NoDup (wanted_days entry.2)) ->
  build_schedule doctors num_days = Ok schedule ->
  (day, l) ∈ schedule ->
  NoDup l.
Proof.
  intros Hwf Hall Hbuild Hin.
  apply build_schedule_table in Hbuild. subst schedule.
  apply demand_table_elem in Hin as [_ ->]. by apply wanting_NoDup.
Qed.

Lemma demand_lists_have_no_duplicates_witness :
  NoDup [doctor_A; doctor_B].
Proof.
  apply (demand_lists_have_no_duplicates roster_overlap 29
           demand_feb_2024 5 [doctor_A; doctor_B]).
  - apply (bool_decide_unpack _). vm_compute. exact I.
  - intros entry Hin. unfold roster_overlap in Hin.
    repeat (apply elem_of_cons in Hin as [-> | Hin]);
      try (by apply elem_of_nil in Hin);
      apply (bool_decide_unpack _); vm_compute; exact I.
  - vm_compute. reflexivity.
  - apply (bool_decide_unpack _). vm_compute. exact I.
Defined.

(** X15: for every length N of the month, when no wanted day is below 1,
    the loops of [generate_initial_schedule] raise nothing and return the
    demand table: wanted days above N are dropped, and every other wanted
    day is a key of the schedule. *)
Theorem demand_builder_returns
    (doctors : dict string details) (num_days : Z) :
  (forall entry day, entry ∈ doctors -> day ∈ wanted_days entry.2 -> 1 <= day) ->
  build_schedule doctors num_days = Ok (demand_table doctors num_days).
Proof.
  intros Hwanted.
  destruct (build_schedule_total doctors num_days Hwanted) as (schedule & Hb & _).
  rewrite Hb. f_equal. by apply build_schedule_table.
Qed.

Lemma demand_builder_returns_witness :
  build_schedule roster_overlap 29 = Ok (demand_table roster_overlap 29).
Proof.
  apply (demand_builder_returns roster_overlap 29).
  intros entry day Hin Hday. unfold roster_overlap in Hin.
  repeat (apply elem_of_cons in Hin as [-> | Hin]);
    try (by apply elem_of_nil in Hin); simpl in Hday;
    repeat (apply elem_of_cons in Hday as [-> | Hday]);
    try (by apply elem_of_nil in Hday); lia.
Defined.

(** X16: [validate_days] only drops days above the length of the month.
    For every length N of the month, a wanted day below 1 that is at most
    N (as it is for every month, which has a day 1) and that its doctor
    does not exclude makes the loops of [generate_initial_schedule] raise
    [KeyError], from [schedule[day].append(doctor)]. *)
Theorem demand_builder_raises_on_day_below_1
    (doctors : dict string details) (num_days : Z)
    (doctor : string) (det : details) (day : Z) :
  (doctor, det) ∈ doctors ->
  day ∈ wanted_days det ->
  day < 1 ->
  day <= num_days ->
  day ∉ excluded_days det ->
  build_schedule doctors num_days = Raise KeyError.
Proof. apply build_schedule_low_day. Qed.

Lemma demand_builder_raises_on_day_below_1_witness :
  build_schedule roster_day_0 29 = Raise KeyError.
Proof.
  apply (demand_builder_raises_on_day_below_1 roster_day_0 29 doctor_A
           {| excluded_days := []; wanted_days := [2; 0]; num_shifts := None |}
           0).
  - left.
  - right. left.
  - lia.
  - lia.
  - apply not_elem_of_nil.
Defined.

(** X17: [identify_conflicts] is idempotent: the conflicts of a conflict
    map are the conflict map itself, and each of its days has at least
    two candidates. *)
Theorem conflicts_of_conflicts
    (schedule : dict Z (list string)) :
  dict_wf schedule ->
  identify_conflicts (identify_conflicts schedule) = identify_conflicts schedule
  /\ forall day l, (day, l) ∈ identify_conflicts schedule ->
                   (day, l) ∈ schedule /\ 2 <= len l.
Proof.
  intros Hwf. rewrite (identify_conflicts_filter schedule Hwf). split.
  - rewrite identify_conflicts_filter by (by apply HeapFacts.filter_wf).
    apply list_filter_filter_l. done.
  - intros day l Hin. apply list_elem_of_filter in Hin as [Hlen Hin].
    simpl in Hlen. split; [done | lia].
Qed.

Lemma conflicts_of_conflicts_witness :
  identify_conflicts (identify_conflicts demand_feb_2024)
  = identify_conflicts demand_feb_2024
  /\ forall day l, (day, l) ∈ identify_conflicts demand_feb_2024 ->
                   (day, l) ∈ demand_feb_2024 /\ 2 <= len l.
Proof.
  apply (conflicts_of_conflicts demand_feb_2024).
  apply (bool_decide_unpack _). vm_compute. exact I.
Defined.

(** * Further properties of the holiday list and the annotator *)

Lemma digit_val_not_hyphen c v : digit_val c = Some v -> c <> hyphen.
Proof. intros H ->. vm_compute in H. discriminate. Qed.

Lemma digits_val_no_hyphen acc cs v :
  digits_val acc cs = Some v -> hyphen ∉ cs.
Proof.
  revert acc. induction cs as [|c cs IH]; intros acc H.
  - apply not_elem_of_nil.
  - simpl in H. destruct (digit_val c) as [w|] eqn:Hc; [ | done].
    apply not_elem_of_cons. split; [ | by eapply IH].
    intros Heq. by apply (digit_val_not_hyphen c w).
Qed.

Lemma parse_month_no_hyphen cs m : parse_month cs = Some m -> hyphen ∉ cs.
Proof.
  unfold parse_month. destruct cs as [|a [|b [|]]]; try done;
    destruct (digits_val 0 _) eqn:Hd; try done;
    intros _; by eapply digits_val_no_hyphen.
Qed.

Lemma parse_day_no_hyphen cs d : parse_day cs = Some d -> hyphen ∉ cs.
Proof.
  unfold parse_day. destruct cs as [|a [|b [|]]]; try done.
  - destruct (digits_val 0 [a]) eqn:Hd; [ | done].
    intros _. by eapply digits_val_no_hyphen.
  - destruct (decide (a = space)) as [->|Hne].
    + destruct (digits_val 0 [b]) eqn:Hd; [ | done]. intros _.
      apply digits_val_no_hyphen in Hd.
      apply not_elem_of_cons. split; [done | exact Hd].
    + destruct (digits_val 0 [a; b]) eqn:Hd; [ | done].
      intros _. by eapply digits_val_no_hyphen.
Qed.

Lemma split_hyphen_ok cs a b :
  split_hyphen cs = (a, Some b) -> cs = a ++ hyphen :: b /\ hyphen ∉ a.
Proof.
  revert a. induction cs as [|c cs IH]; intros a; [done |]. simpl.
  destruct (decide (c = hyphen)) as [->|Hne].
  - intros [= <- <-]. split; [done | apply not_elem_of_nil].
  - destruct (split_hyphen cs) as [a' b'] eqn:Hs. intros [= <- ->].
    destruct (IH a' eq_refl) as [-> Hnin]. split; [done |].
    apply not_elem_of_cons. split; [congruence | done].
Qed.

Lemma count_hyphens_app cs1 cs2 :
  count_hyphens (cs1 ++ cs2) = (count_hyphens cs1 + count_hyphens cs2)%nat.
Proof. unfold count_hyphens. by rewrite filter_app, length_app. Qed.

Lemma count_hyphens_none cs : hyphen ∉ cs -> count_hyphens cs = 0%nat.
Proof.
  intros Hnin. unfold count_hyphens. rewrite filter_none; [done |].
  intros c Hc ->. done.
Qed.

Lemma count_hyphens_cons_hyphen cs :
  count_hyphens (hyphen :: cs) = S (count_hyphens cs).
Proof. unfold count_hyphens. by rewrite filter_cons, decide_True. Qed.

(** A string that [strptime] accepts has two hyphens. *)
Lemma strptime_hyphens s date :
  strptime s = Ok date -> count_hyphens (chars s) = 2%nat.
Proof.
  unfold strptime.
  destruct (chars s) as [|y1 [|y2 [|y3 [|y4 [|h rest]]]]]; try done.
  destruct (digits_val 0 [y1; y2; y3; y4]) as [y|] eqn:Hy; [ | done].
  destruct (decide (h = hyphen)) as [->|]; [ | done].
  destruct (split_hyphen rest) as [mcs [dcs|]] eqn:Hsplit; [ | done].
  destruct (parse_month mcs) as [m|] eqn:Hm; [ | done].
  destruct (parse_day dcs) as [d|] eqn:Hd; [ | done].
  intros _. apply split_hyphen_ok in Hsplit as [-> _].
  apply digits_val_no_hyphen in Hy.
  apply parse_month_no_hyphen in Hm. apply parse_day_no_hyphen in Hd.
  change (y1 :: y2 :: y3 :: y4 :: hyphen :: mcs ++ hyphen :: dcs)
    with ([y1; y2; y3; y4] ++ hyphen :: mcs ++ hyphen :: dcs).
  rewrite count_hyphens_app, count_hyphens_cons_hyphen, count_hyphens_app,
    count_hyphens_cons_hyphen, !count_hyphens_none by done.
  done.
Qed.

(** An element of the holiday list has at least three. *)
Lemma holiday_hyphens year s :
  s ∈ get_public_holidays year -> (3 <= count_hyphens (chars s))%nat.
Proof.
  intros Hs. apply get_public_holidays_shape in Hs
    as (month & dd & _ & _ & ->).
  rewrite !chars_app, !count_hyphens_app.
  change (chars "-") with [hyphen].
  rewrite !count_hyphens_cons_hyphen. lia.
Qed.

Lemma strptime_not_holiday s date year :
  strptime s = Ok date -> s ∉ get_public_holidays year.
Proof.
  intros Hs Hin. apply strptime_hyphens in Hs. apply holiday_hyphens in Hin. lia.
Qed.

(** X18: for every year, each element of [get_public_holidays year] is the
    year, a hyphen, the two-digit month, a hyphen, and then the table
    entry, which repeats the month: YEAR-MM-MM-DD. None has the form
    YYYY-MM-DD. *)
Theorem holiday_strings_repeat_the_month (year : Z) (s : string) :
  s ∈ get_public_holidays year ->
  is_iso_date s = false
  /\ exists (month : Z) (dd : string),
       String.length dd = 2%nat /\ 1 <= month <= 12
       /\ s = (fmt_d year +:+ "-" +:+ fmt_02d month +:+ "-"
               +:+ fmt_02d month +:+ "-" +:+ dd)%string.
Proof.
  intros Hs. split; [by apply (holidays_never_iso_dates year) |].
  by apply get_public_holidays_shape.
Qed.

Lemma holiday_strings_repeat_the_month_witness :
  is_iso_date "2026-12-12-24" = false
  /\ exists (month : Z) (dd : string),
       String.length dd = 2%nat /\ 1 <= month <= 12
       /\ "2026-12-12-24"%string
          = (fmt_d 2026 +:+ "-" +:+ fmt_02d month +:+ "-"
             +:+ fmt_02d month +:+ "-" +:+ dd)%string.
Proof.
  apply (holiday_strings_repeat_the_month 2026 "2026-12-12-24").
  apply (bool_decide_unpack _). vm_compute. exact I.
Defined.

(** X19: with the list of [get_public_holidays], of any year, the holiday
    test of [is_weekend_or_holiday] never succeeds: for every date string
    of ASCII characters the function raises what [strptime] raises, or
    returns whether the day is a Saturday or a Sunday. *)
Theorem annotator_flags_weekends_only (date_str : string) (year : Z) :
  ascii_only date_str ->
  is_weekend_or_holiday date_str (get_public_holidays year)
  = match strptime date_str with
    | Ok (y, m, d) => Ok (5 <=? weekday y m d)
    | Raise e => Raise e
    end.
Proof.
  intros _. unfold is_weekend_or_holiday.
  destruct (strptime date_str) as [[[y m] d]|e] eqn:Hs; [ | done]. simpl.
  apply (strptime_not_holiday _ _ year) in Hs.
  rewrite bool_decide_eq_false_2 by done. by rewrite orb_false_r.
Qed.

Lemma annotator_flags_weekends_only_witness :
  is_weekend_or_holiday "2025-12-25" (get_public_holidays 2025)
  = match strptime "2025-12-25" with
    | Ok (y, m, d) => Ok (5 <=? weekday y m d)
    | Raise e => Raise e
    end.
Proof.
  apply (annotator_flags_weekends_only "2025-12-25" 2025).
  apply (bool_decide_unpack _). vm_compute. exact I.
Defined.

(** ** Date strings of the final table *)

Lemma years_round_trip : forallb year_round_trip (seqZ 1000 9000) = true.
Proof. vm_compute. reflexivity. Qed.

Lemma fields_round_trip : forallb field_round_trip (seqZ 1 31) = true.
Proof. vm_compute. reflexivity. Qed.

Lemma fmt_d_digits y :
  1000 <= y <= 9999 ->
  exists a b c d, chars (fmt_d y) = [a; b; c; d]
                  /\ digits_val 0 [a; b; c; d] = Some y.
Proof.
  intros Hy. pose proof years_round_trip as Hall.
  rewrite forallb_forall in Hall.
  assert (year_round_trip y = true) as Hrt
      by (apply Hall, list_elem_of_In, elem_of_seqZ; lia).
  unfold year_round_trip in Hrt.
  destruct (chars (fmt_d y)) as [|a [|b [|c [|d [|]]]]]; try discriminate.
  exists a, b, c, d. split; [done |]. by apply bool_decide_eq_true in Hrt.
Qed.

Lemma fmt_02d_digits n :
  1 <= n <= 31 ->
  exists p q, chars (fmt_02d n) = [p; q]
              /\ digits_val 0 [p; q] = Some n /\ p <> space.
Proof.
  intros Hn. pose proof fields_round_trip as Hall.
  rewrite forallb_forall in Hall.
  assert (field_round_trip n = true) as Hrt
      by (apply Hall, list_elem_of_In, elem_of_seqZ; lia).
  unfold field_round_trip in Hrt.
  destruct (chars (fmt_02d n)) as [|p [|q [|]]]; try discriminate.
  exists p, q. split; [done |].
  apply andb_true_iff in Hrt as [H1 H2].
  split; [by apply bool_decide_eq_true in H1 |].
  apply negb_true_iff in H2. by apply bool_decide_eq_false in H2.
Qed.

Lemma days_in_month_le_31 y m : days_in_month y m <= 31.
Proof.
  unfold days_in_month. destruct (m =? 2); [destruct (is_leap y); lia |].
  destruct (_ || _); lia.
Qed.

Lemma strptime_date_str y m d :
  1000 <= y <= 9999 -> 1 <= m <= 12 -> 1 <= d <= days_in_month y m ->
  strptime (date_str y m d) = Ok (y, m, d).
Proof.
  intros Hy Hm Hd. pose proof (days_in_month_le_31 y m) as H31.
  destruct (fmt_d_digits y Hy) as (a & b & c & e & Hyc & Hyv).
  destruct (fmt_02d_digits m ltac:(lia)) as (p & q & Hmc & Hmv & _).
  destruct (fmt_02d_digits d ltac:(lia)) as (r & t & Hdc & Hdv & Hr).
  pose proof (digits_val_no_hyphen _ _ _ Hmv) as Hpq.
  apply not_elem_of_cons in Hpq as [Hp Hq].
  apply not_elem_of_cons in Hq as [Hq _].
  unfold strptime, date_str. rewrite !chars_app, Hyc, Hmc, Hdc.
  change (chars "-") with [hyphen]. cbn [app]. rewrite Hyv.
  rewrite decide_True by done. cbn [split_hyphen].
  rewrite !decide_False by congruence. rewrite decide_True by done.
  unfold parse_month. rewrite Hmv.
  replace ((1 <=? m) && (m <=? 12)) with true
    by (symmetry; apply andb_true_iff; split; lia).
  unfold parse_day. rewrite decide_False by done. rewrite Hdv.
  replace ((1 <=? d) && (d <=? 31)) with true
    by (symmetry; apply andb_true_iff; split; lia).
  replace ((1 <=? y) && (d <=? days_in_month y m)) with true
    by (symmetry; apply andb_true_iff; split; lia).
  done.
Qed.

(** X20: formatting and parsing a date are inverse: for a year of four
    digits, a month 1..12 and a day of that month, [strptime] applied to
    the string [f"{year}-{month:02d}-{day:02d}"] that [main] builds
    returns that very date and raises nothing. *)
Theorem date_string_round_trip (year month day : Z) :
  1000 <= year <= 9999 ->
  1 <= month <= 12 ->
  1 <= day <= days_in_month year month ->
  strptime (date_str year month day) = Ok (year, month, day).
Proof. apply strptime_date_str. Qed.

Lemma date_string_round_trip_witness :
  strptime (date_str 2024 2 29) = Ok (2024, 2, 29).
Proof.
  apply (date_string_round_trip 2024 2 29); vm_compute; split; discriminate.
Defined.

(** X21: for every row of the final table (a day of the selected month of
    a four-digit year) the call
    [is_weekend_or_holiday(date_str, holidays)] of [main] returns, and it
    returns [True] exactly on Saturdays and Sundays: with the list of
    [get_public_holidays] no row is marked as a holiday. *)
Theorem table_rows_mark_weekends_only (year month day holiday_year : Z) :
  1000 <= year <= 9999 ->
  1 <= month <= 12 ->
  1 <= day <= days_in_month year month ->
  is_weekend_or_holiday (date_str year month day)
    (get_public_holidays holiday_year)
  = Ok (5 <=? weekday year month day).
Proof.
  intros Hy Hm Hd. unfold is_weekend_or_holiday.
  pose proof (strptime_date_str year month day Hy Hm Hd) as Hs.
  rewrite Hs. simpl.
  apply (strptime_not_holiday _ _ holiday_year) in Hs.
  rewrite bool_decide_eq_false_2 by done. by rewrite orb_false_r.
Qed.

Lemma table_rows_mark_weekends_only_witness :
  is_weekend_or_holiday (date_str 2025 12 25) (get_public_holidays 2025)
  = Ok (5 <=? weekday 2025 12 25).
Proof.
  apply (table_rows_mark_weekends_only 2025 12 25 2025);
    vm_compute; split; discriminate.
Defined.

(** * The session state *)

(** ** Deleting keys *)

Lemma filter_all {A : Type} (P : A -> Prop) `{forall x, Decision (P x)}
    (l : list A) :
  (forall x, x ∈ l -> P x) -> filter P l = l.
Proof.
  induction l as [|a l IH]; intros Hall; [done |].
  rewrite filter_cons, decide_True by (apply Hall; by left).
  f_equal. apply IH. intros x Hx. apply Hall. by right.
Qed.

Lemma dict_remove_filter {K V : Type} `{EqDecision K} (d : dict K V) (k : K) :
  dict_wf d -> dict_remove d k = filter (fun e => e.1 <> k) d.
Proof.
  unfold dict_wf, dict_keys. induction d as [|[k' v] d IH]; intros Hwf; [done |].
  apply NoDup_cons in Hwf as [Hnin Hwf]. simpl. rewrite filter_cons. simpl.
  destruct (decide (k = k')) as [->|Hne].
  - rewrite decide_False by (intros Hk; by apply Hk).
    symmetry. apply filter_all. intros [k v'] Hin Heq. simpl in Heq. subst k.
    apply Hnin. apply list_elem_of_fmap. by exists (k', v').
  - rewrite decide_True by congruence. f_equal. by apply IH.
Qed.

(** Lookup in a dictionary filtered by a test on the keys. *)
Lemma dict_get_filter_keys {K V : Type} `{EqDecision K} (Q : K -> bool)
    (d : dict K V) (k : K) :
  dict_get (filter (fun e => Q e.1 = true) d) k
  = if Q k then dict_get d k else None.
Proof.
  induction d as [|[k' v] d IH]; simpl; [by destruct (Q k) |].
  rewrite filter_cons. simpl.
  destruct (decide (Q k' = true)) as [Hq|Hq]; simpl;
    destruct (decide (k = k')) as [->|Hne]; try done.
  - by rewrite Hq.
  - rewrite IH. destruct (Q k') eqn:E; [done | done].
Qed.

Lemma filter_keys_elem {K V : Type} (P : K * V -> Prop)
    `{forall x, Decision (P x)} (d : dict K V) (k : K) :
  k ∈ dict_keys (filter P d) -> k ∈ dict_keys d.
Proof.
  unfold dict_keys. intros Hk.
  apply list_elem_of_fmap in Hk as (e & -> & He).
  apply list_elem_of_filter in He as [_ He].
  apply list_elem_of_fmap. by exists e.
Qed.

(** The loop of [reset_scheduling_process] over the keys [ks]. *)
Lemma reset_loop (ks : list string) (st : dict string session_value) :
  dict_wf st -> NoDup ks -> (forall k, k ∈ ks -> k ∈ dict_keys st) ->
  for_each
    (fun st key => if is_scheduling_key key then dict_delitem st key else Ok st)
    ks st
  = Ok (filter (fun e => ~ (is_scheduling_key e.1 = true /\ e.1 ∈ ks)) st).
Proof.
  revert st. induction ks as [|k ks IH]; intros st Hwf Hnd Hks.
  - simpl. f_equal. symmetry. apply filter_all.
    intros e _ [_ Hin]. by apply elem_of_nil in Hin.
  - apply NoDup_cons in Hnd as [Hnin Hnd]. rewrite for_each_cons.
    destruct (is_scheduling_key k) eqn:Hk.
    + unfold dict_delitem, dict_mem.
      destruct (proj2 (dict_get_is_Some_keys st k) (Hks k (list_elem_of_here _ _)))
        as [v ->]. simpl.
      rewrite dict_remove_filter by done. rewrite IH.
      * f_equal. rewrite list_filter_filter. apply HeapFacts.filter_ext_in.
        intros e He. rewrite elem_of_cons. split.
        -- intros [Hn Hne] [Hs [Heq | Hin]]; [done | by apply Hn].
        -- intros Hn. split; [intros [Hs Hin]; apply Hn; eauto |].
           intros Heq. apply Hn. rewrite Heq. eauto.
      * by apply HeapFacts.filter_wf.
      * done.
      * intros k' Hk'. unfold dict_keys. apply list_elem_of_fmap.
        assert (k' ∈ dict_keys st) as Hin by (apply Hks; by right).
        apply list_elem_of_fmap in Hin as (e & -> & He). exists e.
        split; [done |]. apply list_elem_of_filter. split; [ | done].
        intros Heq. apply Hnin. by rewrite <- Heq.
    + simpl. rewrite IH; try done; [ | intros; apply Hks; by right].
      f_equal. apply HeapFacts.filter_ext_in.
      intros e He. rewrite elem_of_cons. split.
      * intros Hn [Hs [Heq | Hin]]; [congruence | by apply Hn].
      * intros Hn [Hs Hin]. apply Hn. eauto.
Qed.

Lemma reset_keys_filter (keys : list string)
    (session_state : dict string session_value) :
  dict_wf session_state ->
  keys ≡ₚ dict_keys session_state ->
  reset_keys keys session_state
  = Ok (filter (fun e => is_scheduling_key e.1 = false) session_state).
Proof.
  intros Hwf Hperm. unfold reset_keys.
  rewrite reset_loop; [ | done | by rewrite Hperm
                        | by intros k Hk; rewrite <- Hperm]. f_equal.
  apply HeapFacts.filter_ext_in. intros e He. split.
  - intros Hn. destruct (is_scheduling_key e.1) eqn:E; [ | done].
    exfalso. apply Hn. split; [done |]. rewrite Hperm.
    apply list_elem_of_fmap. by exists e.
  - intros Hf [Hs _]. congruence.
Qed.

Lemma reset_scheduling_process_filter
    (session_state : dict string session_value) :
  dict_wf session_state ->
  reset_scheduling_process session_state
  = Ok (filter (fun e => is_scheduling_key e.1 = false) session_state).
Proof. intros Hwf. by apply reset_keys_filter. Qed.

Lemma reset_scheduling_process_get
    (session_state : dict string session_value) (key : string) :
  dict_get (filter (fun e => is_scheduling_key e.1 = false) session_state) key
  = if is_scheduling_key key then None else dict_get session_state key.
Proof.
  rewrite (HeapFacts.filter_ext_in _
             (fun e => negb (is_scheduling_key e.1) = true) session_state).
  - rewrite (dict_get_filter_keys (fun k => negb (is_scheduling_key k))).
    by destruct (is_scheduling_key key).
  - intros e He. by destruct (is_scheduling_key e.1).
Qed.

(** X22: in whatever order the session state lists its keys,
    [reset_scheduling_process] raises nothing and deletes exactly the keys
    that start with "conflict_" and the keys "initial_schedule",
    "conflicts" and "final_schedule": afterwards a deleted key is absent,
    and every other key holds the value it held before. *)
Theorem reset_deletes_the_scheduling_keys
    (keys : list string) (session_state : dict string session_value) :
  dict_wf session_state ->
  keys ≡ₚ dict_keys session_state ->
  exists session_state',
    reset_keys keys session_state = Ok session_state'
    /\ forall key,
         dict_get session_state' key
         = if is_scheduling_key key then None else dict_get session_state key.
Proof.
  intros Hwf Hperm. eexists. split; [by apply reset_keys_filter |].
  apply reset_scheduling_process_get.
Qed.

Lemma reset_deletes_the_scheduling_keys_witness :
  exists session_state',
    reset_keys (reverse (dict_keys session_after_run)) session_after_run
    = Ok session_state'
    /\ forall key,
         dict_get session_state' key
         = if is_scheduling_key key then None
           else dict_get session_after_run key.
Proof.
  apply (reset_deletes_the_scheduling_keys
           (reverse (dict_keys session_after_run)) session_after_run).
  - apply (bool_decide_unpack _). vm_compute. exact I.
  - apply reverse_Permutation.
Defined.

(** ** Conflict resolution *)

Lemma conflict_key_inj day day' :
  conflict_key day = conflict_key day' -> day = day'.
Proof.
  unfold conflict_key, fmt_d. simpl. intros H. simplify_eq.
  by apply (inj pretty).
Qed.

Lemma conflict_key_startswith_true day :
  startswith (conflict_key day) "conflict_" = true.
Proof. unfold startswith, conflict_key. simpl. by destruct (_ +:+ _)%string. Qed.

Lemma conflict_key_scheduling day : is_scheduling_key (conflict_key day) = true.
Proof. unfold is_scheduling_key. by rewrite conflict_key_startswith_true. Qed.

Lemma conflict_key_startswith key (days : list Z) :
  startswith key "conflict_" = false -> key ∉ conflict_key <$> days.
Proof.
  intros Hs Hin. apply list_elem_of_fmap in Hin as (day & -> & _).
  by rewrite conflict_key_startswith_true in Hs.
Qed.

Lemma dict_set_set {K V : Type} `{EqDecision K} (d : dict K V) k (a b : V) :
  dict_set (dict_set d k a) k b = dict_set d k b.
Proof.
  induction d as [|[k' v'] d IH]; simpl.
  - by rewrite decide_True.
  - destruct (decide (k = k')) as [->|Hne]; simpl.
    + by rewrite decide_True.
    + rewrite decide_False by done. by rewrite IH.
Qed.

Lemma list_index_raise {A : Type} `{EqDecision A} (xs : list A) x e :
  list_index xs x = Raise e -> e = ValueError /\ x ∉ xs.
Proof.
  induction xs as [|y xs IH]; simpl.
  - intros [= <-]. split; [done | apply not_elem_of_nil].
  - destruct (decide (x = y)) as [->|Hne]; [done |].
    destruct (list_index xs x) as [i|e'] eqn:E; simpl; [done |].
    intros [= <-]. destruct (IH eq_refl) as [-> Hnin]. split; [done |].
    rewrite not_elem_of_cons. done.
Qed.

Lemma list_index_absent {A : Type} `{EqDecision A} (xs : list A) x :
  x ∉ xs -> list_index xs x = Raise ValueError.
Proof.
  induction xs as [|y xs IH]; simpl; [done |].
  rewrite not_elem_of_cons. intros [Hne Hnin].
  rewrite decide_False by done. by rewrite IH.
Qed.

Lemma list_index_ok {A : Type} `{EqDecision A} (xs : list A) x i :
  list_index xs x = Ok i -> 0 <= i /\ xs !! Z.to_nat i = Some x.
Proof.
  revert i. induction xs as [|y xs IH]; intros i; simpl; [done |].
  destruct (decide (x = y)) as [->|Hne].
  - intros [= <-]. done.
  - destruct (list_index xs x) as [j|e] eqn:E; simpl; [ | done].
    intros [= <-]. destruct (IH j eq_refl) as [Hj Hl]. split; [lia |].
    replace (Z.to_nat (j + 1)) with (S (Z.to_nat j)) by lia. done.
Qed.

Lemma index_of_value_raise doctors_list v e :
  index_of_value doctors_list v = Raise e -> e = ValueError.
Proof.
  destruct v; simpl; try by intros [= <-].
  intros H. by apply list_index_raise in H as [-> _].
Qed.

Lemma index_of_value_stale doctors_list v :
  (forall s, v = VStr s -> s ∉ doctors_list) ->
  index_of_value doctors_list v = Raise ValueError.
Proof.
  intros H. destruct v; simpl; try done. apply list_index_absent. by apply H.
Qed.

Lemma preselected_raise session_state item e :
  item.2 <> [] -> preselected session_state item = Raise e -> e = ValueError.
Proof.
  unfold preselected. intros Hne.
  destruct (dict_get session_state _) as [v|].
  - apply index_of_value_raise.
  - destruct item as [day [|a l]]; simpl in *; done.
Qed.

Lemma preselected_new session_state item :
  dict_get session_state (conflict_key item.1) = None -> item.2 <> [] ->
  preselected session_state item = Ok 0.
Proof.
  unfold preselected. intros -> Hne.
  destruct item as [day [|a l]]; simpl in *; done.
Qed.

Lemma preselected_frame session_state key v item :
  key <> conflict_key item.1 ->
  preselected (dict_set session_state key v) item
  = preselected session_state item.
Proof. intros Hne. unfold preselected. by rewrite dict_get_set_ne. Qed.

(** One round of the loop: the widget is shown the candidates with the
    preselected index, and its answer goes to the session state and to
    the resolution map. *)
Lemma resolve_step_eq selectbox session_state resolved_schedule day doctors_list :
  resolve_step selectbox (session_state, resolved_schedule) (day, doctors_list)
  = (i <- preselected session_state (day, doctors_list) ;;
     let selected := selectbox (conflict_key day) doctors_list i in
     Ok (dict_set session_state (conflict_key day) (VStr selected),
         dict_set resolved_schedule day selected)).
Proof.
  unfold resolve_step, preselected, dict_mem, dict_item. simpl.
  destruct (dict_get session_state (conflict_key day)) as [v|] eqn:Hget; simpl.
  - by rewrite Hget.
  - destruct doctors_list as [|a l]; simpl; [done |].
    rewrite dict_get_set_eq. simpl. rewrite decide_True by done. simpl.
    by rewrite dict_set_set.
Qed.

Lemma resolve_loop_ok selectbox session0 (items : dict Z (list string)) :
  forall session_state resolved_schedule,
    NoDup items.*1 ->
    (forall item, item ∈ items -> item.1 ∉ dict_keys resolved_schedule) ->
    (forall item, item ∈ items ->
       preselected session_state item = preselected session0 item) ->
    (forall item, item ∈ items -> exists i, preselected session0 item = Ok i) ->
    exists session_state' new,
      for_each (resolve_step selectbox) items (session_state, resolved_schedule)
      = Ok (session_state', resolved_schedule ++ new)
      /\ answers selectbox session0 items new
      /\ (forall key, key ∉ conflict_key <$> items.*1 ->
            dict_get session_state' key = dict_get session_state key)
      /\ Forall (fun r : Z * string =>
                   dict_get session_state' (conflict_key r.1) = Some (VStr r.2))
           new.
Proof.
  induction items as [|[day l] items IH];
    intros session_state resolved_schedule Hnd Hfresh Hsame Hok.
  - exists session_state, []. rewrite app_nil_r. repeat split; try done.
    constructor.
  - rewrite fmap_cons in Hnd. apply NoDup_cons in Hnd as [Hnin Hnd]. simpl in Hnin.
    rewrite for_each_cons, resolve_step_eq.
    destruct (Hok (day, l)) as [i Hi]; [by left |].
    rewrite (Hsame (day, l)) by (by left). rewrite Hi. simpl.
    set (a := selectbox (conflict_key day) l i).
    assert (forall item, item ∈ items -> conflict_key day <> conflict_key item.1)
      as Hkeys.
    { intros item Hin Heq. apply conflict_key_inj in Heq. apply Hnin.
      rewrite Heq. apply list_elem_of_fmap. by exists item. }
    destruct (IH (dict_set session_state (conflict_key day) (VStr a))
                 (dict_set resolved_schedule day a))
      as (ss' & new & Hrun & Hans & Hframe & Hstored).
    + done.
    + intros item Hin. rewrite dict_set_absent by (apply (Hfresh (day, l)); by left).
      unfold dict_keys. rewrite fmap_app, elem_of_app. simpl.
      intros [Hr | Hd].
      * apply (Hfresh item); [by right | done].
      * apply list_elem_of_singleton in Hd. apply Hnin. rewrite <- Hd.
        apply list_elem_of_fmap. by exists item.
    + intros item Hin. rewrite preselected_frame by (by apply Hkeys).
      apply Hsame. by right.
    + intros item Hin. apply Hok. by right.
    + rewrite (dict_set_absent resolved_schedule day a) in Hrun
        by (apply (Hfresh (day, l)); by left).
      rewrite <- app_assoc in Hrun. simpl in Hrun.
      exists ss', ((day, a) :: new).
      split; [by rewrite (dict_set_absent resolved_schedule day a)
                by (apply (Hfresh (day, l)); by left) |].
      assert (dict_get ss' (conflict_key day) = Some (VStr a)) as Hday.
      { rewrite Hframe; [apply dict_get_set_eq |].
        intros Hin. apply list_elem_of_fmap in Hin as (d & Heq & Hd).
        apply conflict_key_inj in Heq. by subst d. }
      split; [ | split].
      * constructor; [ | done]. simpl. split; [done |]. by exists i.
      * intros key Hkey. apply not_elem_of_cons in Hkey as [Hne Hkey]. rewrite Hframe by done.
        by rewrite dict_get_set_ne.
      * by constructor.
Qed.

Lemma resolve_loop_raise selectbox session0 (items : dict Z (list string)) :
  forall session_state resolved_schedule item e,
    NoDup items.*1 ->
    (forall item, item ∈ items ->
       preselected session_state item = preselected session0 item) ->
    item ∈ items -> preselected session0 item = Raise e ->
    exists item' e',
      for_each (resolve_step selectbox) items (session_state, resolved_schedule)
      = Raise e'
      /\ item' ∈ items /\ preselected session0 item' = Raise e'.
Proof.
  induction items as [|[day l] items IH];
    intros session_state resolved_schedule item e Hnd Hsame Hin He.
  - by apply elem_of_nil in Hin.
  - rewrite fmap_cons in Hnd. apply NoDup_cons in Hnd as [Hnin Hnd]. simpl in Hnin.
    rewrite for_each_cons, resolve_step_eq.
    rewrite (Hsame (day, l)) by (by left).
    destruct (preselected session0 (day, l)) as [i|e0] eqn:Hi; simpl.
    + apply elem_of_cons in Hin as [-> | Hin]; [congruence |].
      destruct (IH (dict_set session_state (conflict_key day)
                      (VStr (selectbox (conflict_key day) l i)))
                   (dict_set resolved_schedule day (selectbox (conflict_key day) l i))
                   item e Hnd) as (item' & e' & Hrun & Hin' & He'); try done.
      * intros item1 Hin1. rewrite preselected_frame; [apply Hsame; by right |].
        intros Heq. apply conflict_key_inj in Heq. apply Hnin. rewrite Heq.
        apply list_elem_of_fmap. by exists item1.
      * exists item', e'. split; [done |]. split; [by right | done].
    + exists (day, l), e0. split; [done |]. split; [by left | done].
Qed.

Lemma answers_keys selectbox session_state conflicts resolved :
  answers selectbox session_state conflicts resolved ->
  dict_keys resolved = dict_keys conflicts.
Proof.
  unfold answers, dict_keys. induction 1 as [|item r items rs [Hk _] _ IH]; [done |].
  rewrite !fmap_cons. by f_equal.
Qed.

Lemma answers_get selectbox session_state conflicts resolved day x :
  answers selectbox session_state conflicts resolved ->
  dict_get resolved day = Some x ->
  exists l i, (day, l) ∈ conflicts
              /\ preselected session_state (day, l) = Ok i
              /\ x = selectbox (conflict_key day) l i.
Proof.
  intros Hans Hget. apply dict_get_Some_elem in Hget.
  apply list_elem_of_lookup in Hget as [n Hn].
  destruct (Forall2_lookup_r _ _ _ _ _ Hans Hn) as ([d l] & Hl & Hk & i & Hi & Hx).
  simpl in *. subst d. exists l, i. split; [ | done].
  apply list_elem_of_lookup. by exists n.
Qed.

Lemma preselected_range session_state item i :
  preselected session_state item = Ok i -> 0 <= i < len item.2.
Proof.
  unfold preselected. destruct (dict_get session_state _) as [v|].
  - destruct v; simpl; try done. intros H.
    apply list_index_ok in H as [Hi Hl]. apply lookup_lt_Some in Hl.
    unfold len. lia.
  - destruct item as [day [|a l]]; simpl; [done |]. intros [= <-].
    unfold len. simpl. lia.
Qed.

Lemma untouched_selectbox_option : returns_an_option untouched_selectbox.
Proof.
  intros key options index Hi. unfold untouched_selectbox.
  destruct (options !! Z.to_nat index) as [x|] eqn:E; simpl.
  - by apply list_elem_of_lookup_2 in E.
  - apply lookup_ge_None in E. unfold len in Hi. lia.
Qed.

Lemma conflicts_not_empty schedule item :
  dict_wf schedule -> item ∈ identify_conflicts schedule ->
  item ∈ schedule /\ item.2 <> [].
Proof.
  intros Hwf. rewrite identify_conflicts_filter by done.
  intros Hin. apply list_elem_of_filter in Hin as [Hlen Hin]. split; [done |].
  intros Hnil. rewrite Hnil in Hlen. unfold len in Hlen. simpl in Hlen. lia.
Qed.

Lemma conflicts_wf schedule :
  dict_wf schedule -> dict_wf (identify_conflicts schedule).
Proof.
  intros Hwf. rewrite identify_conflicts_filter by done.
  by apply HeapFacts.filter_wf.
Qed.

Lemma answers_first selectbox session_state conflicts resolved :
  answers selectbox session_state conflicts resolved ->
  (forall item, item ∈ conflicts -> preselected session_state item = Ok 0) ->
  resolved
  = (fun item : Z * list string =>
       (item.1, selectbox (conflict_key item.1) item.2 0)) <$> conflicts.
Proof.
  unfold answers. induction 1 as [|item r items rs (Hk & i & Hi & Hr) _ IH];
    intros Hall; [done |].
  rewrite fmap_cons. f_equal.
  - rewrite (Hall item) in Hi by (by left). injection Hi as <-.
    destruct r as [d x]. simpl in *. by subst.
  - apply IH. intros item' Hin. apply Hall. by right.
Qed.

Lemma resolve_conflicts_ok selectbox session_state conflicts :
  dict_wf conflicts ->
  (forall item, item ∈ conflicts ->
     exists i, preselected session_state item = Ok i) ->
  exists session_state' resolved,
    resolve_conflicts selectbox session_state conflicts
    = Ok (session_state', resolved)
    /\ answers selectbox session_state conflicts resolved
    /\ (forall key, key ∉ conflict_key <$> dict_keys conflicts ->
          dict_get session_state' key = dict_get session_state key).
Proof.
  intros Hwf Hok.
  destruct (resolve_loop_ok selectbox session_state conflicts session_state [])
    as (ss' & new & Hrun & Hans & Hframe & _); try done.
  - intros item _. apply not_elem_of_nil.
  - exists ss', new. done.
Qed.

Lemma resolve_conflicts_preselected selectbox session_state conflicts r :
  dict_wf conflicts ->
  resolve_conflicts selectbox session_state conflicts = Ok r ->
  forall item, item ∈ conflicts ->
    exists i, preselected session_state item = Ok i.
Proof.
  intros Hwf Hrun item Hin.
  destruct (preselected session_state item) as [i|e] eqn:Hi; [by exists i |].
  destruct (resolve_loop_raise selectbox session_state conflicts session_state []
              item e Hwf) as (item' & e' & Hraise & _); try done.
  unfold resolve_conflicts in Hrun. congruence.
Qed.

Lemma resolve_conflicts_stale selectbox session_state conflicts day doctors_list v :
  dict_wf conflicts ->
  (forall item, item ∈ conflicts -> item.2 <> []) ->
  (day, doctors_list) ∈ conflicts ->
  dict_get session_state (conflict_key day) = Some v ->
  (forall s, v = VStr s -> s ∉ doctors_list) ->
  resolve_conflicts selectbox session_state conflicts = Raise ValueError.
Proof.
  intros Hwf Hne Hin Hget Hstale.
  assert (preselected session_state (day, doctors_list) = Raise ValueError) as Hp.
  { unfold preselected. simpl. rewrite Hget. by apply index_of_value_stale. }
  destruct (resolve_loop_raise selectbox session_state conflicts session_state []
              (day, doctors_list) ValueError Hwf)
    as (item' & e' & Hraise & Hin' & He'); try done.
  apply preselected_raise in He'; [ | by apply Hne]. subst e'. exact Hraise.
Qed.

(** X23: when no day of the conflict map has a stored choice outside its
    candidates (and a day without a stored choice has a candidate),
    [resolve_conflicts] raises nothing; the resolution map has the days of
    the conflict map, in its order, and each day holds what the widget
    answered for the day's candidates, the widget being preselected with
    the stored choice, or with the first candidate for a new day. *)
Theorem resolve_returns_the_widget_answers
    (selectbox : string -> list string -> Z -> string)
    (session_state : dict string session_value)
    (conflicts : dict Z (list string)) :
  dict_wf conflicts ->
  (forall item, item ∈ conflicts ->
     exists i, preselected session_state item = Ok i) ->
  exists session_state' resolved,
    resolve_conflicts selectbox session_state conflicts
    = Ok (session_state', resolved)
    /\ dict_keys resolved = dict_keys conflicts
    /\ answers selectbox session_state conflicts resolved.
Proof.
  intros Hwf Hok.
  destruct (resolve_conflicts_ok selectbox session_state conflicts Hwf Hok)
    as (ss' & resolved & Hrun & Hans & _).
  exists ss', resolved. split; [done |]. split; [ | done].
  by apply (answers_keys selectbox session_state).
Qed.

Lemma resolve_returns_the_widget_answers_witness :
  exists session_state' resolved,
    resolve_conflicts untouched_selectbox session_with_roster
      (identify_conflicts demand_feb_2024)
    = Ok (session_state', resolved)
    /\ dict_keys resolved = dict_keys (identify_conflicts demand_feb_2024)
    /\ answers untouched_selectbox session_with_roster
         (identify_conflicts demand_feb_2024) resolved.
Proof.
  apply (resolve_returns_the_widget_answers untouched_selectbox
           session_with_roster (identify_conflicts demand_feb_2024)).
  - apply (bool_decide_unpack _). vm_compute. exact I.
  - intros item Hin. exists 0. vm_compute in Hin.
    apply list_elem_of_singleton in Hin. subst item. vm_compute. reflexivity.
Defined.

(** X24: a stored choice that is not among the candidates of its day (the
    roster has changed since the choice was made) makes [resolve_conflicts]
    raise [ValueError] on the conflicts of a demand map, whatever the other
    days hold. *)
Theorem stale_choice_raises_value_error
    (selectbox : string -> list string -> Z -> string)
    (session_state : dict string session_value)
    (schedule : dict Z (list string)) (day : Z) (doctors_list : list string)
    (v : session_value) :
  dict_wf schedule ->
  (day, doctors_list) ∈ identify_conflicts schedule ->
  dict_get session_state (conflict_key day) = Some v ->
  (forall s, v = VStr s -> s ∉ doctors_list) ->
  resolve_conflicts selectbox session_state (identify_conflicts schedule)
  = Raise ValueError.
Proof.
  intros Hwf Hin Hget Hstale.
  apply (resolve_conflicts_stale selectbox session_state _ day doctors_list v);
    try done.
  - by apply conflicts_wf.
  - intros item Hitem. by apply (conflicts_not_empty schedule).
Qed.

Lemma stale_choice_raises_value_error_witness :
  resolve_conflicts untouched_selectbox session_after_run
    (identify_conflicts demand_feb_2024)
  = Raise ValueError.
Proof.
  apply (stale_choice_raises_value_error untouched_selectbox session_after_run
           demand_feb_2024 5 [doctor_A; doctor_B] (VStr "C")).
  - apply (bool_decide_unpack _). vm_compute. exact I.
  - apply (bool_decide_unpack _). vm_compute. exact I.
  - vm_compute. reflexivity.
  - intros s [= <-]. apply (bool_decide_unpack _). vm_compute. exact I.
Defined.

(** X25: after [reset_scheduling_process], [resolve_conflicts] raises
    nothing on the conflicts of a demand map: every day is new, so every
    widget is preselected with the first candidate of its day, and the
    resolution map holds the widgets' answers day by day. *)
Theorem resolve_after_reset_preselects_first
    (selectbox : string -> list string -> Z -> string)
    (session_state session_state0 : dict string session_value)
    (schedule : dict Z (list string)) :
  dict_wf session_state -> dict_wf schedule ->
  reset_scheduling_process session_state = Ok session_state0 ->
  exists session_state' resolved,
    resolve_conflicts selectbox session_state0 (identify_conflicts schedule)
    = Ok (session_state', resolved)
    /\ resolved
       = (fun item : Z * list string =>
            (item.1, selectbox (conflict_key item.1) item.2 0))
           <$> identify_conflicts schedule.
Proof.
  intros Hss Hwf Hreset.
  rewrite reset_scheduling_process_filter in Hreset by done.
  injection Hreset as <-.
  assert (forall item, item ∈ identify_conflicts schedule ->
            preselected
              (filter (fun e => is_scheduling_key e.1 = false) session_state)
              item = Ok 0) as Hnew.
  { intros item Hin. apply preselected_new.
    - by rewrite reset_scheduling_process_get, conflict_key_scheduling.
    - by apply (conflicts_not_empty schedule). }
  destruct (resolve_conflicts_ok selectbox
              (filter (fun e => is_scheduling_key e.1 = false) session_state)
              (identify_conflicts schedule))
    as (ss' & resolved & Hrun & Hans & _).
  - by apply conflicts_wf.
  - intros item Hin. exists 0. by apply Hnew.
  - exists ss', resolved. split; [done |].
    by apply (answers_first selectbox _ _ _ Hans).
Qed.

Lemma resolve_after_reset_preselects_first_witness :
  exists session_state' resolved,
    resolve_conflicts untouched_selectbox
      (filter (fun e => is_scheduling_key e.1 = false) session_after_run)
      (identify_conflicts demand_feb_2024)
    = Ok (session_state', resolved)
    /\ resolved
       = (fun item : Z * list string =>
            (item.1, untouched_selectbox (conflict_key item.1) item.2 0))
           <$> identify_conflicts demand_feb_2024.
Proof.
  apply (resolve_after_reset_preselects_first untouched_selectbox
           session_after_run _ demand_feb_2024).
  - apply (bool_decide_unpack _). vm_compute. exact I.
  - apply (bool_decide_unpack _). vm_compute. exact I.
  - vm_compute. reflexivity.
Defined.

(** X26: a run of [resolve_conflicts] that returns has written to the
    session state under the keys "conflict_<day>" of the days of the
    conflict map only: every other key holds what it held before. *)
Theorem resolve_writes_only_conflict_keys
    (selectbox : string -> list string -> Z -> string)
    (session_state session_state' : dict string session_value)
    (conflicts : dict Z (list string)) (resolved : dict Z string)
    (key : string) :
  dict_wf conflicts ->
  resolve_conflicts selectbox session_state conflicts
  = Ok (session_state', resolved) ->
  key ∉ conflict_key <$> dict_keys conflicts ->
  dict_get session_state' key = dict_get session_state key.
Proof.
  intros Hwf Hrun Hkey.
  pose proof (resolve_conflicts_preselected _ _ _ _ Hwf Hrun) as Hok.
  destruct (resolve_conflicts_ok selectbox session_state conflicts Hwf Hok)
    as (ss' & resolved' & Hrun' & _ & Hframe).
  rewrite Hrun in Hrun'. injection Hrun' as <- <-. by apply Hframe.
Qed.

Lemma resolve_writes_only_conflict_keys_witness :
  dict_get
    (dict_set session_with_roster "conflict_5" (VStr doctor_A)) "doctors"
  = dict_get session_with_roster "doctors".
Proof.
  apply (resolve_writes_only_conflict_keys untouched_selectbox
           session_with_roster _ (identify_conflicts demand_feb_2024)
           [(5, doctor_A)] "doctors").
  - apply (bool_decide_unpack _). vm_compute. exact I.
  - vm_compute. reflexivity.
  - apply (bool_decide_unpack _). vm_compute. exact I.
Defined.

(** ** The form and the buttons *)

Lemma session_roster_set session_state key doctors :
  session_roster (dict_set session_state key (VRoster doctors)) key = Ok doctors.
Proof. unfold session_roster, dict_item. by rewrite dict_get_set_eq. Qed.

Lemma session_demand_set session_state key schedule :
  session_demand (dict_set session_state key (VDemand schedule)) key
  = Ok schedule.
Proof. unfold session_demand, dict_item. by rewrite dict_get_set_eq. Qed.

Lemma session_roster_frame session_state session_state' key :
  dict_get session_state' key = dict_get session_state key ->
  session_roster session_state' key = session_roster session_state key.
Proof. unfold session_roster, dict_item. by intros ->. Qed.

Lemma session_demand_frame session_state session_state' key :
  dict_get session_state' key = dict_get session_state key ->
  session_demand session_state' key = session_demand session_state key.
Proof. unfold session_demand, dict_item. by intros ->. Qed.

Lemma days_overlap_false wanted excluded :
  days_overlap wanted excluded = false ->
  forall day, day ∈ wanted -> day ∉ excluded.
Proof.
  unfold days_overlap. intros H day Hw Hex.
  apply bool_decide_eq_false in H. apply H.
  apply Exists_exists. by exists day.
Qed.

Lemma days_overlap_true wanted excluded :
  days_overlap wanted excluded = true ->
  exists day, day ∈ wanted /\ day ∈ excluded.
Proof.
  unfold days_overlap. intros H. apply bool_decide_eq_true in H.
  by apply Exists_exists in H.
Qed.

(** What a submission of the form does. *)
Lemma submit_doctor_spec session_state add_doctor name excluded wanted shifts
    doctors :
  session_roster session_state "doctors" = Ok doctors ->
  form_roster doctors ->
  exists session_state' shown doctors',
    submit_doctor session_state add_doctor name excluded wanted shifts
    = Ok (session_state', shown)
    /\ session_roster session_state' "doctors" = Ok doctors'
    /\ form_roster doctors'
    /\ (shown = DoctorAdded ->
        add_doctor = true
        /\ doctors' = dict_set doctors name (form_entry excluded wanted shifts))
    /\ (shown <> DoctorAdded -> session_state' = session_state)
    /\ (shown = OverlapError <->
        add_doctor = true /\ name <> ""%string
        /\ exists day, day ∈ wanted /\ day ∈ excluded).
Proof.
  intros Hroster Hform. unfold submit_doctor.
  destruct add_doctor; simpl.
  2: { exists session_state, NoFeedback, doctors.
       split; [done |]. split; [done |]. split; [done |].
       split; [done |]. split; [done |].
       split; [done | by intros (? & _)]. }
  case_bool_decide as Hname; simpl.
  { exists session_state, NoFeedback, doctors.
    split; [done |]. split; [done |]. split; [done |].
    split; [done |]. split; [done |].
    split; [done | by intros (_ & ? & _)]. }
  destruct (days_overlap wanted excluded) eqn:Hover.
  - exists session_state, OverlapError, doctors.
    split; [done |]. split; [done |]. split; [done |].
    split; [done |]. split; [done |].
    split; [ | done]. intros _. split; [done |]. split; [done |].
    by apply days_overlap_true.
  - rewrite Hroster. simpl. fold (form_entry excluded wanted shifts).
    exists (dict_set session_state "doctors"%string
              (VRoster (dict_set doctors name (form_entry excluded wanted shifts)))),
      DoctorAdded, (dict_set doctors name (form_entry excluded wanted shifts)).
    split; [done |]. split; [apply session_roster_set |].
    split; [ | split; [done |]; split; [done |]; split; [done |]].
    + intros name' det. rewrite dict_get_set.
      destruct (decide (name = name')) as [<-|Hne]; [ | apply Hform].
      intros [= <-]. split; [done |]. split.
      * simpl. by apply days_overlap_false.
      * simpl. destruct (Z.ltb_spec 0 shifts); [lia | done].
    + intros (_ & _ & day & Hw & Hex).
      by destruct (days_overlap_false _ _ Hover day).
Qed.

(** X27: with a roster under "doctors", a submission of the form raises
    nothing and leaves a roster in which every doctor has a name, no day
    that is both wanted and excluded, and a positive bound or none. The
    roster changes only when the form reports that the doctor was added,
    and then by the submitted entry under the submitted name; the form
    reports an overlap exactly when the button was pressed with a name and
    some day is both wanted and excluded. *)
Theorem form_keeps_the_roster_well_formed
    (session_state : dict string session_value) (add_doctor : bool)
    (name : string) (excluded wanted : list Z) (shifts : Z)
    (doctors : dict string details) :
  session_roster session_state "doctors" = Ok doctors ->
  form_roster doctors ->
  exists session_state' shown doctors',
    submit_doctor session_state add_doctor name excluded wanted shifts
    = Ok (session_state', shown)
    /\ session_roster session_state' "doctors" = Ok doctors'
    /\ form_roster doctors'
    /\ (shown = DoctorAdded ->
        add_doctor = true
        /\ doctors' = dict_set doctors name (form_entry excluded wanted shifts))
    /\ (shown <> DoctorAdded -> session_state' = session_state)
    /\ (shown = OverlapError <->
        add_doctor = true /\ name <> ""%string
        /\ exists day, day ∈ wanted /\ day ∈ excluded).
Proof. apply submit_doctor_spec. Qed.

Lemma form_keeps_the_roster_well_formed_witness :
  exists session_state' shown doctors',
    submit_doctor (init_doctors []) true doctor_A [3] [5; 3] 0
    = Ok (session_state', shown)
    /\ session_roster session_state' "doctors" = Ok doctors'
    /\ form_roster doctors'
    /\ (shown = DoctorAdded ->
        true = true
        /\ doctors' = dict_set [] doctor_A (form_entry [3] [5; 3] 0))
    /\ (shown <> DoctorAdded -> session_state' = init_doctors [])
    /\ (shown = OverlapError <->
        true = true /\ doctor_A <> ""%string
        /\ exists day, day ∈ [5; 3] /\ day ∈ [3]).
Proof.
  apply (form_keeps_the_roster_well_formed (init_doctors []) true doctor_A
           [3] [5; 3] 0 []).
  - vm_compute. reflexivity.
  - intros name det Hget. vm_compute in Hget. discriminate.
Defined.

(** *** Generate Schedule *)

Lemma demand_table_wf doctors n : dict_wf (demand_table doctors n).
Proof.
  unfold dict_wf, dict_keys, demand_table. rewrite <- list_fmap_compose.
  rewrite list_fmap_id. apply py_range_NoDup.
Qed.

Lemma demand_table_days doctors n : days_1_to (demand_table doctors n) n.
Proof.
  unfold days_1_to, dict_keys, demand_table. rewrite <- list_fmap_compose.
  apply list_fmap_id.
Qed.

Lemma generate_initial_schedule_table doctors month year n :
  wanted_from_1 doctors ->
  month_end_day year month = Ok n ->
  generate_initial_schedule doctors month year = Ok (demand_table doctors n).
Proof.
  intros Hwanted Hn. unfold generate_initial_schedule. rewrite Hn. simpl.
  destruct (build_schedule_total doctors n Hwanted) as (schedule & Hb & _).
  rewrite Hb. f_equal. by apply build_schedule_table.
Qed.

Lemma seeds_in_roster_table doctors n resolved_schedule :
  (forall day x, dict_get resolved_schedule day = Some x ->
                 x ∈ wanting doctors n day) ->
  seeds_in_roster (demand_table doctors n) resolved_schedule doctors.
Proof.
  intros Hres [day l] x Hin Hx. apply demand_table_elem in Hin as [_ ->].
  assert (x ∈ wanting doctors n day) as Hw.
  { unfold seed_choice in Hx. simpl in Hx.
    destruct (dict_mem resolved_schedule day); [by apply Hres |].
    destruct (wanting doctors n day) as [|a [|b l]]; try done.
    injection Hx as ->. by left. }
  apply elem_of_wanting in Hw as (det & Hdet & _).
  unfold dict_keys. apply list_elem_of_fmap. by exists (x, det).
Qed.

Lemma generate_clicked_spec session_state month year g doctors n :
  session_roster session_state "doctors" = Ok doctors ->
  wanted_from_1 doctors ->
  month_end_day year month = Ok n ->
  exists session_state',
    generate_clicked session_state month year g = Ok session_state'
    /\ session_demand session_state' "initial_schedule"
       = Ok (demand_table doctors n)
    /\ session_demand session_state' "conflicts"
       = Ok (identify_conflicts (demand_table doctors n))
    /\ (forall key, key ∉ result_keys ->
          dict_get session_state' key = dict_get session_state key)
    /\ match identify_conflicts (demand_table doctors n) with
       | [] => exists fs, dict_get session_state' "final_schedule"
                          = Some (VFinal fs)
                          /\ has_days n fs
       | _ => dict_get session_state' "final_schedule"
              = dict_get session_state "final_schedule"
       end.
Proof.
  intros Hroster Hwanted Hn. unfold generate_clicked.
  rewrite Hroster. simpl.
  rewrite (generate_initial_schedule_table doctors month year n) by done. simpl.
  rewrite session_demand_set. simpl. rewrite session_demand_set. simpl.
  set (initial := demand_table doctors n).
  set (s1 := dict_set session_state "initial_schedule"%string (VDemand initial)).
  set (s2 := dict_set s1 "conflicts"%string (VDemand (identify_conflicts initial))).
  assert (session_demand s2 "initial_schedule" = Ok initial) as Hinit.
  { unfold s2. rewrite (session_demand_frame s1) by (by apply dict_get_set_ne).
    apply session_demand_set. }
  assert (forall key, key ∉ result_keys -> dict_get s2 key = dict_get session_state key)
    as Hframe.
  { intros key Hkey. unfold result_keys in Hkey.
    rewrite !not_elem_of_cons in Hkey. destruct Hkey as (H1 & H2 & _).
    unfold s2, s1. by rewrite !dict_get_set_ne by done. }
  assert (session_roster s2 "doctors" = Ok doctors) as Hdoc.
  { rewrite (session_roster_frame session_state); [done |].
    apply Hframe. unfold result_keys. rewrite !not_elem_of_cons.
    repeat split; try done. apply not_elem_of_nil. }
  destruct (identify_conflicts initial) as [|c cs] eqn:Hc.
  - rewrite Hinit, Hdoc. simpl.
    assert (0 <= n) as Hn0 by (apply month_end_day_ok in Hn; lia).
    destruct (finalize_schedule_total initial [] doctors g n Hn0)
      as (fs & Hfin & Hdays).
    + apply demand_table_days.
    + apply seeds_in_roster_table. intros day x Hget. discriminate Hget.
    + rewrite Hfin. simpl. eexists. split; [done |].
      split; [ | split; [ | split]].
      * rewrite (session_demand_frame s2) by (by apply dict_get_set_ne). done.
      * rewrite (session_demand_frame s2) by (by apply dict_get_set_ne).
        unfold s2. rewrite <- Hc. apply session_demand_set.
      * intros key Hkey. rewrite <- Hframe by done.
        apply dict_get_set_ne. intros <-. apply Hkey. unfold result_keys.
        rewrite !elem_of_cons. auto.
      * exists fs. split; [apply dict_get_set_eq | done].
  - exists s2. split; [done |]. split; [done |].
    split; [unfold s2; rewrite <- Hc; apply session_demand_set |].
    split; [done |].
    unfold s2, s1. by rewrite !dict_get_set_ne by done.
Qed.

(** X28: with a roster under "doctors" that has no wanted day below 1, and
    a month that has a length, the button "Generate Schedule" raises
    nothing. It stores the demand table of the roster under
    "initial_schedule" and its conflicts under "conflicts", and changes no
    key other than the three result keys. Without conflicts it stores a
    final schedule with the days 1..n; with conflicts it leaves
    "final_schedule" as it was, so that a final schedule of an earlier run
    stays in the session. *)
Theorem generate_stores_demand_and_conflicts
    (session_state : dict string session_value) (month year : Z) (g : rng)
    (doctors : dict string details) (n : Z) :
  session_roster session_state "doctors" = Ok doctors ->
  wanted_from_1 doctors ->
  month_end_day year month = Ok n ->
  exists session_state',
    generate_clicked session_state month year g = Ok session_state'
    /\ session_demand session_state' "initial_schedule"
       = Ok (demand_table doctors n)
    /\ session_demand session_state' "conflicts"
       = Ok (identify_conflicts (demand_table doctors n))
    /\ (forall key, key ∉ result_keys ->
          dict_get session_state' key = dict_get session_state key)
    /\ match identify_conflicts (demand_table doctors n) with
       | [] => exists fs, dict_get session_state' "final_schedule"
                          = Some (VFinal fs)
                          /\ has_days n fs
       | _ => dict_get session_state' "final_schedule"
              = dict_get session_state "final_schedule"
       end.
Proof. apply generate_clicked_spec. Qed.

Lemma wanted_from_1_roster_overlap : wanted_from_1 roster_overlap.
Proof.
  intros entry day Hin Hday. unfold roster_overlap in Hin.
  repeat (apply elem_of_cons in Hin as [-> | Hin]);
    try (by apply elem_of_nil in Hin); simpl in Hday;
    repeat (apply elem_of_cons in Hday as [-> | Hday]);
    try (by apply elem_of_nil in Hday); lia.
Qed.

Lemma generate_stores_demand_and_conflicts_witness :
  exists session_state',
    generate_clicked session_with_roster 2 2024 first_choice = Ok session_state'
    /\ session_demand session_state' "initial_schedule"
       = Ok (demand_table roster_overlap 29)
    /\ session_demand session_state' "conflicts"
       = Ok (identify_conflicts (demand_table roster_overlap 29))
    /\ (forall key, key ∉ result_keys ->
          dict_get session_state' key = dict_get session_with_roster key)
    /\ match identify_conflicts (demand_table roster_overlap 29) with
       | [] => exists fs, dict_get session_state' "final_schedule"
                          = Some (VFinal fs)
                          /\ has_days 29 fs
       | _ => dict_get session_state' "final_schedule"
              = dict_get session_with_roster "final_schedule"
       end.
Proof.
  apply (generate_stores_demand_and_conflicts session_with_roster 2 2024
           first_choice roster_overlap 29).
  - vm_compute. reflexivity.
  - exact wanted_from_1_roster_overlap.
  - vm_compute. reflexivity.
Defined.

(** *** Finalize Schedule *)

Lemma conflict_key_not_result day : conflict_key day ∉ result_keys.
Proof.
  intros Hin. pose proof (conflict_key_startswith_true day) as Hs.
  unfold result_keys in Hin.
  repeat (apply elem_of_cons in Hin as [Heq | Hin]);
    try (by apply elem_of_nil in Hin); rewrite Heq in Hs; discriminate Hs.
Qed.

Lemma conflict_section_spec selectbox session_state g doctors n :
  returns_an_option selectbox ->
  0 <= n ->
  session_roster session_state "doctors" = Ok doctors ->
  session_demand session_state "initial_schedule" = Ok (demand_table doctors n) ->
  session_demand session_state "conflicts"
  = Ok (identify_conflicts (demand_table doctors n)) ->
  identify_conflicts (demand_table doctors n) <> [] ->
  no_stale_choice session_state (identify_conflicts (demand_table doctors n)) ->
  (exists session_state' fs,
     conflict_section selectbox session_state true g = Ok session_state'
     /\ dict_get session_state' "final_schedule" = Some (VFinal fs)
     /\ has_days n fs)
  /\ (exists session_state',
        conflict_section selectbox session_state false g = Ok session_state'
        /\ dict_get session_state' "final_schedule"
           = dict_get session_state "final_schedule").
Proof.
  intros Hsel Hn Hroster Hinit Hconf Hne Hstale.
  set (table := demand_table doctors n) in *.
  destruct (resolve_conflicts_ok selectbox session_state
              (identify_conflicts table))
    as (ss' & resolved & Hrun & Hans & Hframe).
  { apply conflicts_wf, demand_table_wf. }
  { exact Hstale. }
  assert (forall key, startswith key "conflict_" = false ->
            dict_get ss' key = dict_get session_state key) as Hother.
  { intros key Hkey. apply Hframe. by apply conflict_key_startswith. }
  assert (dict_mem session_state "conflicts" = true) as Hmem.
  { unfold session_demand, dict_item in Hconf. unfold dict_mem.
    by destruct (dict_get session_state "conflicts"). }
  assert (forall b, conflict_section selectbox session_state b g
          = if b then
              initial <- session_demand ss' "initial_schedule" ;;
              doctors <- session_roster ss' "doctors" ;;
              final <- finalize_schedule initial resolved doctors g ;;
              Ok (dict_set ss' "final_schedule"%string (VFinal final))
            else Ok ss') as Hsection.
  { intros b. unfold conflict_section. rewrite Hmem, Hconf. simpl.
    destruct (identify_conflicts table) as [|c cs] eqn:Hc; [done |].
    by rewrite Hrun. }
  split.
  - rewrite Hsection.
    rewrite (session_demand_frame session_state), Hinit by (by apply Hother).
    simpl.
    rewrite (session_roster_frame session_state), Hroster by (by apply Hother).
    simpl.
    destruct (finalize_schedule_total table resolved doctors g n Hn)
      as (fs & Hfin & Hdays).
    + apply demand_table_days.
    + apply seeds_in_roster_table. intros day x Hget.
      apply (answers_get selectbox session_state _ _ _ _ Hans) in Hget
        as (l & i & Hin & Hi & ->).
      apply preselected_range in Hi. simpl in Hi.
      apply (conflicts_not_empty table) in Hin as [Hin _];
        [ | apply demand_table_wf].
      apply demand_table_elem in Hin as [_ Hl]. rewrite <- Hl.
      by apply Hsel.
    + rewrite Hfin. simpl. eexists _, fs. split; [done |].
      split; [apply dict_get_set_eq | done].
  - rewrite Hsection. exists ss'. split; [done |]. by apply Hother.
Qed.

(** X29: in a session that holds a roster, its demand table for a month of
    n days and the table's conflicts, without a stale choice, and with a
    widget that answers with one of its options, the conflict section
    raises nothing. With the button "Finalize Schedule" pressed it stores
    a final schedule with the days 1..n; without it, "final_schedule" is
    left as it was. *)
Theorem finalize_button_stores_a_schedule
    (selectbox : string -> list string -> Z -> string)
    (session_state : dict string session_value) (g : rng)
    (doctors : dict string details) (n : Z) :
  returns_an_option selectbox ->
  0 <= n ->
  session_roster session_state "doctors" = Ok doctors ->
  session_demand session_state "initial_schedule" = Ok (demand_table doctors n) ->
  session_demand session_state "conflicts"
  = Ok (identify_conflicts (demand_table doctors n)) ->
  identify_conflicts (demand_table doctors n) <> [] ->
  no_stale_choice session_state (identify_conflicts (demand_table doctors n)) ->
  (exists session_state' fs,
     conflict_section selectbox session_state true g = Ok session_state'
     /\ dict_get session_state' "final_schedule" = Some (VFinal fs)
     /\ has_days n fs)
  /\ (exists session_state',
        conflict_section selectbox session_state false g = Ok session_state'
        /\ dict_get session_state' "final_schedule"
           = dict_get session_state "final_schedule").
Proof. apply conflict_section_spec. Qed.

Lemma finalize_button_stores_a_schedule_witness :
  (exists session_state' fs,
     conflict_section untouched_selectbox session_generated true first_choice
     = Ok session_state'
     /\ dict_get session_state' "final_schedule" = Some (VFinal fs)
     /\ has_days 29 fs)
  /\ (exists session_state',
        conflict_section untouched_selectbox session_generated false first_choice
        = Ok session_state'
        /\ dict_get session_state' "final_schedule"
           = dict_get session_generated "final_schedule").
Proof.
  apply (finalize_button_stores_a_schedule untouched_selectbox
           session_generated first_choice roster_overlap 29).
  - exact untouched_selectbox_option.
  - lia.
  - vm_compute. reflexivity.
  - vm_compute. reflexivity.
  - vm_compute. reflexivity.
  - vm_compute. discriminate.
  - intros item Hin. exists 0. vm_compute in Hin.
    apply list_elem_of_singleton in Hin. subst item. vm_compute. reflexivity.
Defined.

(** ** The table of the final schedule *)

Lemma is_weekend_or_holiday_row year month day holiday_year :
  1000 <= year <= 9999 ->
  1 <= month <= 12 ->
  1 <= day <= days_in_month year month ->
  is_weekend_or_holiday (date_str year month day)
    (get_public_holidays holiday_year)
  = Ok (5 <=? weekday year month day).
Proof.
  intros Hy Hm Hd. unfold is_weekend_or_holiday.
  pose proof (strptime_date_str year month day Hy Hm Hd) as Hs.
  rewrite Hs. simpl.
  apply (strptime_not_holiday _ _ holiday_year) in Hs.
  rewrite bool_decide_eq_false_2 by done. by rewrite orb_false_r.
Qed.

Lemma table_rows_loop year month fs (days : list Z) :
  1000 <= year <= 9999 ->
  1 <= month <= 12 ->
  (forall day, day ∈ days ->
     1 <= day <= days_in_month year month /\ day ∈ dict_keys fs) ->
  forall rows,
    for_each (table_row (get_public_holidays year) year month fs) days rows
    = Ok (rows
            ++ ((fun day =>
                   {| Date := day_cell (5 <=? weekday year month day) day;
                      Doctor := doctor_cell (dict_get fs day ≫= id) |})
                  <$> days)).
Proof.
  intros Hy Hm. induction days as [|day days IH]; intros Hdays rows.
  - simpl. by rewrite app_nil_r.
  - rewrite for_each_cons. unfold table_row at 1.
    destruct (Hdays day) as [Hd Hk]; [by left |].
    rewrite is_weekend_or_holiday_row by done. simpl.
    apply dict_get_is_Some_keys in Hk as [slot Hslot].
    unfold dict_item. rewrite Hslot. simpl.
    rewrite IH by (intros d Hin; apply Hdays; by right).
    rewrite <- app_assoc. by destruct slot.
Qed.

Lemma schedule_table_rows session_state year month fs n :
  1000 <= year <= 9999 ->
  1 <= month <= 12 ->
  0 <= n <= days_in_month year month ->
  dict_get session_state "final_schedule" = Some (VFinal fs) ->
  has_days n fs ->
  schedule_table session_state year month = Ok (expected_rows year month n fs).
Proof.
  intros Hy Hm Hn Hget Hdays. unfold schedule_table, dict_mem, session_final,
    dict_item. rewrite Hget. simpl.
  rewrite (has_days_len n fs); [ | lia | done].
  rewrite (table_rows_loop year month fs); [done | done | done |].
  intros day Hd. unfold has_days in Hdays. rewrite Hdays.
  split; [apply elem_of_py_range in Hd; lia | done].
Qed.

(** X30: for a session whose final schedule has the days 1..n of the
    selected month of a four-digit year, the table block raises nothing
    and builds one row for each day, in order: the day number, between
    asterisks exactly on Saturdays and Sundays (no day is marked as a
    holiday), and the doctor of the day, or "None" for a day without a
    doctor. *)
Theorem table_has_a_row_for_each_day
    (session_state : dict string session_value) (year month : Z)
    (fs : dict Z (option string)) (n : Z) :
  1000 <= year <= 9999 ->
  1 <= month <= 12 ->
  0 <= n <= days_in_month year month ->
  dict_get session_state "final_schedule" = Some (VFinal fs) ->
  has_days n fs ->
  schedule_table session_state year month = Ok (expected_rows year month n fs).
Proof. apply schedule_table_rows. Qed.

Lemma table_has_a_row_for_each_day_witness :
  schedule_table session_final_3 2024 2 = Ok (expected_rows 2024 2 3 final_3).
Proof.
  apply (table_has_a_row_for_each_day session_final_3 2024 2 final_3 3).
  - lia.
  - lia.
  - vm_compute. split; discriminate.
  - reflexivity.
  - vm_compute. reflexivity.
Defined.
